(** * CareCast: staff-allocation optimizer and demand forecaster

    A shallow embedding of [optimization/staff_optimizer.py] and of the
    prediction half of [models/ml_pipeline.py] (feature construction and
    [predict_resources]; training, persistence and the report strings of
    [generate_recommendations] are left out).

    Conventions of the embedding.
    - A Python [dict] with string keys is a [gmap string _]; a pandas
      DataFrame, whose column order is observable, is an association list.
    - A Python [int] is a [Z]; a Python [float] is a rational [Q], so float
      rounding error and the non-finite floats are outside the model; a pandas
      cell that may be NaN is an [option Q].
    - The PuLP/CBC solver is a capability the code calls into: a function
      from the assembled problem to what [prob.solve] leaves behind. A
      trained regressor is a function from a feature row to its raw output,
      and the float square root is a parameter.
    - A raised exception is the left summand of the result. *)

From Stdlib Require Import ZArith QArith Qround Qabs List Lia Lqa.
From stdpp Require Import gmap strings list fin_maps pretty.

Local Open Scope Z_scope.

(** ** Python built-ins used by the code *)

(** [int(x)] on a float truncates toward zero. *)
Definition py_int (x : Q) : Z := Z.quot (Qnum x) (Z.pos (Qden x)).

(** [a > b] and [a < b] on floats. *)
Definition Qgt_bool (a b : Q) : bool := negb (Qle_bool a b).
Definition Qlt_bool (a b : Q) : bool := negb (Qle_bool b a).

(** Float addition. A float is a rational that binary64 holds, and the sum of
    two floats is their exact sum rounded to the nearest such rational, ties
    to the even mantissa. The infinities are not modelled: a sum beyond the
    largest float is the rounded rational, which every comparison of the code
    treats as it treats the infinity. *)
Definition two_power (e : Z) : Q :=
  if 0 <=? e then inject_Z (2 ^ e) else 1 # Z.to_pos (2 ^ (- e)).

Definition round_half_even (x : Q) : Z :=
  let f := Qfloor x in
  match (x - inject_Z f ?= 1 # 2)%Q with
  | Lt => f
  | Gt => f + 1
  | Eq => if Z.even f then f else f + 1
  end.

(** The [k] with [2^k <= x < 2^(k+1)], for a positive [x]. *)
Definition binade (x : Q) : Z :=
  let k := Z.log2 (Qnum x) - Z.log2 (Zpos (Qden x)) in
  if Qle_bool (two_power k) x then k else k - 1.

(** The nearest float: 53 bits of mantissa, or fewer below [2^-1022]. *)
Definition binary64 (x : Q) : Q :=
  if Qeq_bool x (inject_Z 0) then inject_Z 0
  else
    let a := Qabs x in
    let e := Z.max (binade a - 52) (-1074) in
    let r := (inject_Z (round_half_even (a / two_power e)) * two_power e)%Q in
    if Qle_bool (inject_Z 0) x then r else (- r)%Q.

Definition float_add (a b : Q) : Q := binary64 (a + b).

(** [sum(d.values())] and, more generally, a sum over the items of a dict. *)
Definition dict_sum {V} (g : string → V → Z) (d : gmap string V) : Z :=
  map_fold (λ k v acc, acc + g k v) 0 d.

Inductive Exception :=
  | PulpSolverError (msg : string)
  | KeyError (key : string)
  | IndexError.

(** ** PuLP: variables, affine expressions, constraints, problems *)

Module pulp.

Record LpVariable := {
  name : string;
  lowBound : Z;
  upBound : Z          (* cat = 'Integer' throughout: values are in Z *)
}.

#[export] Instance LpVariable_inhabited : Inhabited LpVariable :=
  populate {| name := EmptyString; lowBound := 0; upBound := 0 |}.

(** [c1*x1 + ... + cn*xn], built by [total += c * x]. *)
Definition LpAffineExpression := list (Z * LpVariable).

Inductive sense := LpConstraintLE | LpConstraintGE | LpConstraintEQ.

Record LpConstraint := {
  lhs : LpAffineExpression;
  csense : sense;
  rhs : Q;
  cname : string
}.

Record LpProblem := {
  objective : LpAffineExpression;
  constraints : list LpConstraint
}.

Inductive LpStatusCode :=
  | LpStatusNotSolved | LpStatusOptimal | LpStatusInfeasible
  | LpStatusUnbounded | LpStatusUndefined.

(** The table [pulp.LpStatus]. *)
Definition LpStatus (s : LpStatusCode) : string :=
  match s with
  | LpStatusNotSolved => "Not Solved"
  | LpStatusOptimal => "Optimal"
  | LpStatusInfeasible => "Infeasible"
  | LpStatusUnbounded => "Unbounded"
  | LpStatusUndefined => "Undefined"
  end.

(** [prob += expr, "name"] sets the objective, [prob += constraint, "name"]
    appends a constraint. *)
Definition set_objective (prob : LpProblem) (e : LpAffineExpression) : LpProblem :=
  {| objective := e; constraints := constraints prob |}.

Definition add_constraint (prob : LpProblem) (c : LpConstraint) : LpProblem :=
  {| objective := objective prob; constraints := constraints prob ++ [c] |}.

(** [pulp.value(e)] under the variable values the solver left behind. *)
Definition value (varValue : string → Z) (e : LpAffineExpression) : Z :=
  foldr (λ '(c, x) acc, c * varValue (name x) + acc) 0 e.

Definition holds (varValue : string → Z) (c : LpConstraint) : bool :=
  match csense c with
  | LpConstraintLE => Qle_bool (inject_Z (value varValue (lhs c))) (rhs c)
  | LpConstraintGE => Qle_bool (rhs c) (inject_Z (value varValue (lhs c)))
  | LpConstraintEQ => Qeq_bool (inject_Z (value varValue (lhs c))) (rhs c)
  end.

Definition within_bounds (varValue : string → Z) (x : LpVariable) : bool :=
  (lowBound x <=? varValue (name x)) && (varValue (name x) <=? upBound x).

(** A point of the feasible region: every variable of the objective within
    its bounds, every constraint satisfied. *)
Definition feasible (prob : LpProblem) (varValue : string → Z) : bool :=
  forallb (λ '(_, x), within_bounds varValue x) (objective prob)
  && forallb (holds varValue) (constraints prob).

(** What [prob.solve(...)] does: it raises, or it sets [prob.status] and the
    variables' values. *)
Inductive outcome :=
  | Raised (e : Exception)
  | Solved (status : LpStatusCode) (varValue : string → Z).

Definition Solver := LpProblem → outcome.

(** The one thing assumed of a solver: a point reported optimal is feasible. *)
Definition sound (solve : Solver) : Prop :=
  ∀ prob varValue,
    solve prob = Solved LpStatusOptimal varValue → feasible prob varValue = true.

End pulp.
Import pulp.

(** ** optimization/staff_optimizer.py *)

Module StaffOptimizer.

(** *** [__init__] *)

Definition staff_types : list string := ["Nurses"; "Doctors"; "Support_Staff"].
Definition shifts : list string := ["Morning"; "Evening"; "Night"].

Definition base_costs : gmap string (gmap string Z) :=
  {[ "Nurses" := {[ "Morning" := 25; "Evening" := 28; "Night" := 32 ]};
     "Doctors" := {[ "Morning" := 80; "Evening" := 85; "Night" := 95 ]};
     "Support_Staff" := {[ "Morning" := 18; "Evening" := 20; "Night" := 25 ]} ]}.

(** [d[k1][k2]] on a nested dict whose keys are known to be present, and
    [d[k1][k2] = v]. *)
Definition item2 {V} `{Inhabited V} (d : gmap string (gmap string V)) (k1 k2 : string) : V :=
  (d !!! k1) !!! k2.

Definition set_item2 {V} (d : gmap string (gmap string V)) (k1 k2 : string) (v : V)
  : gmap string (gmap string V) :=
  <[k1 := <[k2 := v]> (d !!! k1)]> d.

(** [d.get(k1, {}).get(k2, dflt)] *)
Definition get2 {V} (d : gmap string (gmap string V)) (k1 k2 : string) (dflt : V) : V :=
  default dflt (default ∅ (d !! k1) !! k2).

(** *** The dict the optimizer returns *)

Record cost_entry := { count : Z; rate : Z; cost : Z }.

(** [breakdown[staff_type]]: one entry per shift and the key ['total']. *)
Record type_breakdown := { per_shift : gmap string cost_entry; total : Z }.

Record efficiency := {
  total_staff : Z;
  (** before the two-decimal [round] *)
  average_cost_per_staff : Q;
  staff_distribution : gmap string Z;
  shift_coverage : gmap string Z
}.

(** What [_extract_solution] and [_fallback_solution] return. *)
Record solution := {
  optimized_allocation : gmap string (gmap string Z);
  total_cost : Z;
  objective_value : Z;
  solver_status : string;
  cost_breakdown : gmap string type_breakdown;
  efficiency_metrics : efficiency
}.

(** The same dict once [optimize_allocation] has set ['status'] (the
    wall-clock ['optimization_timestamp'] is left out). *)
Record result := { sol :> solution; status : string }.

(** *** [_calculate_cost_breakdown], [_calculate_efficiency_metrics] *)

Definition _calculate_cost_breakdown (allocation : gmap string (gmap string Z))
  : gmap string type_breakdown :=
  map_imap (λ staff_type row,
    Some {| per_shift :=
              map_imap (λ shift count,
                Some {| count := count;
                        rate := item2 base_costs staff_type shift;
                        cost := count * item2 base_costs staff_type shift |}) row;
            total := dict_sum (λ shift count, count * item2 base_costs staff_type shift) row |})
    allocation.

Definition _calculate_efficiency_metrics (allocation : gmap string (gmap string Z))
  : efficiency :=
  let total_staff := dict_sum (λ _ row, dict_sum (λ _ count, count) row) allocation in
  let total_cost :=
    dict_sum (λ staff_type row,
      dict_sum (λ shift count, count * item2 base_costs staff_type shift) row) allocation in
  {| total_staff := total_staff;
     average_cost_per_staff := (inject_Z total_cost / inject_Z (Z.max 1 total_staff))%Q;
     staff_distribution := dict_sum (λ _ count, count) <$> allocation;
     shift_coverage :=
       foldl (λ d shift,
         <[shift := dict_sum (λ staff_type _, item2 allocation staff_type shift) allocation]> d)
         ∅ shifts |}.

(** *** Decision variables and objective *)

Definition staff_vars : gmap string (gmap string LpVariable) :=
  foldl (λ vars staff_type,
    foldl (λ vars shift,
      set_item2 vars staff_type shift
        {| name := staff_type +:+ "_" +:+ shift; lowBound := 1; upBound := 50 |})
      (<[staff_type := ∅]> vars) shifts)
    ∅ staff_types.

(** [total_cost += cost_per_person * staff_vars[staff_type][shift]] over both
    loops; also the left-hand side of the budget constraint. *)
Definition cost_expression (vars : gmap string (gmap string LpVariable)) : LpAffineExpression :=
  foldl (λ total staff_type,
    foldl (λ total shift,
      total ++ [(item2 base_costs staff_type shift, item2 vars staff_type shift)])
      total shifts)
    [] staff_types.

(** [total_staff += staff_vars[staff_type][shift]] over both loops. *)
Definition staff_expression (vars : gmap string (gmap string LpVariable)) : LpAffineExpression :=
  foldl (λ total staff_type,
    foldl (λ total shift, total ++ [(1, item2 vars staff_type shift)]) total shifts)
    [] staff_types.

(** [x >= n] and [x <= n] with their labels. *)
Definition var_ge (x : LpVariable) (n : Z) (label : string) : LpConstraint :=
  {| lhs := [(1, x)]; csense := LpConstraintGE; rhs := inject_Z n; cname := label |}.

Definition var_le (x : LpVariable) (n : Z) (label : string) : LpConstraint :=
  {| lhs := [(1, x)]; csense := LpConstraintLE; rhs := inject_Z n; cname := label |}.

(** *** [_add_demand_constraints] *)

Definition nurse_ratios : gmap string Z :=
  {[ "Morning" := 6; "Evening" := 8; "Night" := 12 ]}.

Definition _add_demand_constraints (prob : LpProblem)
    (vars : gmap string (gmap string LpVariable)) (predicted_demand : gmap string Q)
  : LpProblem :=
  let prob :=
    match predicted_demand !! "bed_occupancy" with
    | Some bed_occupancy =>
        foldl (λ prob shift,
          let min_nurses :=
            Z.max 3 (py_int (bed_occupancy / inject_Z (nurse_ratios !!! shift))) in
          add_constraint prob
            (var_ge (item2 vars "Nurses" shift) min_nurses ("Min_Nurses_" +:+ shift)))
          prob shifts
    | None => prob
    end in
  let prob :=
    match predicted_demand !! "admissions" with
    | Some admissions =>
        if Qgt_bool admissions (inject_Z 12) then
          add_constraint
            (add_constraint prob
               (var_ge (item2 vars "Doctors" "Morning") 12 "High_Admission_Doctors_Morning"))
            (var_ge (item2 vars "Doctors" "Evening") 10 "High_Admission_Doctors_Evening")
        else if Qlt_bool admissions (inject_Z 5) then
          add_constraint
            (add_constraint prob
               (var_ge (item2 vars "Doctors" "Morning") 8 "Low_Admission_Doctors_Morning"))
            (var_ge (item2 vars "Doctors" "Evening") 6 "Low_Admission_Doctors_Evening")
        else prob
    | None => prob
    end in
  let total_activity :=
    foldl float_add (inject_Z 0)
      (map (λ key, default (inject_Z 0) (predicted_demand !! key))
           ["admissions"; "bed_occupancy"]) in
  if Qgt_bool total_activity (inject_Z 200) then
    foldl (λ prob shift,
      add_constraint prob
        (var_ge (item2 vars "Support_Staff" shift) 8 ("High_Activity_Support_" +:+ shift)))
      prob ["Morning"; "Evening"]
  else prob.

(** *** [_add_operational_constraints] *)

(** [max(2, int(current_count * 0.3))] *)
Definition max_change (current_count : Z) : Z :=
  Z.max 2 (py_int (inject_Z current_count * (3 # 10))).

Definition _add_operational_constraints (prob : LpProblem)
    (vars : gmap string (gmap string LpVariable)) (current_staff : gmap string (gmap string Z))
  : LpProblem :=
  let prob :=
    foldl (λ prob staff_type,
      match current_staff !! staff_type with
      | Some row =>
          foldl (λ prob shift,
            match row !! shift with
            | Some current_count =>
                add_constraint
                  (add_constraint prob
                     (var_ge (item2 vars staff_type shift)
                        (current_count - max_change current_count)
                        ("Min_Change_" +:+ staff_type +:+ "_" +:+ shift)))
                  (var_le (item2 vars staff_type shift)
                     (current_count + max_change current_count)
                     ("Max_Change_" +:+ staff_type +:+ "_" +:+ shift))
            | None => prob
            end) prob shifts
      | None => prob
      end) prob staff_types in
  let prob := add_constraint prob (var_ge (item2 vars "Doctors" "Night") 5 "Min_Night_Doctors") in
  let prob := add_constraint prob (var_ge (item2 vars "Nurses" "Night") 10 "Min_Night_Nurses") in
  let total_current := dict_sum (λ _ row, dict_sum (λ _ n, n) row) current_staff in
  if 80 <? total_current then
    foldl (λ prob staff_type,
      add_constraint prob
        {| lhs := [(1, item2 vars staff_type "Morning"); (1, item2 vars staff_type "Evening")];
           csense := LpConstraintGE;
           rhs := inject_Z (py_int (inject_Z
                    (foldr Z.add 0
                       (map (λ s, get2 current_staff staff_type s 5) ["Morning"; "Evening"]))
                    * (9 # 10)));
           cname := "Weekend_" +:+ staff_type |})
      prob ["Nurses"; "Doctors"]
  else prob.

(** *** [_add_custom_constraints] *)

Definition _add_custom_constraints (prob : LpProblem)
    (vars : gmap string (gmap string LpVariable)) (constraints : option (gmap string Q))
  : LpProblem :=
  match constraints with
  | None => prob
  | Some constraints =>
      if bool_decide (dom constraints = ∅) then prob else
      let prob :=
        match constraints !! "max_budget" with
        | Some max_budget =>
            add_constraint prob
              {| lhs := cost_expression vars; csense := LpConstraintLE;
                 rhs := max_budget; cname := "Budget_Constraint" |}
        | None => prob
        end in
      let prob :=
        match constraints !! "min_total_staff" with
        | Some n =>
            add_constraint prob
              {| lhs := staff_expression vars; csense := LpConstraintGE;
                 rhs := n; cname := "Min_Total_Staff" |}
        | None => prob
        end in
      match constraints !! "max_total_staff" with
      | Some n =>
          add_constraint prob
            {| lhs := staff_expression vars; csense := LpConstraintLE;
               rhs := n; cname := "Max_Total_Staff" |}
      | None => prob
      end
  end.

(** *** [_extract_solution] *)

(** [int(pulp.value(x))] is the solver's value of [x]: the variables are
    integer ones. *)
Definition _extract_solution (vars : gmap string (gmap string LpVariable))
    (prob : LpProblem) (prob_status : LpStatusCode) (varValue : string → Z) : solution :=
  let '(optimized_allocation, total_cost) :=
    foldl (λ '(allocation, total_cost) staff_type,
      foldl (λ '(allocation, total_cost) shift,
        let count := varValue (name (item2 vars staff_type shift)) in
        (set_item2 allocation staff_type shift count,
         total_cost + count * item2 base_costs staff_type shift))
        (<[staff_type := ∅]> allocation, total_cost) shifts)
      (∅, 0) staff_types in
  {| optimized_allocation := optimized_allocation;
     total_cost := total_cost;
     objective_value := value varValue (objective prob);
     solver_status := LpStatus prob_status;
     cost_breakdown := _calculate_cost_breakdown optimized_allocation;
     efficiency_metrics := _calculate_efficiency_metrics optimized_allocation |}.

(** *** [_fallback_solution] *)

(** The body of the two loops: the count of one staff type on one shift. *)
Definition fallback_count (current_staff : gmap string (gmap string Z))
    (predicted_demand : gmap string Q) (staff_type shift : string) : Z :=
  let current_count := get2 current_staff staff_type shift 5 in
  let adjustment := 0 in
  let adjustment :=
    match predicted_demand !! "admissions" with
    | Some admissions =>
        if Qgt_bool admissions (inject_Z 10) then
          if bool_decide (shift ∈ ["Morning"; "Evening"]) then 2 else 1
        else if Qlt_bool admissions (inject_Z 5) then -1
        else adjustment
    | None => adjustment
    end in
  let adjustment :=
    match predicted_demand !! "bed_occupancy" with
    | Some bed_occupancy =>
        if Qgt_bool bed_occupancy (inject_Z 200) then adjustment + 1 else adjustment
    | None => adjustment
    end in
  Z.max 1 (current_count + adjustment).

Definition _fallback_solution (current_staff : gmap string (gmap string Z))
    (predicted_demand : gmap string Q) : solution :=
  let optimized_allocation :=
    foldl (λ allocation staff_type,
      foldl (λ allocation shift,
        set_item2 allocation staff_type shift
          (fallback_count current_staff predicted_demand staff_type shift))
        (<[staff_type := ∅]> allocation) shifts)
      ∅ staff_types in
  let total_cost :=
    dict_sum (λ staff_type row,
      dict_sum (λ shift count, count * item2 base_costs staff_type shift) row)
      optimized_allocation in
  {| optimized_allocation := optimized_allocation;
     total_cost := total_cost;
     objective_value := total_cost;
     solver_status := "heuristic_fallback";
     cost_breakdown := _calculate_cost_breakdown optimized_allocation;
     efficiency_metrics := _calculate_efficiency_metrics optimized_allocation |}.

(** *** [optimize_allocation] *)

(** The problem as it stands when [prob.solve] is called. *)
Definition assemble (current_staff : gmap string (gmap string Z))
    (predicted_demand : gmap string Q) (constraints : option (gmap string Q)) : LpProblem :=
  let prob := {| objective := []; pulp.constraints := [] |} in
  let prob := set_objective prob (cost_expression staff_vars) in
  let prob := _add_demand_constraints prob staff_vars predicted_demand in
  let prob := _add_operational_constraints prob staff_vars current_staff in
  _add_custom_constraints prob staff_vars constraints.

Section optimize_allocation.

(** [prob.solve(pulp.PULP_CBC_CMD(msg=0))] *)
Variable solve : Solver.

Definition optimize_allocation (current_staff : gmap string (gmap string Z))
    (predicted_demand : gmap string Q) (constraints : option (gmap string Q))
  : Exception + result :=
  let prob := assemble current_staff predicted_demand constraints in
  match solve prob with
  | Raised e => inl e
  | Solved prob_status varValue =>
      match prob_status with
      | LpStatusOptimal =>
          inr {| sol := _extract_solution staff_vars prob prob_status varValue;
                 status := "optimal" |}
      | _ =>
          inr {| sol := _fallback_solution current_staff predicted_demand;
                 status := "fallback" |}
      end
  end.

End optimize_allocation.

(** *** Two solvers to run the model with *)

(** CBC's executable is missing: [solve] raises. *)
Definition unavailable_solver : Solver :=
  λ _, Raised (PulpSolverError "PULP_CBC_CMD: Not Available (check permissions)").

(** A small sound solver. It puts every variable at the largest lower bound
    that the variable's own bound and the single-variable [>=] constraints
    give, and reports that point as optimal only when it is feasible. *)
Definition tightest_lower (prob : LpProblem) (x : LpVariable) : Z :=
  foldl (λ lo c,
    match lhs c, csense c with
    | [(1, y)], LpConstraintGE =>
        if String.eqb (name y) (name x) then Z.max lo (Qceiling (rhs c)) else lo
    | _, _ => lo
    end) (lowBound x) (pulp.constraints prob).

Definition lower_corner (prob : LpProblem) (var_name : string) : Z :=
  match find (λ '(_, x), String.eqb (name x) var_name) (objective prob) with
  | Some (_, x) => tightest_lower prob x
  | None => 0
  end.

Definition corner_solver : Solver :=
  λ prob,
    let varValue := lower_corner prob in
    if feasible prob varValue then Solved LpStatusOptimal varValue
    else Solved LpStatusInfeasible varValue.

(** *** The scenario of the module's [__main__] and a feasible one *)

Definition main_current_staff : gmap string (gmap string Z) :=
  {[ "Nurses" := {[ "Morning" := 20; "Evening" := 15; "Night" := 12 ]};
     "Doctors" := {[ "Morning" := 12; "Evening" := 10; "Night" := 6 ]};
     "Support_Staff" := {[ "Morning" := 8; "Evening" := 6; "Night" := 4 ]} ]}.

Definition main_predicted_demand : gmap string Q :=
  {[ "admissions" := inject_Z 14; "bed_occupancy" := inject_Z 180;
     "oxygen_level" := inject_Z 1200 ]}.

Definition main_constraints : option (gmap string Q) :=
  Some {[ "max_budget" := inject_Z 15000; "min_total_staff" := inject_Z 60 ]}.

Definition ward_current_staff : gmap string (gmap string Z) :=
  {[ "Nurses" := {[ "Morning" := 30; "Evening" := 24; "Night" := 15 ]};
     "Doctors" := {[ "Morning" := 12; "Evening" := 10; "Night" := 6 ]} ]}.

(** A ward whose current morning nurse count is above the variables' upper
    bound. *)
Definition crowded_current_staff : gmap string (gmap string Z) :=
  {[ "Nurses" := {[ "Morning" := 100 ]} ]}.

(** What [optimize_allocation] returns for these wards when the solver is
    [corner_solver]. *)
Definition ward_problem : LpProblem :=
  assemble ward_current_staff main_predicted_demand main_constraints.

Definition ward_result : result :=
  {| sol := _extract_solution staff_vars ward_problem LpStatusOptimal
              (lower_corner ward_problem);
     status := "optimal" |}.

Definition main_result : result :=
  {| sol := _fallback_solution main_current_staff main_predicted_demand;
     status := "fallback" |}.

Definition crowded_result : result :=
  {| sol := _fallback_solution crowded_current_staff ∅; status := "fallback" |}.

End StaffOptimizer.

(** ** pandas: the Series and DataFrame operations the pipeline calls *)

Module pandas.

(** A float column; [None] is NaN. *)
Abbreviation Series := (list (option Q)).

Definition Qsum (l : list Q) : Q := foldr Qplus (inject_Z 0) l.

Definition mean (l : list Q) : Q := (Qsum l / inject_Z (Z.of_nat (length l)))%Q.

(** The sample variance, [ddof = 1], pandas' default for [var] and [std]. *)
Definition var (l : list Q) : Q :=
  (Qsum (map (λ x, (x - mean l) * (x - mean l)) l)
   / inject_Z (Z.of_nat (length l) - 1))%Q.

(** [s.shift(k)] for [k >= 0]: row [t] holds [s[t-k]], the first [k] rows NaN. *)
Definition shift (k : nat) (s : Series) : Series :=
  take (length s) (replicate k None ++ s).

(** [s.rolling(window=w, min_periods=m)]: the window of row [t] is the rows
    [(t - w, t]]; its observations are the cells that are not NaN, and a row
    with fewer than [m] of them gets NaN. *)
Definition window (w : nat) (s : Series) (t : nat) : Series :=
  drop (S t - w) (take (S t) s).

Definition observations (cells : Series) : list Q := omap id cells.

Definition rolling (w min_periods : nat) (stat : list Q → option Q) (s : Series) : Series :=
  map (λ t,
    let obs := observations (window w s t) in
    if (min_periods <=? length obs)%nat then stat obs else None)
    (seq 0 (length s)).

(** [.mean()]: needs one observation. *)
Definition rolling_mean (w min_periods : nat) : Series → Series :=
  rolling w min_periods (λ obs, if (length obs =? 0)%nat then None else Some (mean obs)).

(** [.std()]: the square root of the sample variance, which needs more
    observations than [ddof = 1]. *)
Definition rolling_std (sqrt : Q → Q) (w min_periods : nat) : Series → Series :=
  rolling w min_periods (λ obs, if (length obs <=? 1)%nat then None else Some (sqrt (var obs))).

(** [fillna(method='ffill')] and [fillna(method='bfill')] on one column. *)
Fixpoint ffill_from (prev : option Q) (s : Series) : Series :=
  match s with
  | [] => []
  | c :: s' =>
      let c' := match c with Some _ => c | None => prev end in
      c' :: ffill_from c' s'
  end.

Definition ffill (s : Series) : Series := ffill_from None s.
Definition bfill (s : Series) : Series := rev (ffill (rev s)).

(** [(s > x).astype(int)] and the like: NaN compares false. *)
Definition cell_test (p : Q → bool) (c : option Q) : option Q :=
  Some (inject_Z (if match c with Some x => p x | None => false end then 1 else 0)).

(** [a / b], cell by cell. A cell here is a rational or NaN; pandas' cell
    for a zero divisor is [inf] or [-inf] (NaN for 0 / 0), and the model has
    NaN in its place, which [fillna_ffill_bfill] then fills where pandas
    keeps [inf]. The one column
    made with this quotient is [occupancy_oxygen_ratio], whose divisor is the
    oxygen level plus 1: its cells are those of the code on every input whose
    oxygen level is never -1. *)
Definition cell_div (a b : option Q) : option Q :=
  match a, b with
  | Some x, Some y => if Qeq_bool y (inject_Z 0) then None else Some (x / y)%Q
  | _, _ => None
  end.

(** What [df['timestamp'].dt] exposes. *)
Record Timestamp := { hour : Z; dayofweek : Z; month : Z }.

Record DataFrame := {
  nrows : nat;
  timestamp : option (list Timestamp);
  columns : list (string * Series)
}.

(** [df[c]], [c in df.columns] and [df[c] = s]. *)
Fixpoint lookup_column (cols : list (string * Series)) (c : string) : option Series :=
  match cols with
  | [] => None
  | (k, s) :: cols' => if String.eqb k c then Some s else lookup_column cols' c
  end.

Fixpoint assign_column (cols : list (string * Series)) (c : string) (s : Series)
  : list (string * Series) :=
  match cols with
  | [] => [(c, s)]
  | (k, s') :: cols' =>
      if String.eqb k c then (k, s) :: cols' else (k, s') :: assign_column cols' c s
  end.

Definition column (df : DataFrame) (c : string) : option Series :=
  lookup_column (columns df) c.

Definition has_column (df : DataFrame) (c : string) : bool :=
  bool_decide (is_Some (column df c)).

Definition set_column (df : DataFrame) (c : string) (s : Series) : DataFrame :=
  {| nrows := nrows df; timestamp := timestamp df;
     columns := assign_column (columns df) c s |}.

(** [df[c] = x] with a scalar [x]. *)
Definition broadcast (df : DataFrame) (x : Q) : Series := replicate (nrows df) (Some x).

(** [df.fillna(method='ffill').fillna(method='bfill')] *)
Definition fillna_ffill_bfill (df : DataFrame) : DataFrame :=
  {| nrows := nrows df; timestamp := timestamp df;
     columns := map (λ '(k, s), (k, bfill (ffill s))) (columns df) |}.

End pandas.
Import pandas.

(** ** models/ml_pipeline.py *)

Module HospitalMLPipeline.

(** Statements that may raise are sequenced with [let! x := m in k]. *)
Definition bind {A B} (m : Exception + A) (k : A → Exception + B) : Exception + B :=
  match m with
  | inl e => inl e
  | inr a => k a
  end.

Notation "'let!' x ':=' m 'in' k" := (bind m (λ x, k))
  (at level 10, x name, m at level 100, k at level 200, only parsing).

(** [max(a, b)] on floats: [b] when it is the greater, else [a]. *)
Definition py_max (a b : Q) : Q := if Qgt_bool b a then b else a.

(** A trained regressor, applied to one row of features. *)
Abbreviation Regressor := (list (option Q) → Q).

(** The attributes of [self] that prediction reads. *)
Record pipeline := {
  models : gmap string Regressor;
  feature_columns : list string;
  target_columns : list string
}.

(** [df[c]], which raises on an unknown column. *)
Definition getitem (df : DataFrame) (c : string) : Exception + Series :=
  match column df c with
  | Some s => inr s
  | None => inl (KeyError c)
  end.

(** *** [create_time_features] *)

Definition create_time_features (df : DataFrame) : Exception + DataFrame :=
  match timestamp df with
  | None => inl (KeyError "timestamp")
  | Some ts =>
      let hour : Series := map (λ t, Some (inject_Z (hour t))) ts in
      let day_of_week : Series := map (λ t, Some (inject_Z (dayofweek t))) ts in
      let df := set_column df "hour" hour in
      let df := set_column df "day_of_week" day_of_week in
      let df := set_column df "month" (map (λ t, Some (inject_Z (month t))) ts) in
      let df := set_column df "is_weekend"
                  (map (cell_test (λ d, Qle_bool (inject_Z 5) d)) day_of_week) in
      let df := set_column df "is_business_hours"
                  (map (cell_test (λ h, Qle_bool (inject_Z 9) h && Qle_bool h (inject_Z 17)))
                       hour) in
      let df := set_column df "is_night"
                  (map (cell_test (λ h, Qle_bool h (inject_Z 6) || Qle_bool (inject_Z 22) h))
                       hour) in
      inr df
  end.

Section float_sqrt.

(** The square root of the float arithmetic. *)
Variable sqrt : Q → Q.

(** *** [create_lag_features] *)

Definition lags : list nat := [1; 2; 3; 6; 12; 24]%nat.

Definition create_lag_features (df : DataFrame) (target_col : string)
  : Exception + DataFrame :=
  let! df :=
    foldl (λ acc lag,
      let! df := acc in
      let! s := getitem df target_col in
      inr (set_column df (target_col +:+ "_lag_" +:+ pretty lag) (shift lag s)))
      (inr df) lags in
  let! s := getitem df target_col in
  let df := set_column df (target_col +:+ "_roll_mean_6") (rolling_mean 6 1 s) in
  let! s := getitem df target_col in
  let df := set_column df (target_col +:+ "_roll_std_6") (rolling_std sqrt 6 1 s) in
  let! s := getitem df target_col in
  let df := set_column df (target_col +:+ "_roll_mean_24") (rolling_mean 24 1 s) in
  inr df.

(** *** [prepare_features] *)

Definition prepare_features (self : pipeline) (df : DataFrame) : Exception + DataFrame :=
  let! df := create_time_features df in
  let! df :=
    foldl (λ acc target,
      let! df := acc in
      if has_column df target then create_lag_features df target else inr df)
      (inr df) (target_columns self) in
  let! bed_occupancy := getitem df "bed_occupancy" in
  let! oxygen_level := getitem df "oxygen_level" in
  let df := set_column df "occupancy_oxygen_ratio"
              (zip_with cell_div bed_occupancy
                 (map (fmap (λ x, x + inject_Z 1)%Q) oxygen_level)) in
  let! admissions := getitem df "admissions" in
  let df := set_column df "admission_rate_trend" (rolling_mean 6 1 admissions) in
  let! discharges := getitem df "discharges" in
  let df := set_column df "discharge_rate_trend" (rolling_mean 6 1 discharges) in
  inr (fillna_ffill_bfill df).

(** *** [predict_resources] *)

(** A single data point: the timestamp and the numeric fields of the dict
    ([False] and [True] as 0 and 1). *)
Record state_dict := {
  dict_timestamp : option Timestamp;
  dict_items : list (string * Q)
}.

Inductive current_data :=
  | Dict (d : state_dict)
  | Frame (df : DataFrame).

(** [pd.DataFrame([current_data])] *)
Definition DataFrame_of_dict (d : state_dict) : DataFrame :=
  {| nrows := 1;
     timestamp := (λ t, [t]) <$> dict_timestamp d;
     columns := foldl (λ cols '(k, v), assign_column cols k [Some v]) [] (dict_items d) |}.

Definition required_columns : list string :=
  ["total_beds"; "consumption_rate"; "refill_event"; "max_capacity";
   "bed_stress"; "oxygen_stress"].

Definition default_column (df : DataFrame) (col : string) : Series :=
  if String.eqb col "total_beds" then broadcast df (inject_Z 250)
  else if String.eqb col "max_capacity" then broadcast df (inject_Z 2500)
  else if String.eqb col "consumption_rate" then broadcast df (inject_Z 15)
  else if String.eqb col "refill_event" then broadcast df (inject_Z 0)
  else if String.eqb col "bed_stress" then
    match column df "occupancy_rate" with
    | Some s => map (cell_test (λ x, Qgt_bool x (inject_Z 85))) s
    | None => broadcast df (inject_Z 0)
    end
  else if String.eqb col "oxygen_stress" then
    match column df "oxygen_level" with
    | Some s => map (cell_test (λ x, Qlt_bool x (inject_Z 800))) s
    | None => broadcast df (inject_Z 0)
    end
  else broadcast df (inject_Z 0).

(** The frame the rest of [predict_resources] works on. *)
Definition input_frame (data : current_data) : DataFrame :=
  match data with
  | Dict d =>
      foldl (λ df col,
        if has_column df col then df else set_column df col (default_column df col))
        (DataFrame_of_dict d) required_columns
  | Frame df => df
  end.

(** [s.iloc[-1]] *)
Definition iloc_last (s : Series) : Exception + option Q :=
  match last s with
  | Some c => inr c
  | None => inl IndexError
  end.

(** [df_features[self.feature_columns].iloc[-1:]]: the rows of the slice. *)
Definition latest_rows (df : DataFrame) (cols : list string)
  : Exception + list (list (option Q)) :=
  let! selected :=
    foldr (λ c acc, let! s := getitem df c in let! rest := acc in inr (s :: rest))
      (inr []) cols in
  inr (if (nrows df =? 0)%nat then []
       else [map (λ s, default None (last s)) selected]).

(** [f'{horizon}h'] and [f'{target_col}_next_{horizon}h'] *)
Definition horizon_label (horizon : Z) : string := pretty horizon +:+ "h".
Definition model_name (target_col : string) (horizon : Z) : string :=
  target_col +:+ "_next_" +:+ pretty horizon +:+ "h".

(** The body of the two loops: the forecast of one resource at one horizon. *)
Definition forecast (self : pipeline) (df : DataFrame) (X : list (list (option Q)))
    (target_col : string) (horizon : Z) : Exception + option Q :=
  match models self !! model_name target_col horizon with
  | Some model =>
      match map model X with
      | pred :: _ => inr (Some (py_max (inject_Z 0) pred))
      | [] => inl IndexError
      end
  | None =>
      if has_column df target_col
      then (let! s := getitem df target_col in iloc_last s)
      else inr (Some (inject_Z 0))
  end.

Definition predict_resources (self : pipeline) (data : current_data) (horizons : list Z)
  : Exception + gmap string (gmap string (option Q)) :=
  let df := input_frame data in
  let! df_features := prepare_features self df in
  let missing_features :=
    filter (λ col, ¬ has_column df_features col) (feature_columns self) in
  let df_features :=
    foldl (λ d col, set_column d col (broadcast d (inject_Z 0))) df_features missing_features in
  let! X := latest_rows df_features (feature_columns self) in
  foldl (λ acc target_col,
    let! predictions := acc in
    foldl (λ acc horizon,
      let! predictions := acc in
      let! prediction := forecast self df X target_col horizon in
      inr (StaffOptimizer.set_item2 predictions target_col (horizon_label horizon) prediction))
      (inr (<[target_col := ∅]> predictions)) horizons)
    (inr ∅) (target_columns self).

End float_sqrt.

(** *** The data point of the module's [__main__] *)

Definition main_current_state : state_dict :=
  {| dict_timestamp := Some {| hour := 10; dayofweek := 2; month := 11 |};
     dict_items := [("admissions", inject_Z 8); ("discharges", inject_Z 6);
                    ("bed_occupancy", inject_Z 180); ("oxygen_level", inject_Z 1200);
                    ("occupancy_rate", inject_Z 72)] |}.

Definition default_targets : list string := ["admissions"; "bed_occupancy"; "oxygen_level"].

(** The data point that the API layer (backend/main.py, [predict_resources])
    builds from a request. *)
Definition api_request (ts : Timestamp) (admissions discharges bed_occupancy : Z)
    (oxygen_level occupancy_rate : Q) : state_dict :=
  {| dict_timestamp := Some ts;
     dict_items := [("admissions", inject_Z admissions); ("discharges", inject_Z discharges);
                    ("bed_occupancy", inject_Z bed_occupancy);
                    ("oxygen_level", oxygen_level); ("occupancy_rate", occupancy_rate)] |}.

(** *** Values to run the model with *)

(** A square root to compute with: the integer square root of the floor. *)
Definition isqrt (x : Q) : Q := inject_Z (Z.sqrt (Qfloor x)).

(** Three hourly rows of admissions. *)
Definition three_rows : DataFrame :=
  {| nrows := 3;
     timestamp := Some [ {| hour := 8; dayofweek := 2; month := 11 |};
                         {| hour := 9; dayofweek := 2; month := 11 |};
                         {| hour := 10; dayofweek := 2; month := 11 |} ];
     columns := [("admissions", [Some (inject_Z 8); Some (inject_Z 9); Some (inject_Z 7)])] |}.

(** A data point with a negative admissions count: the request type of the
    API takes any integer. *)
Definition negative_state : state_dict :=
  {| dict_timestamp := Some {| hour := 10; dayofweek := 2; month := 11 |};
     dict_items := [("admissions", inject_Z (-2)); ("discharges", inject_Z 6);
                    ("bed_occupancy", inject_Z 180); ("oxygen_level", inject_Z 1200);
                    ("occupancy_rate", inject_Z 72)] |}.

(** A registry that holds one model, for admissions at one hour, whose raw
    output is negative. *)
Definition one_model : pipeline :=
  {| models := {[ "admissions_next_1h" := (λ _, (-3 # 2)%Q) ]};
     feature_columns := ["hour"; "admissions_lag_1"; "admissions_roll_mean_6"];
     target_columns := default_targets |}.

(** The dict a call returns, and whether it returned. *)
Definition returned {A} `{Empty A} (r : Exception + A) : A :=
  match r with
  | inr a => a
  | inl _ => ∅
  end.

Definition returns {A} (r : Exception + A) : bool :=
  match r with
  | inr _ => true
  | inl _ => false
  end.

Definition main_forecast : gmap string (gmap string (option Q)) :=
  returned (predict_resources isqrt one_model (Dict main_current_state) [1; 2]).

Definition negative_forecast : gmap string (gmap string (option Q)) :=
  returned (predict_resources isqrt one_model (Dict negative_state) [1; 2]).

End HospitalMLPipeline.

(** ** Vocabulary of the properties *)

Module Spec.
Import StaffOptimizer HospitalMLPipeline.

(** The count an allocation holds for a (category, shift) pair, if any. *)
Definition count_at (allocation : gmap string (gmap string Z)) (staff_type shift : string)
  : option Z :=
  allocation !! staff_type ≫= (.!! shift).

(** The sum over all (category, shift) pairs of count times rate. *)
Definition table_cost (allocation : gmap string (gmap string Z)) : Z :=
  foldr Z.add 0
    (map (λ '(staff_type, shift),
            default 0 (count_at allocation staff_type shift)
            * item2 base_costs staff_type shift)
         (list_prod staff_types shifts)).

(** The stability band: max(2, floor(0.3 * current count)). *)
Definition stability_band (current_count : Z) : Z :=
  Z.max 2 (Qfloor ((3 # 10) * inject_Z current_count)).

(** Nurse-to-patient ratios and the nurse minimum of a shift. *)
Definition nurse_ratio (shift : string) : Z :=
  if decide (shift = "Morning") then 6
  else if decide (shift = "Evening") then 8
  else 12.

Definition nurse_minimum (bed_occupancy : Q) (shift : string) : Z :=
  Z.max 3 (Qfloor (bed_occupancy / inject_Z (nurse_ratio shift))).

(** The adjustment of the heuristic: its admissions term and its occupancy
    term. A key absent from the predicted demand triggers nothing. *)
Definition admissions_term (predicted_demand : gmap string Q) (shift : string) : Z :=
  match predicted_demand !! "admissions" with
  | Some admissions =>
      if Qlt_le_dec (inject_Z 10) admissions then
        (if decide (shift = "Night") then 1 else 2)
      else if Qlt_le_dec admissions (inject_Z 5) then -1
      else 0
  | None => 0
  end.

Definition occupancy_term (predicted_demand : gmap string Q) : Z :=
  match predicted_demand !! "bed_occupancy" with
  | Some bed_occupancy => if Qlt_le_dec (inject_Z 200) bed_occupancy then 1 else 0
  | None => 0
  end.

Definition adjustment (predicted_demand : gmap string Q) (shift : string) : Z :=
  admissions_term predicted_demand shift + occupancy_term predicted_demand.

(** The conventional statistics, in the words of the specification: the
    values that are not NaN among the trailing min(w, t+1) rows that end at
    row [t]; their mean; and the sum of their squared deviations from that
    mean, which the sample standard deviation divides by n - 1. *)
Definition observed_trailing (w : nat) (s : Series) (t : nat) : list Q :=
  omap (λ i, mjoin (s !! i)) (seq (S t - w) (min w (S t))).

Definition average (xs : list Q) : Q :=
  (foldr Qplus (inject_Z 0) xs / inject_Z (Z.of_nat (length xs)))%Q.

Definition squared_deviations (xs : list Q) : Q :=
  foldr Qplus (inject_Z 0) (map (λ x, (x - average xs) * (x - average xs))%Q xs).

(** The conventional statistics of row [t] over a window of [w] rows: the
    mean, which needs one value, and the sample standard deviation, which
    needs two. *)
Definition trailing_mean (w : nat) (s : Series) (t : nat) : option Q :=
  match observed_trailing w s t with
  | [] => None
  | obs => Some (average obs)
  end.

Definition trailing_std (sqrt : Q → Q) (w : nat) (s : Series) (t : nat) : option Q :=
  match observed_trailing w s t with
  | [] | [_] => None
  | obs => Some (sqrt (squared_deviations obs / inject_Z (Z.of_nat (length obs) - 1))%Q)
  end.

(** A column of [n] rows made from a statistic that some rows lack: a row
    that has the statistic holds it; a later row that lacks it repeats the
    row before; the rows before the first row that has it hold the value of
    that row; and when no row has it the column is NaN throughout. *)
Definition filled_statistic (stat : nat → option Q) (n : nat) (col : Series) : Prop :=
  length col = n
  ∧ (∀ t x, (t < n)%nat → stat t = Some x → col !! t = Some (Some x))
  ∧ (∀ t, (S t < n)%nat → stat (S t) = None → col !! S t = col !! t)
  ∧ (∀ t x, (t < n)%nat → stat t = Some x → (∀ i, (i < t)%nat → stat i = None) →
       ∀ i, (i ≤ t)%nat → col !! i = Some (Some x))
  ∧ ((∀ t, (t < n)%nat → stat t = None) → ∀ t, (t < n)%nat → col !! t = Some None).

(** The three rolling statistics of a resource at row [t] of a feature
    frame: 6-step mean, 24-step mean, 6-step standard deviation. *)
Definition rolling_row (df : DataFrame) (target_col : string) (t : nat)
  : option (option Q) * option (option Q) * option (option Q) :=
  (column df (target_col +:+ "_roll_mean_6") ≫= (.!! t),
   column df (target_col +:+ "_roll_mean_24") ≫= (.!! t),
   column df (target_col +:+ "_roll_std_6") ≫= (.!! t)).

(** A forecast value that is a number and not below zero. *)
Definition nonneg (v : option Q) : Prop :=
  match v with
  | Some x => (inject_Z 0 <= x)%Q
  | None => False
  end.

(** The forecast a prediction holds for a (resource, horizon) pair, if any. *)
Definition forecast_at (predictions : gmap string (gmap string (option Q)))
    (target_col : string) (horizon : Z) : option (option Q) :=
  predictions !! target_col ≫= (.!! horizon_label horizon).

(** The latest observed value of a resource in the input data. *)
Definition latest_observed (data : current_data) (target_col : string) : option (option Q) :=
  column (input_frame data) target_col ≫= last.

(** Input with the required fields: a timestamp, the four raw columns that
    feature preparation reads, at least one row, and full columns. *)
Definition well_formed (df : DataFrame) : Prop :=
  nrows df ≠ 0%nat
  ∧ is_Some (timestamp df)
  ∧ Forall (λ c, is_Some (column df c))
      ["admissions"; "discharges"; "bed_occupancy"; "oxygen_level"]
  ∧ Forall (λ '(_, s), length s = nrows df) (columns df).

(** [df'] is [df] with further columns set: same rows, no column lost. *)
Definition grows (df df' : DataFrame) : Prop :=
  nrows df' = nrows df
  ∧ timestamp df' = timestamp df
  ∧ ∀ c, is_Some (column df c) → is_Some (column df' c).

(** [q] is [p] with further constraints added. *)
Definition extends (p q : LpProblem) : Prop :=
  objective q = objective p ∧ ∃ more, pulp.constraints q = pulp.constraints p ++ more.

End Spec.
Import StaffOptimizer HospitalMLPipeline Spec.

(** ** Further vocabulary: the optimizer *)

(** The head count of an allocation over all (category, shift) pairs. *)
Definition table_staff (allocation : gmap string (gmap string Z)) : Z :=
  foldr Z.add 0
    (map (λ '(staff_type, shift), default 0 (count_at allocation staff_type shift))
         (list_prod staff_types shifts)).

(** [sum(sum(shifts.values()) for shifts in current_staff.values())] *)
Definition total_current (current_staff : gmap string (gmap string Z)) : Z :=
  dict_sum (λ _ row, dict_sum (λ _ n, n) row) current_staff.

(** Predicted admissions plus predicted bed occupancy as the code sums them,
    an absent key counting as 0: a float sum from 0 on, each addition rounded
    as float addition rounds. *)
Definition total_activity (predicted_demand : gmap string Q) : Q :=
  float_add
    (float_add (inject_Z 0) (default (inject_Z 0) (predicted_demand !! "admissions")))
    (default (inject_Z 0) (predicted_demand !! "bed_occupancy")).

(** A busier forecast for the ward of [ward_current_staff], and what
    [optimize_allocation] returns for it when the solver is [corner_solver]. *)
Definition busy_predicted_demand : gmap string Q :=
  {[ "admissions" := inject_Z 14; "bed_occupancy" := inject_Z 190 ]}.

Definition busy_problem : LpProblem :=
  assemble ward_current_staff busy_predicted_demand main_constraints.

Definition busy_result : result :=
  {| sol := _extract_solution staff_vars busy_problem LpStatusOptimal
              (lower_corner busy_problem);
     status := "optimal" |}.

(** The allocation that the two loops over the fixed sets fill with the count
    [f staff_type shift], and the sum of a quantity over the shifts and over
    the staff types. *)
Definition filled (f : string → string → Z) : gmap string (gmap string Z) :=
  foldl (λ a k1, foldl (λ a k2, set_item2 a k1 k2 (f k1 k2)) (<[k1 := ∅]> a) shifts)
    ∅ staff_types.

Definition over_shifts (g : string → Z) : Z := foldr Z.add 0 (map g shifts).
Definition over_staff_types (g : string → Z) : Z := foldr Z.add 0 (map g staff_types).

(** ** optimization/staff_optimizer.py: [generate_recommendations] *)

(** [d[k1][k2]], which raises on a key that is absent. *)
Definition getitem2 {V} (d : gmap string (gmap string V)) (k1 k2 : string) : Exception + V :=
  match d !! k1 with
  | None => inl (KeyError k1)
  | Some row =>
      match row !! k2 with
      | None => inl (KeyError k2)
      | Some v => inr v
      end
  end.

(** The body of the two loops: the line, if any, that one pair adds. *)
Definition recommendation (staff_type shift : string) (current optimized : Z) : list string :=
  if current <? optimized then
    ["Increase " +:+ staff_type +:+ " for " +:+ shift +:+ " shift: " +:+ pretty current
     +:+ " → " +:+ pretty optimized +:+ " (+" +:+ pretty (optimized - current) +:+ ")"]
  else if optimized <? current then
    ["Decrease " +:+ staff_type +:+ " for " +:+ shift +:+ " shift: " +:+ pretty current
     +:+ " → " +:+ pretty optimized +:+ " (" +:+ pretty (optimized - current) +:+ ")"]
  else [].

Definition generate_recommendations
    (current_allocation optimized_allocation : gmap string (gmap string Z))
  : Exception + list string :=
  let! recommendations :=
    foldl (λ acc staff_type,
      foldl (λ acc shift,
        let! recommendations := acc in
        let current := get2 current_allocation staff_type shift 0 in
        let! optimized := getitem2 optimized_allocation staff_type shift in
        inr (recommendations ++ recommendation staff_type shift current optimized))
        acc shifts)
      (inr []) staff_types in
  inr (match recommendations with
       | [] => ["Current staff allocation is optimal"]
       | _ => recommendations
       end).

(** The pairs of the fixed sets on which two allocations differ, a pair
    absent from the current one counting as 0. *)
Definition changed_pairs (current_allocation optimized_allocation : gmap string (gmap string Z))
  : list (string * string) :=
  filter (λ '(staff_type, shift),
            default 0 (count_at current_allocation staff_type shift)
            ≠ default 0 (count_at optimized_allocation staff_type shift))
         (list_prod staff_types shifts).

(** ** Further vocabulary: the pipeline *)

(** Three hourly rows of a calm ward, and the same ward with a surge of
    admissions in the second hour. *)
Definition ward_rows (admissions : list Z) : DataFrame :=
  {| nrows := 3;
     timestamp := Some [ {| hour := 8; dayofweek := 2; month := 11 |};
                         {| hour := 9; dayofweek := 2; month := 11 |};
                         {| hour := 10; dayofweek := 2; month := 11 |} ];
     columns := [("admissions", map (λ n, Some (inject_Z n)) admissions);
                 ("discharges", [Some (inject_Z 6); Some (inject_Z 5); Some (inject_Z 7)]);
                 ("bed_occupancy",
                  [Some (inject_Z 180); Some (inject_Z 184); Some (inject_Z 184)]);
                 ("oxygen_level",
                  [Some (inject_Z 1200); Some (inject_Z 1180); Some (inject_Z 1165)])] |}.

Definition calm_rows : DataFrame := ward_rows [8; 9; 7].
Definition surge_rows : DataFrame := ward_rows [8; 108; 7].

(** The frames that [prepare_features] returns for them. *)
Definition calm_features : DataFrame :=
  Eval vm_compute in
    match prepare_features isqrt one_model calm_rows with
    | inr df => df
    | inl _ => calm_rows
    end.

Definition surge_features : DataFrame :=
  Eval vm_compute in
    match prepare_features isqrt one_model surge_rows with
    | inr df => df
    | inl _ => surge_rows
    end.

(** ** data/synthetic_data_generator.py *)

Module HospitalDataGenerator.

(** [min(a, b)] on floats: [b] when it is the smaller, else [a]. *)
Definition py_min (a b : Q) : Q := if Qlt_bool b a then b else a.

(** A row of the frame of [generate_admissions_discharges], as far as
    [generate_bed_occupancy] reads it: two counts. *)
Record flow := { admissions : Z; discharges : Z }.

(** The columns of a frame. [pd.DataFrame] takes columns of one length, the
    length of its timestamps, and raises otherwise: a call that raises has no
    frame. *)
Record bed_frame := {
  bed_occupancy : list Z;
  occupancy_rate : list Q;
  total_beds : Z
}.

(** *** [generate_bed_occupancy] *)

Definition generate_bed_occupancy (admissions_data : list flow) : option bed_frame :=
  let initial_occupancy := 150 in
  let total_beds := 250 in
  let occupancy :=
    foldl (λ occupancy row,
      let prev_occupancy := default 0 (last occupancy) in
      let new_occupancy := prev_occupancy + admissions row - discharges row in
      let new_occupancy := Z.max 50 (Z.min (total_beds - 10) new_occupancy) in
      occupancy ++ [new_occupancy])
      [initial_occupancy] (drop 1 admissions_data) in
  let occupancy_rate :=
    map (λ occ, (inject_Z occ / inject_Z total_beds) * inject_Z 100)%Q occupancy in
  if (length occupancy =? length admissions_data)%nat
  then Some {| bed_occupancy := occupancy; occupancy_rate := occupancy_rate;
               total_beds := total_beds |}
  else None.

Section random.

(** The state of numpy's generator, and the draws that the module makes:
    [np.random.normal(loc, scale)], [np.random.random()],
    [np.random.randint(low, high)] and [np.random.binomial(n, p)]. *)
Variable rng : Type.
Variable normal : Q → Q → rng → Q * rng.
Variable random : rng → Q * rng.
Variable randint : Z → Z → rng → Z * rng.
Variable binomial : Z → Q → rng → Z * rng.

(** *** [generate_oxygen_levels] *)

Record oxygen_loop := {
  levels : list Q;
  consumption_rates : list Q;
  refill_events : list bool;
  oxygen_rng : rng
}.

Record oxygen_frame := {
  oxygen_level : list Q;
  consumption_rate : list Q;
  refill_event : list bool;
  max_capacity : Q
}.

(** One round of the loop, at a row whose timestamp has the given hour. *)
Definition oxygen_step (max_capacity : Q) (acc : oxygen_loop) (hour : Z) : oxygen_loop :=
  let prev_level := default (inject_Z 0) (last (levels acc)) in
  let base_consumption := inject_Z 15 in
  let '(consumption, g) :=
    if (6 <=? hour) && (hour <=? 22)
    then normal (base_consumption * (14 # 10))%Q (inject_Z 3) (oxygen_rng acc)
    else normal (base_consumption * (8 # 10))%Q (inject_Z 2) (oxygen_rng acc) in
  let consumption := HospitalMLPipeline.py_max (inject_Z 5) consumption in
  let new_level := (prev_level - consumption)%Q in
  let '(new_level, refilled, g) :=
    if Qlt_bool new_level (inject_Z 500) then (max_capacity, true, g)
    else if Qlt_bool new_level (inject_Z 1000) then
      let '(u, g) := random g in
      if Qlt_bool u (3 # 10) then (max_capacity, true, g) else (new_level, false, g)
    else (new_level, false, g) in
  {| levels := levels acc ++ [new_level];
     consumption_rates := consumption_rates acc ++ [consumption];
     refill_events := refill_events acc ++ [refilled];
     oxygen_rng := g |}.

(** [date_range]: the hours of [periods] hourly timestamps from a start
    whose hour is [base_hour]. *)
Definition hourly_range (base_hour : Z) (periods : nat) : list Z :=
  map (λ i, (base_hour + Z.of_nat i) mod 24) (seq 0 periods).

Definition generate_oxygen_levels (base_hour : Z) (days : nat) (g : rng)
  : option oxygen_frame * rng :=
  let date_range := hourly_range base_hour (days * 24) in
  let initial_level := inject_Z 2000 in
  let max_capacity := inject_Z 2500 in
  let acc :=
    foldl (oxygen_step max_capacity)
      {| levels := [initial_level]; consumption_rates := []; refill_events := [];
         oxygen_rng := g |}
      (drop 1 date_range) in
  let oxygen_level := levels acc in
  let consumption_rate := inject_Z 0 :: consumption_rates acc in
  let refill_event := false :: refill_events acc in
  (if (length oxygen_level =? length date_range)%nat
      && (length consumption_rate =? length date_range)%nat
      && (length refill_event =? length date_range)%nat
   then Some {| oxygen_level := oxygen_level; consumption_rate := consumption_rate;
                refill_event := refill_event; max_capacity := max_capacity |}
   else None,
   oxygen_rng acc).

(** *** [generate_staff_schedules] *)

Record staff_row := {
  date : nat;
  staff_type : string;
  shift : string;
  scheduled_count : Z;
  present_count : Z;
  utilization_rate : Q
}.

Definition staff_types : list string := ["Nurses"; "Doctors"; "Support_Staff"].
Definition shift_types : list string := ["Morning"; "Evening"; "Night"].

Definition base_count (staff_type shift : string) : Z :=
  if String.eqb staff_type "Nurses" then
    ({[ "Morning" := 25; "Evening" := 20; "Night" := 15 ]} : gmap string Z) !!! shift
  else if String.eqb staff_type "Doctors" then
    ({[ "Morning" := 15; "Evening" := 12; "Night" := 8 ]} : gmap string Z) !!! shift
  else
    ({[ "Morning" := 10; "Evening" := 8; "Night" := 5 ]} : gmap string Z) !!! shift.

(** The body of the three loops: the row of one date, staff type and shift. *)
Definition staff_schedule_row (weekday : Z) (date : nat) (staff_type shift : string) (g : rng)
  : staff_row * rng :=
  let base_count := base_count staff_type shift in
  let '(variation, g) := randint (-2) 3 g in
  let variation := if 5 <=? weekday then variation - 2 else variation in
  let scheduled := Z.max 1 (base_count + variation) in
  let '(absent, g) := binomial scheduled (5 # 100) g in
  let present := scheduled - Z.max 0 absent in
  ({| date := date; staff_type := staff_type; shift := shift;
      scheduled_count := scheduled; present_count := present;
      utilization_rate :=
        py_min (inject_Z 100) ((inject_Z present / inject_Z scheduled) * inject_Z 100)%Q |},
   g).

(** The dates are [days] daily timestamps from a start whose weekday is
    [base_weekday]. *)
Definition generate_staff_schedules (base_weekday : Z) (days : nat) (g : rng)
  : list staff_row * rng :=
  foldl (λ acc date,
    foldl (λ acc staff_type,
      foldl (λ '(staff_data, g) shift,
        let '(row, g) :=
          staff_schedule_row ((base_weekday + Z.of_nat date) mod 7) date staff_type shift g in
        (staff_data ++ [row], g))
        acc shift_types)
      acc staff_types)
    ([], g) (seq 0 days).

End random.

End HospitalDataGenerator.

(** ** models/ml_pipeline.py: training and persistence *)

(** [s.shift(periods)] for any integer: a negative [periods] moves the
    values towards the first row and leaves NaN in the last rows. *)
Definition shift_by (periods : Z) (s : Series) : Series :=
  if 0 <=? periods then shift (Z.to_nat periods) s
  else drop (Z.to_nat (- periods)) s
       ++ replicate (Nat.min (Z.to_nat (- periods)) (length s)) None.

(** [df[cols]] row by row. *)
Definition frame_rows (df : DataFrame) (cols : list string) : list (list (option Q)) :=
  map (λ i, map (λ c, default None (column df c ≫= (.!! i))) cols) (seq 0 (nrows df)).

(** [X[mask]]: the rows at which the target is not NaN. *)
Definition masked {A} (rows : list A) (y : Series) : list A :=
  omap (λ '(row, cell), if cell is Some _ then Some row else None) (zip rows y).

(** *** [create_prediction_targets] *)

(** The dict of targets, in the order of insertion; a name that is set twice
    keeps its place and gets the later value. *)
Definition create_prediction_targets (self : pipeline) (df : DataFrame) (horizons : list Z)
  : list (string * Series) :=
  foldl (λ targets target_col,
    match column df target_col with
    | Some s =>
        foldl (λ targets horizon,
          let target_name := model_name target_col horizon in
          assign_column targets target_name (shift_by (- horizon) s))
          targets horizons
    | None => targets
    end)
    [] (target_columns self).

Section train_models.

Variable sqrt : Q → Q.

(** [xgb.XGBRegressor(...).fit(X_train, y_train)], with the settings and the
    seed of the source: the regressor that training gives for the data. *)
Variable fit : list (list (option Q)) → list Q → Regressor.

(** *** [train_models] *)

(** One round of the loop over the targets. The evaluation on the test rows
    only prints, and is left out. The split is the one of
    [train_test_split(test_size=0.2, shuffle=False)]: the last
    [ceil(0.2 * n)] rows are test rows. *)
Definition train_one (df_features : DataFrame) (self : pipeline)
    (target : string * Series) : pipeline :=
  let '(target_name, target_values) := target in
  let X := frame_rows df_features (feature_columns self) in
  let y := target_values in
  let X_clean := masked X y in
  let y_clean := observations y in
  if (length y_clean <? 50)%nat then self
  else
    let n_test := Z.to_nat (Qceiling ((2 # 10) * inject_Z (Z.of_nat (length y_clean)))) in
    let n_train := (length y_clean - n_test)%nat in
    let model := fit (take n_train X_clean) (take n_train y_clean) in
    {| models := <[target_name := model]> (models self);
       feature_columns := feature_columns self;
       target_columns := target_columns self |}.

Definition train_models (self : pipeline) (df : DataFrame) (horizons : list Z)
  : Exception + pipeline :=
  let! df_features := prepare_features sqrt self df in
  let exclude_cols := "timestamp" :: target_columns self in
  let self :=
    {| models := models self;
       feature_columns :=
         filter (λ col, col ∉ exclude_cols) (map fst (columns df_features));
       target_columns := target_columns self |} in
  let targets := create_prediction_targets self df_features horizons in
  inr (foldl (train_one df_features) self targets).

End train_models.

(** *** [save_models], [load_models] *)

(** What [joblib.dump] writes: a model, or the dict of metadata (its
    wall-clock ['trained_at'] is left out). [joblib.load] gives back what was
    written. *)
Record metadata := {
  md_feature_columns : list string;
  md_target_columns : list string;
  md_model_names : list string
}.

Inductive artifact :=
  | model_file (model : Regressor)
  | metadata_file (md : metadata).

(** The files, by path. *)
Abbreviation filesystem := (gmap string artifact).

Definition model_path (model_dir model_name : string) : string :=
  model_dir +:+ "/" +:+ model_name +:+ ".joblib".

Definition metadata_path (model_dir : string) : string :=
  model_dir +:+ "/metadata.joblib".

Definition save_models (self : pipeline) (model_dir : string) (fs : filesystem)
  : filesystem :=
  let fs :=
    map_fold (λ model_name model fs, <[model_path model_dir model_name := model_file model]> fs)
      fs (models self) in
  let metadata :=
    {| md_feature_columns := feature_columns self;
       md_target_columns := target_columns self;
       md_model_names := (map_to_list (models self)).*1 |} in
  <[metadata_path model_dir := metadata_file metadata]> fs.

(** What a call of [load_models] leaves: the flag it returns and the
    pipeline. A path that holds no model where one is expected would put the
    metadata dict among the models, which [pipeline] cannot hold: that outcome
    is [None]. *)
Definition load_models (self : pipeline) (model_dir : string) (fs : filesystem)
  : option (bool * pipeline) :=
  match fs !! metadata_path model_dir with
  | Some (metadata_file metadata) =>
      let self :=
        {| models := models self;
           feature_columns := md_feature_columns metadata;
           target_columns := md_target_columns metadata |} in
      (λ self, (true, self)) <$>
        foldl (λ acc model_name,
          self ← acc;
          match fs !! model_path model_dir model_name with
          | None => Some self
          | Some (model_file model) =>
              Some {| models := <[model_name := model]> (models self);
                      feature_columns := feature_columns self;
                      target_columns := target_columns self |}
          | Some (metadata_file _) => None
          end)
          (Some self) (md_model_names metadata)
  | Some (model_file _) | None =>
      (* joblib.load or metadata['feature_columns'] raises: except, return False *)
      Some (false, self)
  end.

(** ** backend/main.py *)

Module api.

(** The request and response models. *)
Record HospitalState := {
  timestamp : string;
  admissions : Z;
  discharges : Z;
  bed_occupancy : Z;
  oxygen_level : Q;
  occupancy_rate : Q
}.

Record PredictionRequest := {
  current_state : HospitalState;
  horizons : option (list Z)
}.

Record ResourcePrediction := {
  resource : string;
  predictions : gmap string (option Q);
  confidence : Q
}.

Record OptimizationRequest := {
  current_staff : gmap string (gmap string Z);
  predicted_demand : gmap string Q;
  constraints : option (gmap string Q)
}.

(** What a handler answers: a body, or an [HTTPException] with its status
    code (the detail text is left out). *)
Inductive response (A : Type) :=
  | OK (body : A)
  | HTTPException (status_code : Z).
Arguments OK {A} body.
Arguments HTTPException {A} status_code.

(** What can be raised inside the [try] of a handler. *)
Inductive raised :=
  | Raised_by_pipeline (e : Exception)
  | Raised_HTTPException (status_code : Z)
  | ValueError
  | TypeError.

(** The keys of a dict in the order of their first insertion. *)
Fixpoint keys_in_order (seen keys : list string) : list string :=
  match keys with
  | [] => []
  | k :: keys' =>
      if bool_decide (k ∈ seen) then keys_in_order seen keys'
      else k :: keys_in_order (k :: seen) keys'
  end.

(** The body of a prediction: the wall-clock ["timestamp"] is left out. *)
Record prediction_body := {
  body_predictions : list ResourcePrediction;
  horizons_hours : option (list Z)
}.

(** *** POST /predict-resources *)

Section predict_resources.

Variable sqrt : Q → Q.

(** [pd.Timestamp(text)], which raises on text that is no timestamp. *)
Variable Timestamp_of_string : string → option Timestamp.

(** [ml_pipeline.predict_resources(current_data, horizons=request.horizons)]:
    [horizons] is [None] when the request gives null, and the inner loop of
    the pipeline then raises at the first target resource. *)
Definition call_pipeline (self : pipeline) (current_data : state_dict)
    (horizons : option (list Z)) : raised + gmap string (gmap string (option Q)) :=
  match horizons with
  | Some horizons =>
      match HospitalMLPipeline.predict_resources sqrt self (Dict current_data) horizons with
      | inl e => inl (Raised_by_pipeline e)
      | inr predictions => inr predictions
      end
  | None =>
      match HospitalMLPipeline.predict_resources sqrt self (Dict current_data) [] with
      | inl e => inl (Raised_by_pipeline e)
      | inr predictions =>
          match target_columns self with
          | [] => inr predictions
          | _ :: _ => inl TypeError
          end
      end
  end.

Definition predict_resources (ml_pipeline : option pipeline) (request : PredictionRequest)
  : response prediction_body :=
  let attempt : raised + prediction_body :=
    match ml_pipeline with
    | None => inl (Raised_HTTPException 503)
    | Some self =>
        if bool_decide (size (models self) = 0%nat) then inl (Raised_HTTPException 503)
        else
          match Timestamp_of_string (timestamp (current_state request)) with
          | None => inl ValueError
          | Some ts =>
              let current_data :=
                api_request ts (admissions (current_state request))
                  (discharges (current_state request))
                  (bed_occupancy (current_state request))
                  (oxygen_level (current_state request))
                  (occupancy_rate (current_state request)) in
              match call_pipeline self current_data (horizons request) with
              | inl e => inl e
              | inr predictions =>
                  let response :=
                    omap (λ resource,
                      (λ horizon_preds,
                         {| resource := resource; predictions := horizon_preds;
                            confidence := 85 # 100 |})
                      <$> predictions !! resource)
                      (keys_in_order [] (target_columns self)) in
                  inr {| body_predictions := response;
                         horizons_hours := horizons request |}
              end
          end
    end in
  (* except Exception as e: raise HTTPException(status_code=500, ...) *)
  match attempt with
  | inr body => OK body
  | inl _ => HTTPException 500
  end.

End predict_resources.

(** *** POST /optimize-staff *)

(** What ["optimization_result"] holds: the optimizer's result, or the
    handler's own heuristic. *)
Inductive optimization_result :=
  | optimizer_result (r : StaffOptimizer.result)
  | heuristic_result (optimized_allocation : gmap string (gmap string Z))
      (cost_reduction efficiency_improvement : Q) (method : string).

Record optimization_body := {
  body_result : optimization_result;
  body_status : string
}.

(** The body of the handler's two loops: the count of one shift. *)
Definition heuristic_count (predicted_demand : gmap string Q) (shift : string)
    (current_count : Z) : Z :=
  let adjustment := 0 in
  let adjustment :=
    match predicted_demand !! "admissions" with
    | Some admissions =>
        if Qgt_bool admissions (inject_Z 10) then
          if String.eqb shift "Morning" then 2 else 1
        else if Qlt_bool admissions (inject_Z 5) then -1
        else adjustment
    | None => adjustment
    end in
  Z.max 1 (current_count + adjustment).

Section optimize_staff_allocation.

Variable solve : pulp.Solver.

Definition optimize_staff_allocation (request : OptimizationRequest)
  : response optimization_body :=
  match
    StaffOptimizer.optimize_allocation solve (current_staff request)
      (predicted_demand request) (Some (default ∅ (constraints request)))
  with
  | inr result =>
      OK {| body_result := optimizer_result result; body_status := "success" |}
  | inl e =>
      let optimized_allocation : gmap string (gmap string Z) :=
        (λ shifts : gmap string Z,
           map_imap (M := gmap string) (λ shift current_count,
             Some (heuristic_count (predicted_demand request) shift current_count)) shifts)
        <$> current_staff request in
      OK {| body_result :=
              heuristic_result optimized_allocation (52 # 10) (85 # 10) "heuristic_fallback";
            body_status := "success" |}
  end.

End optimize_staff_allocation.

End api.

(** The raw columns that [prepare_features] reads, in the order in which it
    reads them. *)
Definition raw_columns : list string :=
  ["bed_occupancy"; "oxygen_level"; "admissions"; "discharges"].

(** ** Further vocabulary: training *)

(** A way of fitting to run the model with: the regressor that answers with
    the mean of the targets it was given. *)
Definition mean_fit (X : list (list (option Q))) (y : list Q) : Regressor := λ _, mean y.

(** The pipeline [one_model] after training on the single data point of the
    module's [__main__]. *)
Definition retrained : pipeline :=
  Eval vm_compute in
    match
      train_models isqrt mean_fit one_model (input_frame (Dict main_current_state)) [1; 6; 24]
    with
    | inr self => self
    | inl _ => one_model
    end.

(** Sixty hourly rows of a steady ward. *)
Definition sixty_rows : DataFrame :=
  {| nrows := 60;
     timestamp := Some (replicate 60 {| hour := 10; dayofweek := 2; month := 11 |});
     columns := [("admissions", replicate 60 (Some (inject_Z 8)));
                 ("discharges", replicate 60 (Some (inject_Z 6)));
                 ("bed_occupancy", replicate 60 (Some (inject_Z 180)));
                 ("oxygen_level", replicate 60 (Some (inject_Z 1200)))] |}.

(** ** Further vocabulary: the API layer *)

(** A request for the data point of the pipeline's [__main__], and a parser
    that reads its timestamp. *)
Definition main_request : api.PredictionRequest :=
  {| api.current_state :=
       {| api.timestamp := "2024-11-06T10:00:00"; api.admissions := 8; api.discharges := 6;
          api.bed_occupancy := 180; api.oxygen_level := inject_Z 1200;
          api.occupancy_rate := inject_Z 72 |};
     api.horizons := Some [1; 6; 24] |}.

Definition main_timestamp (text : string) : option Timestamp :=
  if String.eqb text "2024-11-06T10:00:00"
  then Some {| hour := 10; dayofweek := 2; month := 11 |}
  else None.

(** ** Further vocabulary: the data generator *)

(** What one round of the oxygen loop does to the level: at least 5 litres
    are consumed; a refill sets the level to 2500 and happens only when the
    level would fall below 1000; without a refill the level falls by the
    consumption, and not below 500. *)
Definition refill_rule (prev level consumption : Q) (refilled : bool) : Prop :=
  (inject_Z 5 <= consumption)%Q
  ∧ if refilled
    then level = inject_Z 2500 ∧ (prev - consumption < inject_Z 1000)%Q
    else level = (prev - consumption)%Q ∧ (inject_Z 500 <= prev - consumption)%Q.

(** The rows that the oxygen loop has built so far: levels within the tank's
    range, one consumption and one refill flag for each level but the first,
    and each level following from the one before it by [refill_rule]. *)
Definition oxygen_rows (levels consumption_rates : list Q) (refill_events : list bool) : Prop :=
  levels ≠ []
  ∧ Forall (λ level, (inject_Z 500 <= level)%Q ∧ (level <= inject_Z 2500)%Q) levels
  ∧ S (length consumption_rates) = length levels
  ∧ S (length refill_events) = length levels
  ∧ ∀ i prev level consumption refilled,
      levels !! i = Some prev → levels !! S i = Some level →
      consumption_rates !! i = Some consumption → refill_events !! i = Some refilled →
      refill_rule prev level consumption refilled.

(** A staff row that is consistent: somebody is scheduled, nobody more is
    present than scheduled, and the rate is at most 100. *)
Definition staff_row_consistent (row : HospitalDataGenerator.staff_row) : Prop :=
  1 ≤ HospitalDataGenerator.scheduled_count row
  ∧ HospitalDataGenerator.present_count row ≤ HospitalDataGenerator.scheduled_count row
  ∧ (HospitalDataGenerator.utilization_rate row <= inject_Z 100)%Q.

(** Draws to run the generator with: the state counts the draws; a normal
    draw is its mean, and a uniform draw alternates between 0.1 and 0.6. *)
Definition counting_normal (loc scale : Q) (g : nat) : Q * nat := (loc, S g).
Definition counting_random (g : nat) : Q * nat :=
  (if Nat.even g then 1 # 10 else 6 # 10, S g).

(** Three hours of admissions and discharges, and the frame they give. *)
Definition three_hours : list HospitalDataGenerator.flow :=
  [ {| HospitalDataGenerator.admissions := 8; HospitalDataGenerator.discharges := 6 |};
    {| HospitalDataGenerator.admissions := 12; HospitalDataGenerator.discharges := 3 |};
    {| HospitalDataGenerator.admissions := 1; HospitalDataGenerator.discharges := 9 |} ].

Definition three_hours_frame : HospitalDataGenerator.bed_frame :=
  {| HospitalDataGenerator.bed_occupancy := [150; 159; 151];
     HospitalDataGenerator.occupancy_rate :=
       map (λ occ, (inject_Z occ / inject_Z 250) * inject_Z 100)%Q [150; 159; 151];
     HospitalDataGenerator.total_beds := 250 |}.

(** The oxygen frame of one day that starts at midnight, under the
    counting draws. *)
Definition one_day_oxygen : HospitalDataGenerator.oxygen_frame :=
  Eval vm_compute in
    default
      {| HospitalDataGenerator.oxygen_level := []; HospitalDataGenerator.consumption_rate := [];
         HospitalDataGenerator.refill_event := [];
         HospitalDataGenerator.max_capacity := inject_Z 0 |}
      (fst (HospitalDataGenerator.generate_oxygen_levels nat counting_normal counting_random
              0 1 0%nat)).


(** ** Nested dicts filled by two loops *)

Section nested_dict.
Context {V : Type}.

Lemma set_item2_insert (d : gmap string (gmap string V)) k1 row k2 v :
  set_item2 (<[k1 := row]> d) k1 k2 v = <[k1 := <[k2 := v]> row]> d.
Proof.
  unfold set_item2. by rewrite lookup_total_insert_eq, insert_insert_eq.
Qed.

(** The inner loop fills one row. *)
Lemma inner_loop_row (f : string → V) (d : gmap string (gmap string V)) k1 row ks :
  foldl (λ a k2, set_item2 a k1 k2 (f k2)) (<[k1 := row]> d) ks
  = <[k1 := foldl (λ r k2, <[k2 := f k2]> r) row ks]> d.
Proof.
  revert row. induction ks as [|k ks IH]; intros row; [done|].
  cbn [foldl]. by rewrite set_item2_insert, IH.
Qed.

(** Keys written by a loop hold the loop's value; the others are untouched. *)
Lemma foldl_insert_lookup {W} (f : string → W) (ks : list string) (r : gmap string W) k :
  foldl (λ r k, <[k := f k]> r) r ks !! k
  = if decide (k ∈ ks) then Some (f k) else r !! k.
Proof.
  revert r. induction ks as [|a ks IH]; intros r; cbn [foldl].
  - by rewrite decide_False by apply not_elem_of_nil.
  - rewrite IH. destruct (decide (k ∈ ks)) as [Hin|Hin].
    + by rewrite decide_True by (by apply list_elem_of_further).
    + destruct (decide (k = a)) as [->|Hne].
      * rewrite lookup_insert_eq. by rewrite decide_True by apply list_elem_of_here.
      * rewrite lookup_insert_ne by done.
        rewrite decide_False; [done|]. rewrite elem_of_cons. tauto.
Qed.

Lemma fill_rows (f : string → string → V) (ks1 ks2 : list string)
    (d : gmap string (gmap string V)) :
  foldl (λ a k1, foldl (λ a k2, set_item2 a k1 k2 (f k1 k2)) (<[k1 := ∅]> a) ks2) d ks1
  = foldl (λ a k1, <[k1 := foldl (λ r k2, <[k2 := f k1 k2]> r) ∅ ks2]> a) d ks1.
Proof.
  revert d. induction ks1 as [|k ks1 IH]; intros d; [done|].
  cbn [foldl]. by rewrite inner_loop_row, IH.
Qed.

Lemma fill_lookup (f : string → string → V) (ks1 ks2 : list string) k1 k2 :
  k1 ∈ ks1 → k2 ∈ ks2 →
  foldl (λ a k1, foldl (λ a k2, set_item2 a k1 k2 (f k1 k2)) (<[k1 := ∅]> a) ks2) ∅ ks1
    !! k1 ≫= (.!! k2) = Some (f k1 k2).
Proof.
  intros H1 H2. rewrite fill_rows.
  rewrite (foldl_insert_lookup (λ k1, foldl (λ r k2, <[k2 := f k1 k2]> r) ∅ ks2)).
  rewrite decide_True by done. cbn.
  rewrite (foldl_insert_lookup (f k1)). by rewrite decide_True.
Qed.

End nested_dict.

(** ** Sums over dicts *)

Lemma dict_sum_insert {V} (g : string → V → Z) (d : gmap string V) k v :
  d !! k = None → dict_sum g (<[k := v]> d) = dict_sum g d + g k v.
Proof.
  intros Hk. unfold dict_sum. rewrite map_fold_insert_L; [done| |done].
  intros. lia.
Qed.

Lemma dict_sum_empty {V} (g : string → V → Z) : dict_sum g ∅ = 0.
Proof. apply map_fold_empty. Qed.

Lemma dict_sum_foldl_insert {V} (g : string → V → Z) (f : string → V) ks (r : gmap string V) :
  NoDup ks → (∀ k, k ∈ ks → r !! k = None) →
  dict_sum g (foldl (λ r k, <[k := f k]> r) r ks)
  = dict_sum g r + foldr Z.add 0 (map (λ k, g k (f k)) ks).
Proof.
  revert r. induction ks as [|a ks IH]; intros r Hnd Hfresh; cbn [foldl map foldr].
  - lia.
  - apply NoDup_cons in Hnd as [Ha Hnd]. rewrite IH; [|done|].
    + rewrite dict_sum_insert by (apply Hfresh; set_solver). lia.
    + intros k Hk. rewrite lookup_insert_ne by set_solver. apply Hfresh. set_solver.
Qed.

(** The sum over a dict filled by two loops is the double sum over the loops'
    ranges. *)
Lemma dict_sum_fill {V} (g : string → string → V → Z) (f : string → string → V) ks1 ks2 :
  NoDup ks1 → NoDup ks2 →
  dict_sum (λ k1 row, dict_sum (g k1) row)
    (foldl (λ a k1, foldl (λ a k2, set_item2 a k1 k2 (f k1 k2)) (<[k1 := ∅]> a) ks2) ∅ ks1)
  = foldr Z.add 0
      (map (λ k1, foldr Z.add 0 (map (λ k2, g k1 k2 (f k1 k2)) ks2)) ks1).
Proof.
  intros Hnd1 Hnd2. rewrite fill_rows.
  rewrite (dict_sum_foldl_insert _ (λ k1, foldl (λ r k2, <[k2 := f k1 k2]> r) ∅ ks2))
    by done.
  rewrite dict_sum_empty, Z.add_0_l. f_equal. apply map_ext. intros k1.
  rewrite (dict_sum_foldl_insert (g k1) (f k1)) by done.
  by rewrite dict_sum_empty.
Qed.

Lemma staff_types_NoDup : NoDup staff_types.
Proof. apply (bool_decide_unpack _). by vm_compute. Qed.

Lemma shifts_NoDup : NoDup shifts.
Proof. apply (bool_decide_unpack _). by vm_compute. Qed.

(** The double sum over the fixed sets is the sum over their pairs. *)
Lemma table_cost_fill (f : string → string → Z) allocation :
  (∀ st sh, st ∈ staff_types → sh ∈ shifts → count_at allocation st sh = Some (f st sh)) →
  table_cost allocation
  = foldr Z.add 0
      (map (λ st, foldr Z.add 0 (map (λ sh, f st sh * item2 base_costs st sh) shifts))
           staff_types).
Proof.
  intros Hc. unfold table_cost, staff_types, shifts. cbn [list_prod map foldr app].
  rewrite !Hc by (unfold staff_types, shifts; set_solver). unfold default, from_option, id. ring.
Qed.

(** ** Comparisons and truncation on rationals *)

Lemma Qgt_bool_true a b : Qgt_bool a b = true ↔ (b < a)%Q.
Proof.
  unfold Qgt_bool. rewrite negb_true_iff, <- not_true_iff_false, Qle_bool_iff.
  split; [apply Qnot_le_lt | apply Qlt_not_le].
Qed.

Lemma Qlt_bool_true a b : Qlt_bool a b = true ↔ (a < b)%Q.
Proof. apply Qgt_bool_true. Qed.

Lemma Qgt_bool_dec a b : Qgt_bool a b = if Qlt_le_dec b a then true else false.
Proof.
  destruct (Qlt_le_dec b a) as [H|H].
  - by apply Qgt_bool_true.
  - apply not_true_iff_false. rewrite Qgt_bool_true. by apply Qle_not_lt.
Qed.

Lemma Qlt_bool_dec a b : Qlt_bool a b = if Qlt_le_dec a b then true else false.
Proof. apply Qgt_bool_dec. Qed.

(** Truncation and floor agree from zero upwards, and truncation is never
    below the floor; under a [max] with a positive number they agree. *)
Lemma py_int_floor_max (m : Z) (x : Q) : 0 < m → Z.max m (py_int x) = Z.max m (Qfloor x).
Proof.
  intros Hm. destruct x as [n d]. unfold py_int, Qfloor. cbn [Qnum Qden].
  destruct (Z.le_gt_cases 0 n) as [Hn|Hn].
  - by rewrite Z.quot_div_nonneg by lia.
  - assert (n `quot` Z.pos d ≤ 0) by (apply Z.quot_le_upper_bound; lia).
    assert (n `div` Z.pos d < 0) by (apply Z.div_lt_upper_bound; lia).
    lia.
Qed.

(** ** The heuristic fallback *)

Lemma get2_count_at (d : gmap string (gmap string Z)) st sh dflt :
  get2 d st sh dflt = default dflt (count_at d st sh).
Proof.
  unfold get2, count_at. destruct (d !! st) as [row|]; cbn; [done|].
  by rewrite lookup_empty.
Qed.

Lemma fallback_count_adjustment cs pd st sh :
  sh ∈ shifts →
  fallback_count cs pd st sh = Z.max 1 (default 5 (count_at cs st sh) + adjustment pd sh).
Proof.
  intros Hsh. unfold fallback_count, adjustment, admissions_term, occupancy_term.
  rewrite get2_count_at. f_equal. f_equal.
  assert (Hshift : (if bool_decide (sh ∈ ["Morning"; "Evening"]) then 2 else 1)
                   = if decide (sh = "Night") then 1 else 2).
  { unfold shifts in Hsh. rewrite !elem_of_cons in Hsh.
    destruct Hsh as [H | [H | [H | H]]]; [subst sh; done ..|by apply not_elem_of_nil in H]. }
  destruct (pd !! "admissions") as [adm|], (pd !! "bed_occupancy") as [occ|];
    rewrite ?Qgt_bool_dec, ?Qlt_bool_dec, ?Hshift;
    repeat destruct (Qlt_le_dec _ _); lia.
Qed.

Lemma fallback_allocation_lookup cs pd st sh :
  st ∈ staff_types → sh ∈ shifts →
  count_at (optimized_allocation (_fallback_solution cs pd)) st sh
  = Some (fallback_count cs pd st sh).
Proof.
  intros Hst Hsh. unfold _fallback_solution, count_at. cbn [optimized_allocation].
  by apply (fill_lookup (fallback_count cs pd)).
Qed.

Lemma fallback_total_cost cs pd :
  total_cost (_fallback_solution cs pd)
  = table_cost (optimized_allocation (_fallback_solution cs pd)).
Proof.
  rewrite (table_cost_fill (fallback_count cs pd))
    by (intros; by apply fallback_allocation_lookup).
  unfold _fallback_solution. cbn [total_cost].
  apply (dict_sum_fill (λ st sh count, count * item2 base_costs st sh)
           (fallback_count cs pd)); [apply staff_types_NoDup | apply shifts_NoDup].
Qed.

(** ** The optimal path *)

Lemma extract_loops (f g : string → string → Z) ks1 ks2 t0 (a0 : gmap string (gmap string Z)) :
  foldl (λ '(a, t) k1,
    foldl (λ '(a, t) k2, (set_item2 a k1 k2 (f k1 k2), t + f k1 k2 * g k1 k2))
      (<[k1 := ∅]> a, t) ks2) (a0, t0) ks1
  = (foldl (λ a k1, foldl (λ a k2, set_item2 a k1 k2 (f k1 k2)) (<[k1 := ∅]> a) ks2) a0 ks1,
     t0 + foldr Z.add 0 (map (λ k1, foldr Z.add 0 (map (λ k2, f k1 k2 * g k1 k2) ks2)) ks1)).
Proof.
  assert (Hin : ∀ k1 ks a t,
    foldl (λ '(a, t) k2, (set_item2 a k1 k2 (f k1 k2), t + f k1 k2 * g k1 k2)) (a, t) ks
    = (foldl (λ a k2, set_item2 a k1 k2 (f k1 k2)) a ks,
       t + foldr Z.add 0 (map (λ k2, f k1 k2 * g k1 k2) ks))).
  { intros k1 ks. induction ks as [|k ks IH]; intros a t; cbn [foldl map foldr].
    - f_equal. lia.
    - rewrite IH. f_equal. lia. }
  revert t0 a0. induction ks1 as [|k ks1 IH]; intros t0 a0; cbn [foldl map foldr].
  - f_equal. lia.
  - rewrite Hin, IH. f_equal. lia.
Qed.

Lemma extract_allocation vars prob st varValue :
  optimized_allocation (_extract_solution vars prob st varValue)
  = foldl (λ a k1,
      foldl (λ a k2, set_item2 a k1 k2 (varValue (name (item2 vars k1 k2))))
        (<[k1 := ∅]> a) shifts) ∅ staff_types
  ∧ total_cost (_extract_solution vars prob st varValue)
    = foldr Z.add 0
        (map (λ k1, foldr Z.add 0
           (map (λ k2, varValue (name (item2 vars k1 k2)) * item2 base_costs k1 k2) shifts))
           staff_types).
Proof.
  unfold _extract_solution.
  pose proof (extract_loops (λ k1 k2, varValue (name (item2 vars k1 k2)))
                (item2 base_costs) staff_types shifts 0 ∅) as H.
  cbv beta zeta in *. rewrite H. cbn [optimized_allocation total_cost].
  split; [reflexivity|apply Z.add_0_l].
Qed.

Lemma extract_objective_value vars prob st varValue :
  objective_value (_extract_solution vars prob st varValue) = value varValue (objective prob)
  ∧ solver_status (_extract_solution vars prob st varValue) = LpStatus st.
Proof.
  unfold _extract_solution. by destruct (foldl _ _ _).
Qed.

Lemma extract_allocation_lookup vars prob status varValue st sh :
  st ∈ staff_types → sh ∈ shifts →
  count_at (optimized_allocation (_extract_solution vars prob status varValue)) st sh
  = Some (varValue (name (item2 vars st sh))).
Proof.
  intros Hst Hsh. rewrite (proj1 (extract_allocation _ _ _ _)).
  by apply (fill_lookup (λ k1 k2, varValue (name (item2 vars k1 k2)))).
Qed.

Lemma extract_total_cost vars prob status varValue :
  total_cost (_extract_solution vars prob status varValue)
  = table_cost (optimized_allocation (_extract_solution vars prob status varValue)).
Proof.
  rewrite (table_cost_fill (λ st sh, varValue (name (item2 vars st sh))))
    by (intros; by apply extract_allocation_lookup).
  apply extract_allocation.
Qed.

(** ** Assembling the problem only ever adds constraints *)

Lemma extends_refl p : extends p p.
Proof. split; [done|]. exists []. by rewrite app_nil_r. Qed.

Lemma extends_add p q c : extends p q → extends p (add_constraint q c).
Proof.
  intros [Hobj [more Hmore]]. split; [done|]. exists (more ++ [c]).
  cbn. by rewrite Hmore, app_assoc.
Qed.

Lemma extends_foldl {A} (F : LpProblem → A → LpProblem) (l : list A) p q :
  (∀ q a, extends p q → extends p (F q a)) → extends p q → extends p (foldl F q l).
Proof.
  intros HF. revert q. induction l as [|a l IH]; intros q Hq; [done|].
  cbn [foldl]. apply IH. by apply HF.
Qed.

Lemma extends_trans p q r : extends p q → extends q r → extends p r.
Proof.
  intros [Ho1 [m1 H1]] [Ho2 [m2 H2]]. split; [congruence|].
  exists (m1 ++ m2). by rewrite H2, H1, app_assoc.
Qed.

Lemma extends_In p q c : extends p q → In c (pulp.constraints p) → In c (pulp.constraints q).
Proof. intros [_ [more ->]] Hc. apply in_or_app. by left. Qed.

Ltac extends :=
  repeat first
    [ assumption
    | apply extends_refl
    | apply extends_add
    | apply extends_foldl; [intros ? ? ?|]
    | case_match ].

(** Once [c] is in the problem [p] that a loop over [l] has produced, it is in
    the problem [final] that the later statements build from [p]. *)
Ltac after_loop l :=
  match goal with |- In ?c (pulp.constraints ?final) =>
    match final with context [foldl ?F ?p l] =>
      let Hin := fresh "Hin" in
      assert (In c (pulp.constraints (foldl F p l))) as Hin;
      [|generalize dependent (foldl F p l); intros ? Hin;
        eapply extends_In; [|exact Hin]; extends]
    end
  end.

Lemma demand_extends p q vars pd :
  extends p q → extends p (_add_demand_constraints q vars pd).
Proof. intros Hq. unfold _add_demand_constraints. cbv zeta. extends. Qed.

Lemma operational_extends p q vars cs :
  extends p q → extends p (_add_operational_constraints q vars cs).
Proof. intros Hq. unfold _add_operational_constraints. cbv zeta. extends. Qed.

Lemma custom_extends p q vars c :
  extends p q → extends p (_add_custom_constraints q vars c).
Proof. intros Hq. unfold _add_custom_constraints. cbv zeta. extends. Qed.

(** A constraint that one round of a loop adds is there when the loop ends. *)
Lemma foldl_adds {A} (F : LpProblem → A → LpProblem) (l : list A) a c p :
  (∀ q b, extends q (F q b)) → a ∈ l → (∀ q, In c (pulp.constraints (F q a))) →
  In c (pulp.constraints (foldl F p l)).
Proof.
  intros Hext Ha Hc. revert p. induction l as [|b l IH]; intros p.
  - by apply not_elem_of_nil in Ha.
  - cbn [foldl]. apply elem_of_cons in Ha as [->|Ha]; [|by apply IH].
    eapply extends_In; [|apply Hc].
    apply extends_foldl; [|apply extends_refl].
    intros q b' Hq. eapply extends_trans; [exact Hq|apply Hext].
Qed.

Lemma add_constraint_In p c : In c (pulp.constraints (add_constraint p c)).
Proof. cbn. apply in_or_app. right. by left. Qed.

Lemma assemble_objective cs pd c : objective (assemble cs pd c) = cost_expression staff_vars.
Proof.
  set (p0 := set_objective {| objective := []; pulp.constraints := [] |}
               (cost_expression staff_vars)).
  assert (extends p0 (assemble cs pd c)) as [H _]; [|exact H].
  apply custom_extends, operational_extends, demand_extends, extends_refl.
Qed.

(** The nurse minimum of a shift is among the constraints. *)
Lemma assemble_nurse_minimum cs pd c bed_occupancy sh :
  pd !! "bed_occupancy" = Some bed_occupancy → sh ∈ shifts →
  In (var_ge (item2 staff_vars "Nurses" sh)
        (Z.max 3 (py_int (bed_occupancy / inject_Z (nurse_ratios !!! sh))))
        ("Min_Nurses_" +:+ sh))
     (pulp.constraints (assemble cs pd c)).
Proof.
  intros Hbo Hsh. unfold assemble. cbv zeta.
  eapply extends_In; [apply custom_extends, operational_extends, extends_refl|].
  unfold _add_demand_constraints. rewrite Hbo. cbv zeta.
  after_loop shifts.
  apply (foldl_adds _ _ sh); [intros; extends|done|intros; apply add_constraint_In].
Qed.

(** So are the two stability constraints of a pair present in [current_staff]. *)
Lemma assemble_stability cs pd c st sh current_count :
  st ∈ staff_types → sh ∈ shifts → count_at cs st sh = Some current_count →
  In (var_ge (item2 staff_vars st sh) (current_count - max_change current_count)
        ("Min_Change_" +:+ st +:+ "_" +:+ sh))
     (pulp.constraints (assemble cs pd c))
  ∧ In (var_le (item2 staff_vars st sh) (current_count + max_change current_count)
        ("Max_Change_" +:+ st +:+ "_" +:+ sh))
     (pulp.constraints (assemble cs pd c)).
Proof.
  intros Hst Hsh Hcur. unfold count_at in Hcur.
  destruct (cs !! st) as [row|] eqn:Hrow; [cbn in Hcur|done].
  unfold assemble. cbv zeta.
  split.
  all: eapply extends_In; [apply custom_extends, extends_refl|].
  all: unfold _add_operational_constraints; cbv zeta.
  all: after_loop staff_types.
  all: apply (foldl_adds _ _ st); [intros; extends|done|].
  all: intros q; rewrite Hrow.
  all: apply (foldl_adds _ _ sh); [intros; extends|done|].
  all: intros q'; rewrite Hcur.
  - eapply extends_In; [apply extends_add, extends_refl|apply add_constraint_In].
  - apply add_constraint_In.
Qed.

(** ** What a feasible point satisfies *)

Lemma holds_var_ge varValue x n label :
  holds varValue (var_ge x n label) = true → n ≤ varValue (name x).
Proof.
  unfold holds, var_ge. cbn. rewrite Qle_bool_iff, <- Zle_Qle. lia.
Qed.

Lemma holds_var_le varValue x n label :
  holds varValue (var_le x n label) = true → varValue (name x) ≤ n.
Proof.
  unfold holds, var_le. cbn. rewrite Qle_bool_iff, <- Zle_Qle. lia.
Qed.

Lemma feasible_holds prob varValue c :
  feasible prob varValue = true → In c (pulp.constraints prob) → holds varValue c = true.
Proof.
  unfold feasible. rewrite andb_true_iff, !forallb_forall. intros [_ H]. apply H.
Qed.

Lemma feasible_bounds prob varValue k x :
  feasible prob varValue = true → In (k, x) (objective prob) →
  lowBound x ≤ varValue (name x) ≤ upBound x.
Proof.
  unfold feasible. rewrite andb_true_iff, !forallb_forall. intros [H _] Hx.
  apply H in Hx. unfold within_bounds in Hx. lia.
Qed.

(** Every decision variable is in the objective, with bounds 1 and 50. *)
Lemma staff_vars_in_objective st sh :
  st ∈ staff_types → sh ∈ shifts →
  In (item2 base_costs st sh, item2 staff_vars st sh) (cost_expression staff_vars)
  ∧ lowBound (item2 staff_vars st sh) = 1 ∧ upBound (item2 staff_vars st sh) = 50.
Proof.
  unfold staff_types, shifts. rewrite !elem_of_cons.
  intros [-> | [-> | [-> | H]]] [-> | [-> | [-> | H']]];
    try (by apply not_elem_of_nil in H); try (by apply not_elem_of_nil in H');
    (split; [vm_compute; tauto | by vm_compute]).
Qed.

(** ** The two paths of [optimize_allocation] *)

Lemma optimize_allocation_inv solve cs pd c r :
  optimize_allocation solve cs pd c = inr r →
  (∃ varValue,
      solve (assemble cs pd c) = Solved LpStatusOptimal varValue
      ∧ r = {| sol := _extract_solution staff_vars (assemble cs pd c) LpStatusOptimal varValue;
               status := "optimal" |})
  ∨ (∃ prob_status varValue,
      solve (assemble cs pd c) = Solved prob_status varValue
      ∧ prob_status ≠ LpStatusOptimal
      ∧ r = {| sol := _fallback_solution cs pd; status := "fallback" |}).
Proof.
  unfold optimize_allocation. cbv zeta.
  destruct (solve (assemble cs pd c)) as [e|prob_status varValue]; [done|].
  destruct prob_status; intros [= <-].
  2: { left. eexists. split; reflexivity. }
  all: right; eexists _, _; split; [reflexivity|split; [discriminate|reflexivity]].
Qed.

(** On the optimal path, under a sound solver, the returned count of a pair is
    the value of its variable, and that point is feasible. *)
Lemma optimal_path solve cs pd c r :
  sound solve → optimize_allocation solve cs pd c = inr r → status r = "optimal" →
  ∃ varValue,
    feasible (assemble cs pd c) varValue = true
    ∧ ∀ st sh, st ∈ staff_types → sh ∈ shifts →
        count_at (optimized_allocation r) st sh
        = Some (varValue (name (item2 staff_vars st sh))).
Proof.
  intros Hsound Hr Hstatus.
  apply optimize_allocation_inv in Hr as [(v & Hsolve & ->)|(s & v & _ & _ & ->)];
    [|done].
  exists v. split; [by apply Hsound|].
  intros st sh Hst Hsh. by apply extract_allocation_lookup.
Qed.

(** ** The scenarios, run *)

Lemma corner_solver_on prob :
  corner_solver prob
  = if feasible prob (lower_corner prob)
    then Solved LpStatusOptimal (lower_corner prob)
    else Solved LpStatusInfeasible (lower_corner prob).
Proof. reflexivity. Qed.

Lemma ward_optimal :
  optimize_allocation corner_solver ward_current_staff main_predicted_demand
    main_constraints = inr ward_result.
Proof.
  unfold optimize_allocation. cbv zeta. fold ward_problem. rewrite corner_solver_on.
  replace (feasible ward_problem (lower_corner ward_problem)) with true by (by vm_compute).
  reflexivity.
Qed.

Lemma main_falls_back :
  optimize_allocation corner_solver main_current_staff main_predicted_demand
    main_constraints = inr main_result.
Proof.
  unfold optimize_allocation. cbv zeta. rewrite corner_solver_on.
  set (prob := assemble _ _ _).
  replace (feasible prob (lower_corner prob)) with false by (by vm_compute).
  reflexivity.
Qed.

Lemma crowded_infeasible :
  optimize_allocation corner_solver crowded_current_staff ∅ None = inr crowded_result.
Proof.
  unfold optimize_allocation. cbv zeta. rewrite corner_solver_on.
  set (prob := assemble _ _ _).
  replace (feasible prob (lower_corner prob)) with false by (by vm_compute).
  reflexivity.
Qed.

Lemma corner_solver_sound : sound corner_solver.
Proof.
  intros prob varValue. unfold corner_solver. cbv zeta.
  destruct (feasible prob (lower_corner prob)) eqn:Hf; [|done].
  by intros [= <-].
Qed.

Lemma max_change_band current_count : max_change current_count = stability_band current_count.
Proof.
  unfold max_change, stability_band. rewrite py_int_floor_max by lia.
  f_equal. apply Qfloor_comp. apply Qmult_comm.
Qed.

Lemma nurse_ratios_lookup sh : sh ∈ shifts → nurse_ratios !!! sh = nurse_ratio sh.
Proof.
  unfold shifts. rewrite !elem_of_cons.
  intros [-> | [-> | [-> | H]]]; [by vm_compute ..|by apply not_elem_of_nil in H].
Qed.

(** ** Cost consistency *)

(** C1. For every result of [optimize_allocation], on the optimal and on the
    fallback path, [total_cost] is the sum over all (category, shift) pairs of
    the returned count times the rate of the fixed cost table, and every pair
    has a returned count. On the optimal path the returned counts are the
    values that the solver left in the variables, and the recomputed total is
    the value of the problem's objective at those values, which is what
    [objective_value] reports (exactly, the variables being integer ones). *)
Theorem total_cost_is_table_cost solve cs pd c r :
  optimize_allocation solve cs pd c = inr r →
  total_cost r = table_cost (optimized_allocation r)
  ∧ (∀ st sh, st ∈ staff_types → sh ∈ shifts →
       is_Some (count_at (optimized_allocation r) st sh))
  ∧ objective_value r = total_cost r
  ∧ (status r = "optimal" →
     ∃ varValue,
       solve (assemble cs pd c) = Solved LpStatusOptimal varValue
       ∧ (∀ st sh, st ∈ staff_types → sh ∈ shifts →
            count_at (optimized_allocation r) st sh
            = Some (varValue (name (item2 staff_vars st sh))))
       ∧ total_cost r = value varValue (objective (assemble cs pd c))
       ∧ objective_value r = value varValue (objective (assemble cs pd c))).
Proof.
  intros Hr.
  apply optimize_allocation_inv in Hr as [(v & Hsolve & ->)|(s & v & _ & _ & ->)];
    cbn [sol status].
  - assert (Hobjective :
      total_cost (_extract_solution staff_vars (assemble cs pd c) LpStatusOptimal v)
      = value v (objective (assemble cs pd c))).
    { rewrite (proj2 (extract_allocation _ _ _ _)), assemble_objective.
      unfold value, cost_expression, staff_types, shifts.
      cbn [foldl foldr map app]. ring. }
    split; [apply extract_total_cost|]. split.
    { intros st sh Hst Hsh. by rewrite extract_allocation_lookup. }
    split.
    { rewrite Hobjective. apply extract_objective_value. }
    intros _. exists v. split; [exact Hsolve|].
    split; [|split; [exact Hobjective|apply extract_objective_value]].
    intros st sh Hst Hsh. by apply extract_allocation_lookup.
  - split; [apply fallback_total_cost|]. split.
    { intros st sh Hst Hsh. by rewrite fallback_allocation_lookup. }
    split; [done|]. intros Hstatus. discriminate Hstatus.
Qed.

Lemma total_cost_is_table_cost_witness :
  optimize_allocation corner_solver ward_current_staff main_predicted_demand
    main_constraints = inr ward_result
  ∧ total_cost ward_result = table_cost (optimized_allocation ward_result)
  ∧ (∀ st sh, st ∈ staff_types → sh ∈ shifts →
       is_Some (count_at (optimized_allocation ward_result) st sh))
  ∧ objective_value ward_result = total_cost ward_result
  ∧ (status ward_result = "optimal" →
     ∃ varValue,
       corner_solver (assemble ward_current_staff main_predicted_demand main_constraints)
       = Solved LpStatusOptimal varValue
       ∧ (∀ st sh, st ∈ staff_types → sh ∈ shifts →
            count_at (optimized_allocation ward_result) st sh
            = Some (varValue (name (item2 staff_vars st sh))))
       ∧ total_cost ward_result
         = value varValue
             (objective (assemble ward_current_staff main_predicted_demand
                           main_constraints))
       ∧ objective_value ward_result
         = value varValue
             (objective (assemble ward_current_staff main_predicted_demand
                           main_constraints))).
Proof.
  split; [apply ward_optimal|].
  apply (total_cost_is_table_cost corner_solver ward_current_staff main_predicted_demand
           main_constraints).
  apply ward_optimal.
Defined.

(** ** Allocation bounds *)

(** No sound solver can report the crowded ward optimal: its stability
    constraint asks for at least 70 morning nurses, the variable allows 50. *)
Lemma crowded_falls_back solve r :
  sound solve → optimize_allocation solve crowded_current_staff ∅ None = inr r →
  status r = "fallback" ∧ count_at (optimized_allocation r) "Nurses" "Morning" = Some 100.
Proof.
  intros Hsound Hr. destruct (decide (status r = "optimal")) as [Hopt|Hopt].
  - destruct (optimal_path _ _ _ _ _ Hsound Hr Hopt) as (v & Hf & _). exfalso.
    assert ("Nurses" ∈ staff_types) as Hst by (apply (bool_decide_unpack _); by vm_compute).
    assert ("Morning" ∈ shifts) as Hsh by (apply (bool_decide_unpack _); by vm_compute).
    destruct (staff_vars_in_objective _ _ Hst Hsh) as (Hin & _ & Hup).
    rewrite <- (assemble_objective crowded_current_staff ∅ None) in Hin.
    apply (feasible_bounds _ _ _ _ Hf) in Hin. rewrite Hup in Hin.
    destruct (assemble_stability crowded_current_staff ∅ None _ _ 100 Hst Hsh) as [Hge _];
      [by vm_compute|].
    apply (feasible_holds _ _ _ Hf), holds_var_ge in Hge.
    replace (100 - max_change 100) with 70 in Hge by (by vm_compute). lia.
  - apply optimize_allocation_inv in Hr as [(v & _ & ->)|(s & v & _ & _ & ->)]; [done|].
    split; [done|]. by vm_compute.
Qed.

(** C2, as stated, fails: on the fallback path a count can exceed 50. The
    crowded ward makes the problem infeasible, and the heuristic returns its
    100 morning nurses unchanged. *)
Lemma allocation_bounds_counterexample :
  optimize_allocation corner_solver crowded_current_staff ∅ None = inr crowded_result
  ∧ solver_status crowded_result = "heuristic_fallback"
  ∧ count_at (optimized_allocation crowded_result) "Nurses" "Morning" = Some 100
  ∧ ¬ (1 ≤ 100 ≤ 50).
Proof.
  split; [apply crowded_infeasible|].
  split; [reflexivity|]. split; [by vm_compute|lia].
Qed.

(** C2, amended. Every returned count is at least 1 on both paths; when the
    result is optimal (the solver being sound) it is also at most 50 and
    within max(2, floor(0.3 * current count)) of the current count, for every
    (category, shift) present in [current_staff]. *)
Theorem allocation_bounds solve cs pd c r st sh :
  sound solve → optimize_allocation solve cs pd c = inr r →
  st ∈ staff_types → sh ∈ shifts →
  ∃ n, count_at (optimized_allocation r) st sh = Some n
       ∧ 1 ≤ n
       ∧ (status r = "optimal" →
            n ≤ 50
            ∧ ∀ current_count, count_at cs st sh = Some current_count →
                current_count - stability_band current_count ≤ n
                ≤ current_count + stability_band current_count).
Proof.
  intros Hsound Hr Hst Hsh.
  destruct (decide (status r = "optimal")) as [Hopt|Hopt].
  - destruct (optimal_path _ _ _ _ _ Hsound Hr Hopt) as (v & Hf & Hcount).
    exists (v (name (item2 staff_vars st sh))). split; [by apply Hcount|].
    destruct (staff_vars_in_objective _ _ Hst Hsh) as (Hin & Hlow & Hup).
    rewrite <- (assemble_objective cs pd c) in Hin.
    apply (feasible_bounds _ _ _ _ Hf) in Hin. rewrite Hlow, Hup in Hin.
    split; [lia|]. intros _. split; [lia|]. intros cur Hcur.
    destruct (assemble_stability cs pd c _ _ _ Hst Hsh Hcur) as [Hge Hle].
    apply (feasible_holds _ _ _ Hf), holds_var_ge in Hge.
    apply (feasible_holds _ _ _ Hf), holds_var_le in Hle.
    rewrite max_change_band in Hge, Hle. lia.
  - apply optimize_allocation_inv in Hr as [(v & _ & ->)|(s & v & _ & _ & ->)]; [done|].
    exists (fallback_count cs pd st sh). cbn [sol].
    split; [by apply fallback_allocation_lookup|]. split; [|done].
    unfold fallback_count. cbv zeta. lia.
Qed.

Lemma allocation_bounds_witness :
  optimize_allocation corner_solver ward_current_staff main_predicted_demand
    main_constraints = inr ward_result
  ∧ status ward_result = "optimal"
  ∧ ∃ n, count_at (optimized_allocation ward_result) "Nurses" "Evening" = Some n
         ∧ 1 ≤ n
         ∧ (status ward_result = "optimal" →
              n ≤ 50
              ∧ ∀ current_count,
                  count_at ward_current_staff "Nurses" "Evening" = Some current_count →
                  current_count - stability_band current_count ≤ n
                  ≤ current_count + stability_band current_count).
Proof.
  split; [apply ward_optimal|]. split; [reflexivity|].
  apply (allocation_bounds corner_solver ward_current_staff main_predicted_demand
           main_constraints).
  - apply corner_solver_sound.
  - apply ward_optimal.
  - apply (bool_decide_unpack _). vm_compute. exact I.
  - apply (bool_decide_unpack _). vm_compute. exact I.
Defined.

(** ** The nurse minimum *)

(** C9. When [predicted_demand] has [bed_occupancy] and the result is optimal
    (the solver being sound), the nurse count of each shift is at least
    max(3, floor(bed occupancy / ratio)), with ratio 6, 8 and 12 for Morning,
    Evening and Night. *)
Theorem nurse_minimum_met solve cs pd c r bed_occupancy sh :
  sound solve → pd !! "bed_occupancy" = Some bed_occupancy →
  optimize_allocation solve cs pd c = inr r → status r = "optimal" → sh ∈ shifts →
  ∃ n, count_at (optimized_allocation r) "Nurses" sh = Some n
       ∧ nurse_minimum bed_occupancy sh ≤ n.
Proof.
  intros Hsound Hbo Hr Hopt Hsh.
  destruct (optimal_path _ _ _ _ _ Hsound Hr Hopt) as (v & Hf & Hcount).
  exists (v (name (item2 staff_vars "Nurses" sh))). split.
  - apply Hcount; [|done]. apply (bool_decide_unpack _). by vm_compute.
  - pose proof (assemble_nurse_minimum cs pd c _ _ Hbo Hsh) as Hge.
    apply (feasible_holds _ _ _ Hf), holds_var_ge in Hge.
    unfold nurse_minimum. rewrite <- nurse_ratios_lookup, <- py_int_floor_max by (done || lia).
    done.
Qed.

Lemma nurse_minimum_met_witness :
  optimize_allocation corner_solver ward_current_staff main_predicted_demand
    main_constraints = inr ward_result
  ∧ ∃ n, count_at (optimized_allocation ward_result) "Nurses" "Morning" = Some n
         ∧ nurse_minimum (inject_Z 180) "Morning" ≤ n.
Proof.
  split; [apply ward_optimal|].
  apply (nurse_minimum_met corner_solver ward_current_staff main_predicted_demand
           main_constraints).
  - apply corner_solver_sound.
  - vm_compute. reflexivity.
  - apply ward_optimal.
  - reflexivity.
  - apply (bool_decide_unpack _). vm_compute. exact I.
Defined.

(** ** The status fields *)

(** C6, as stated, fails: on the optimal path [solver_status] is PuLP's name
    of the status, ["Optimal"], which is neither ["optimal"] nor
    ["heuristic_fallback"]. *)
Lemma solver_status_counterexample :
  optimize_allocation corner_solver ward_current_staff main_predicted_demand
    main_constraints = inr ward_result
  ∧ solver_status ward_result = "Optimal"
  ∧ solver_status ward_result ∉ ["optimal"; "heuristic_fallback"].
Proof.
  split; [apply ward_optimal|].
  assert (solver_status ward_result = "Optimal") as ->.
  { unfold ward_result. cbn [sol]. by rewrite (proj2 (extract_objective_value _ _ _ _)). }
  split; [done|]. rewrite !elem_of_cons. intros [H|[H|H]]; [done..|].
  by apply not_elem_of_nil in H.
Qed.

(** C6, amended. Every result reports which path produced it: its
    [solver_status] is ["Optimal"] (PuLP's name) on the optimal path and
    ["heuristic_fallback"] on the other, and its [status] is ["optimal"] and
    ["fallback"] accordingly. *)
Theorem result_reports_its_path solve cs pd c r :
  optimize_allocation solve cs pd c = inr r →
  (solver_status r = "Optimal" ∧ status r = "optimal"
   ∧ ∃ varValue, solve (assemble cs pd c) = Solved LpStatusOptimal varValue)
  ∨ (solver_status r = "heuristic_fallback" ∧ status r = "fallback"
     ∧ ∃ prob_status varValue,
         solve (assemble cs pd c) = Solved prob_status varValue
         ∧ prob_status ≠ LpStatusOptimal).
Proof.
  intros Hr.
  apply optimize_allocation_inv in Hr as [(v & Hsolve & ->)|(s & v & Hsolve & Hs & ->)].
  - left. cbn [sol status]. rewrite (proj2 (extract_objective_value _ _ _ _)).
    split; [done|]. split; [done|]. by exists v.
  - right. split; [done|]. split; [done|]. by exists s, v.
Qed.

Lemma result_reports_its_path_witness :
  optimize_allocation corner_solver main_current_staff main_predicted_demand
    main_constraints = inr main_result
  ∧ ((solver_status main_result = "Optimal" ∧ status main_result = "optimal"
      ∧ ∃ varValue,
          corner_solver (assemble main_current_staff main_predicted_demand main_constraints)
          = Solved LpStatusOptimal varValue)
     ∨ (solver_status main_result = "heuristic_fallback" ∧ status main_result = "fallback"
        ∧ ∃ prob_status varValue,
            corner_solver (assemble main_current_staff main_predicted_demand main_constraints)
            = Solved prob_status varValue
            ∧ prob_status ≠ LpStatusOptimal)).
Proof.
  split; [apply main_falls_back|].
  apply (result_reports_its_path corner_solver main_current_staff main_predicted_demand
           main_constraints).
  apply main_falls_back.
Defined.

(** ** Failure of the solver *)

(** C7, as stated, fails: when the solver raises (CBC is not available),
    [optimize_allocation] returns no allocation; the exception reaches the
    caller. *)
Lemma solver_failure_counterexample :
  optimize_allocation unavailable_solver main_current_staff main_predicted_demand
    main_constraints
  = inl (PulpSolverError "PULP_CBC_CMD: Not Available (check permissions)")
  ∧ optimize_allocation unavailable_solver main_current_staff main_predicted_demand
      main_constraints
    ≠ inr main_result.
Proof. split; [reflexivity|discriminate]. Qed.

(** C7, amended. Whenever the solver returns with a status other than
    optimal (not solved, infeasible, unbounded, undefined),
    [optimize_allocation] returns the heuristic fallback allocation, which is
    a function of [current_staff] and [predicted_demand] alone; an exception
    raised by the solver is not caught and reaches its caller. *)
Theorem non_optimal_status_falls_back solve cs pd c :
  (∀ prob_status varValue,
     solve (assemble cs pd c) = Solved prob_status varValue →
     prob_status ≠ LpStatusOptimal →
     optimize_allocation solve cs pd c
     = inr {| sol := _fallback_solution cs pd; status := "fallback" |})
  ∧ (∀ e, solve (assemble cs pd c) = Raised e → optimize_allocation solve cs pd c = inl e).
Proof.
  unfold optimize_allocation. cbv zeta. split.
  - intros s v -> Hs. by destruct s.
  - by intros e ->.
Qed.

Lemma non_optimal_status_falls_back_witness :
  optimize_allocation corner_solver main_current_staff main_predicted_demand
    main_constraints = inr main_result
  ∧ optimize_allocation unavailable_solver main_current_staff main_predicted_demand
      main_constraints
    = inl (PulpSolverError "PULP_CBC_CMD: Not Available (check permissions)").
Proof.
  split.
  - eapply (proj1 (non_optimal_status_falls_back corner_solver main_current_staff
                     main_predicted_demand main_constraints)).
    + rewrite corner_solver_on.
      match goal with |- context [feasible ?p ?v] =>
        replace (feasible p v) with false by (by vm_compute)
      end.
      reflexivity.
    + discriminate.
  - apply (proj2 (non_optimal_status_falls_back unavailable_solver main_current_staff
                    main_predicted_demand main_constraints)).
    reflexivity.
Defined.

(** ** The heuristic's rule *)

(** C8. For every (category, shift) the fallback allocation is
    max(1, current count + adjustment): the adjustment is +2 on Morning and
    Evening and +1 on Night when predicted admissions exceed 10, -1 on every
    shift when they are below 5, plus 1 on every shift when predicted bed
    occupancy exceeds 200. With admissions = 3 the admissions term is -1 on
    every shift. *)
Theorem fallback_allocation_rule cs pd st sh :
  st ∈ staff_types → sh ∈ shifts →
  count_at (optimized_allocation (_fallback_solution cs pd)) st sh
  = Some (Z.max 1 (default 5 (count_at cs st sh) + adjustment pd sh))
  ∧ (pd !! "admissions" = Some (inject_Z 3) →
     count_at (optimized_allocation (_fallback_solution cs pd)) st sh
     = Some (Z.max 1 (default 5 (count_at cs st sh) - 1 + occupancy_term pd))).
Proof.
  intros Hst Hsh.
  rewrite fallback_allocation_lookup, fallback_count_adjustment by done.
  split; [done|]. intros Hadm. do 2 f_equal.
  unfold adjustment, admissions_term. rewrite Hadm.
  destruct (Qlt_le_dec (inject_Z 10) (inject_Z 3)) as [H|_]; [by vm_compute in H|].
  destruct (Qlt_le_dec (inject_Z 3) (inject_Z 5)) as [_|H]; [lia|].
  exfalso. by apply H.
Qed.

Lemma fallback_allocation_rule_witness :
  "Nurses" ∈ staff_types ∧ "Night" ∈ shifts
  ∧ count_at (optimized_allocation
                (_fallback_solution main_current_staff {[ "admissions" := inject_Z 3 ]}))
      "Nurses" "Night"
    = Some (Z.max 1 (default 5 (count_at main_current_staff "Nurses" "Night")
                     + adjustment {[ "admissions" := inject_Z 3 ]} "Night"))
  ∧ (({[ "admissions" := inject_Z 3 ]} : gmap string Q) !! "admissions" = Some (inject_Z 3) →
     count_at (optimized_allocation
                 (_fallback_solution main_current_staff {[ "admissions" := inject_Z 3 ]}))
       "Nurses" "Night"
     = Some (Z.max 1 (default 5 (count_at main_current_staff "Nurses" "Night") - 1
                      + occupancy_term {[ "admissions" := inject_Z 3 ]}))).
Proof.
  assert ("Nurses" ∈ staff_types) as Hst by (apply (bool_decide_unpack _); vm_compute; exact I).
  assert ("Night" ∈ shifts) as Hsh by (apply (bool_decide_unpack _); vm_compute; exact I).
  split; [exact Hst|]. split; [exact Hsh|].
  exact (fallback_allocation_rule main_current_staff {[ "admissions" := inject_Z 3 ]}
           "Nurses" "Night" Hst Hsh).
Defined.

(** C10. On the fallback path a (category, shift) pair absent from
    [current_staff] counts as 5 before the adjustment, so the result holds a
    count for every pair of the fixed sets, whatever [current_staff] holds. *)
Theorem fallback_defaults_to_five cs pd st sh :
  st ∈ staff_types → sh ∈ shifts →
  is_Some (count_at (optimized_allocation (_fallback_solution cs pd)) st sh)
  ∧ (count_at cs st sh = None →
     count_at (optimized_allocation (_fallback_solution cs pd)) st sh
     = Some (Z.max 1 (5 + adjustment pd sh))).
Proof.
  intros Hst Hsh.
  rewrite fallback_allocation_lookup, fallback_count_adjustment by done.
  split; [done|]. by intros ->.
Qed.

Lemma fallback_defaults_to_five_witness :
  "Doctors" ∈ staff_types ∧ "Morning" ∈ shifts
  ∧ is_Some (count_at (optimized_allocation (_fallback_solution ∅ main_predicted_demand))
               "Doctors" "Morning")
  ∧ (count_at ∅ "Doctors" "Morning" = None →
     count_at (optimized_allocation (_fallback_solution ∅ main_predicted_demand))
       "Doctors" "Morning"
     = Some (Z.max 1 (5 + adjustment main_predicted_demand "Morning"))).
Proof.
  assert ("Doctors" ∈ staff_types) as Hst by (apply (bool_decide_unpack _); vm_compute; exact I).
  assert ("Morning" ∈ shifts) as Hsh by (apply (bool_decide_unpack _); vm_compute; exact I).
  split; [exact Hst|]. split; [exact Hsh|].
  exact (fallback_defaults_to_five ∅ main_predicted_demand "Doctors" "Morning" Hst Hsh).
Defined.

(** ** Rolling windows *)

Lemma map_lookup {A B} (f : A → B) (l : list A) (i : nat) : map f l !! i = f <$> l !! i.
Proof. apply (list_lookup_fmap f). Qed.

Lemma drop_take_nth {A} (xs : list A) (a b : nat) (d : A) :
  (b ≤ length xs)%nat →
  drop a (take b xs) = map (λ i, nth i xs d) (seq a (b - a)).
Proof.
  intros Hb. apply list_eq. intros i.
  rewrite lookup_drop, map_lookup.
  destruct (decide (i < b - a)%nat) as [Hi|Hi].
  - rewrite lookup_take_lt by lia. rewrite lookup_seq_lt by done. cbn.
    rewrite nth_lookup. destruct (xs !! (a + i)%nat) eqn:Hx; [done|].
    apply lookup_ge_None in Hx. lia.
  - rewrite lookup_take_ge by lia. by rewrite lookup_seq_ge by lia.
Qed.

Lemma rolling_lookup w m stat (s : Series) t :
  (t < length s)%nat →
  rolling w m stat s !! t
  = Some (let obs := observations (window w s t) in
          if (m <=? length obs)%nat then stat obs else None).
Proof.
  intros Ht. unfold rolling. rewrite map_lookup, lookup_seq_lt by done. done.
Qed.

(** ** Column names and frames *)

Lemma append_inj_l (a b c : string) : a +:+ b = a +:+ c → b = c.
Proof. apply String.app_inj. Qed.

Lemma append_empty_r (a : string) : a +:+ EmptyString = a.
Proof.
  induction a as [|x a IH]; [done|].
  change (String x (a +:+ EmptyString) = String x a). by f_equal.
Qed.

Lemma append_ne_self (a b : string) : b ≠ EmptyString → a +:+ b ≠ a.
Proof.
  intros Hb Heq. apply Hb. apply (append_inj_l a).
  rewrite Heq. symmetry. apply append_empty_r.
Qed.

Lemma lookup_assign cols c s c' :
  lookup_column (assign_column cols c s) c'
  = if decide (c = c') then Some s else lookup_column cols c'.
Proof.
  induction cols as [|[k s'] cols IH]; cbn.
  - destruct (String.eqb_spec c c'); by case_decide.
  - destruct (String.eqb_spec k c) as [->|Hk]; cbn.
    + destruct (String.eqb_spec c c'); by case_decide.
    + destruct (String.eqb_spec k c') as [->|Hk']; [by rewrite decide_False|done].
Qed.

Lemma column_set_eq df c s : column (set_column df c s) c = Some s.
Proof. unfold column, set_column. cbn. by rewrite lookup_assign, decide_True. Qed.

Lemma column_set_ne df c s c' : c ≠ c' → column (set_column df c s) c' = column df c'.
Proof. intros. unfold column, set_column. cbn. by rewrite lookup_assign, decide_False. Qed.

Lemma grows_refl df : grows df df.
Proof. by repeat split. Qed.

Lemma grows_trans df1 df2 df3 : grows df1 df2 → grows df2 df3 → grows df1 df3.
Proof.
  intros (Hn & Ht & Hc) (Hn' & Ht' & Hc'). repeat split; [congruence..|]. auto.
Qed.

Lemma grows_set_column df c s : grows df (set_column df c s).
Proof.
  repeat split. intros c' Hc'. unfold column, set_column. cbn.
  rewrite lookup_assign. by case_decide.
Qed.

Lemma getitem_Some df c s : column df c = Some s → getitem df c = inr s.
Proof. unfold getitem. by intros ->. Qed.

(** ** [create_lag_features] *)

Section lag_features.
Variable sqrt : Q → Q.

Lemma lag_loop (target_col : string) (s : Series) (ks : list nat) (df : DataFrame) :
  column df target_col = Some s →
  ∃ df',
    foldl (λ acc lag,
      let! df := acc in
      let! s := getitem df target_col in
      inr (set_column df (target_col +:+ "_lag_" +:+ pretty lag) (shift lag s)))
      (inr df) ks = inr df'
    ∧ grows df df' ∧ column df' target_col = Some s.
Proof.
  revert df. induction ks as [|k ks IH]; intros df Hs; cbn [foldl].
  - exists df. by split; [|split; [apply grows_refl|]].
  - cbn [bind]. rewrite (getitem_Some _ _ _ Hs). cbn [bind].
    destruct (IH (set_column df (target_col +:+ "_lag_" +:+ pretty k) (shift k s)))
      as (df' & Hdf' & Hgrows & Hcol).
    { rewrite column_set_ne; [done|]. by apply append_ne_self. }
    exists df'. split; [done|]. split; [|done].
    eapply grows_trans; [apply grows_set_column|done].
Qed.

Lemma create_lag_features_columns (df : DataFrame) (target_col : string) (s : Series) :
  column df target_col = Some s →
  ∃ df',
    create_lag_features sqrt df target_col = inr df'
    ∧ grows df df'
    ∧ column df' (target_col +:+ "_roll_mean_6") = Some (rolling_mean 6 1 s)
    ∧ column df' (target_col +:+ "_roll_std_6") = Some (rolling_std sqrt 6 1 s)
    ∧ column df' (target_col +:+ "_roll_mean_24") = Some (rolling_mean 24 1 s).
Proof.
  intros Hs. unfold create_lag_features.
  destruct (lag_loop target_col s lags df Hs) as (df1 & -> & Hgrows & Hs1). cbn [bind].
  assert (Hread : ∀ d suffix x,
    column d target_col = Some s → suffix ≠ EmptyString →
    column (set_column d (target_col +:+ suffix) x) target_col = Some s).
  { intros d suffix x Hd Hsuffix. rewrite column_set_ne; [done|]. by apply append_ne_self. }
  rewrite (getitem_Some _ _ _ Hs1). cbn [bind].
  rewrite (getitem_Some _ _ s) by (by apply Hread). cbn [bind].
  rewrite (getitem_Some _ _ s) by (by repeat apply Hread). cbn [bind].
  eexists. split; [reflexivity|]. split.
  { repeat (eapply grows_trans; [|apply grows_set_column]). done. }
  assert (Hne : ∀ a b : string, a ≠ b → target_col +:+ a ≠ target_col +:+ b).
  { intros a b Hab Heq. by apply Hab, (append_inj_l target_col). }
  repeat split.
  - rewrite !column_set_ne by (by apply Hne). apply column_set_eq.
  - rewrite column_set_ne by (by apply Hne). apply column_set_eq.
  - apply column_set_eq.
Qed.

End lag_features.

(** ** Rolling statistics *)

(** ** Feature preparation succeeds on well-formed input *)

Lemma has_column_Some df c : has_column df c = true ↔ is_Some (column df c).
Proof. unfold has_column. by rewrite bool_decide_eq_true. Qed.

Lemma create_time_features_grows df :
  is_Some (timestamp df) → ∃ df', create_time_features df = inr df' ∧ grows df df'.
Proof.
  intros [ts Hts]. unfold create_time_features. rewrite Hts. cbv zeta.
  eexists. split; [reflexivity|].
  repeat (eapply grows_trans; [|apply grows_set_column]). apply grows_refl.
Qed.

Lemma targets_loop_grows sqrt (targets : list string) (df : DataFrame) :
  ∃ df',
    foldl (λ acc target,
      let! df := acc in
      if has_column df target then create_lag_features sqrt df target else inr df)
      (inr df) targets = inr df'
    ∧ grows df df'.
Proof.
  revert df. induction targets as [|target targets IH]; intros df; cbn [foldl bind].
  - exists df. split; [done|apply grows_refl].
  - destruct (has_column df target) eqn:Hc.
    + apply has_column_Some in Hc as [s Hs].
      destruct (create_lag_features_columns sqrt df target s Hs) as (df1 & -> & Hg & _).
      destruct (IH df1) as (df' & -> & Hg'). exists df'. split; [done|].
      by eapply grows_trans.
    + apply IH.
Qed.

Lemma lookup_column_fmap (f : Series → Series) cols c :
  lookup_column (map (λ '(k, s), (k, f s)) cols) c = f <$> lookup_column cols c.
Proof.
  induction cols as [|[k s] cols IH]; [done|]. cbn.
  by destruct (String.eqb k c).
Qed.

Lemma grows_fillna df : grows df (fillna_ffill_bfill df).
Proof.
  repeat split. intros c [s Hs]. unfold column, fillna_ffill_bfill in *. cbn.
  rewrite (lookup_column_fmap (λ s, bfill (ffill s))), Hs. by eexists.
Qed.

Lemma prepare_features_grows sqrt self df :
  is_Some (timestamp df) →
  Forall (λ c, is_Some (column df c))
    ["admissions"; "discharges"; "bed_occupancy"; "oxygen_level"] →
  ∃ df', prepare_features sqrt self df = inr df' ∧ grows df df'.
Proof.
  intros Hts Hcols. unfold prepare_features.
  destruct (create_time_features_grows df Hts) as (df1 & -> & Hg1). cbn [bind].
  destruct (targets_loop_grows sqrt (target_columns self) df1) as (df2 & -> & Hg2).
  cbn [bind].
  assert (Hg : grows df df2) by (by eapply grows_trans).
  rewrite !Forall_cons in Hcols. destruct Hcols as (Hadm & Hdis & Hbed & Hoxy & _).
  assert (Hread : ∀ d c, grows df d → is_Some (column df c) → ∃ s, getitem d c = inr s).
  { intros d c (_ & _ & Hd) Hc. destruct (Hd c Hc) as [s Hs]. exists s.
    by apply getitem_Some. }
  destruct (Hread df2 "bed_occupancy" Hg Hbed) as [bed ->]. cbn [bind].
  destruct (Hread df2 "oxygen_level" Hg Hoxy) as [oxy ->]. cbn [bind].
  match goal with |- context [getitem ?d "admissions"] =>
    destruct (Hread d "admissions") as [adm ->];
      [eapply grows_trans; [exact Hg|apply grows_set_column]|done|]
  end.
  cbn [bind].
  match goal with |- context [getitem ?d "discharges"] =>
    destruct (Hread d "discharges") as [dis ->];
      [eapply grows_trans; [exact Hg|];
       eapply grows_trans; apply grows_set_column|done|]
  end.
  cbn [bind]. eexists. split; [reflexivity|].
  eapply grows_trans; [exact Hg|].
  eapply grows_trans; [|apply grows_fillna].
  repeat (eapply grows_trans; [|apply grows_set_column]). apply grows_refl.
Qed.

(** After the missing feature columns are set, every feature column is there. *)
Lemma fill_missing_features (cols missing : list string) (df : DataFrame) :
  (∀ c, c ∈ cols → is_Some (column df c) ∨ c ∈ missing) →
  let df' := foldl (λ d col, set_column d col (broadcast d (inject_Z 0))) df missing in
  grows df df' ∧ ∀ c, c ∈ cols → is_Some (column df' c).
Proof.
  revert df. induction missing as [|m missing IH]; intros df Hcols; cbn [foldl].
  - split; [apply grows_refl|]. intros c Hc.
    destruct (Hcols c Hc) as [?|Hin]; [done|]. by apply not_elem_of_nil in Hin.
  - destruct (IH (set_column df m (broadcast df (inject_Z 0)))) as [Hg Hall].
    { intros c Hc. destruct (Hcols c Hc) as [Hsome|Hin].
      - left. by apply grows_set_column.
      - apply elem_of_cons in Hin as [->|Hin]; [left|by right].
        rewrite column_set_eq. by eexists. }
    split; [|done]. eapply grows_trans; [apply grows_set_column|done].
Qed.

Lemma latest_rows_present (df : DataFrame) (cols : list string) :
  (∀ c, c ∈ cols → is_Some (column df c)) →
  ∃ X, latest_rows df cols = inr X ∧ (nrows df ≠ 0%nat → X ≠ []).
Proof.
  intros Hcols. unfold latest_rows.
  assert (∃ selected,
    foldr (λ c acc, let! s := getitem df c in let! rest := acc in inr (s :: rest))
      (inr []) cols = inr selected) as [selected ->].
  { induction cols as [|c cols IH]; cbn [foldr]; [by eexists|].
    destruct (Hcols c) as [s Hs]; [apply list_elem_of_here|].
    rewrite (getitem_Some _ _ _ Hs). cbn [bind].
    destruct IH as [rest ->]; [intros; by apply Hcols, list_elem_of_further|].
    cbn [bind]. by eexists. }
  cbn [bind]. eexists. split; [reflexivity|]. intros Hn.
  destruct (Nat.eqb_spec (nrows df) 0); done.
Qed.

(** ** The two loops of [predict_resources] *)

Section prediction_loops.
Context {V : Type}.
Implicit Types (P : gmap string (gmap string V)) (g : string → Exception + V).

Lemma lookup_set_item2 P t k v t' k' :
  set_item2 P t k v !! t' ≫= (.!! k')
  = if decide (t = t' ∧ k = k') then Some v else P !! t' ≫= (.!! k').
Proof.
  unfold set_item2. destruct (decide (t = t')) as [<-|Ht].
  - rewrite lookup_insert_eq. cbn. rewrite lookup_total_alt.
    destruct (decide (k = k')) as [<-|Hk].
    + rewrite lookup_insert_eq. by rewrite decide_True.
    + rewrite lookup_insert_ne by done. rewrite decide_False by tauto.
      destruct (P !! t); [done|]. cbn. apply lookup_empty.
  - rewrite lookup_insert_ne by done. by rewrite decide_False by tauto.
Qed.

Lemma foldl_bind_inl {A S} (step : S → A → Exception + S) e (l : list A) :
  foldl (λ acc a, let! s := acc in step s a) (inl e) l = inl e.
Proof. induction l as [|a l IH]; [done|]. cbn [foldl bind]. exact IH. Qed.

(** The inner loop, over items [hs] that are stored under [label h]. Two items
    with one label get one value. *)
Section inner.
Context {A : Type} (label : A → string) (f : A → Exception + V) (t : string).
Hypothesis compat : ∀ a b, label a = label b → f a = f b.

Lemma inner_loop_inv (hs : list A) P0 P :
  foldl (λ acc h, let! p := acc in let! v := f h in inr (set_item2 p t (label h) v))
    (inr P0) hs = inr P →
  (∀ h, h ∈ hs → ∃ v, f h = inr v ∧ P !! t ≫= (.!! label h) = Some v)
  ∧ (∀ t' k', ¬ (t' = t ∧ k' ∈ label <$> hs) →
       P !! t' ≫= (.!! k') = P0 !! t' ≫= (.!! k')).
Proof.
  revert P0. induction hs as [|a hs IH]; intros P0; cbn [foldl bind].
  - intros [= <-]. split; [|done]. intros h Hh. by apply not_elem_of_nil in Hh.
  - destruct (f a) as [e|v] eqn:Hfa; cbn [bind].
    { rewrite (foldl_bind_inl (λ p h, let! v := f h in inr (set_item2 p t (label h) v))).
      done. }
    intros HP. destruct (IH _ HP) as [Ha Hb]. split.
    + intros h Hh. destruct (decide (label h ∈ label <$> hs)) as [Hin|Hin].
      * apply list_elem_of_fmap in Hin as (b & Hlabel & Hb').
        destruct (Ha b Hb') as (vb & Hfb & Hlook). exists vb.
        rewrite (compat h b Hlabel), Hlabel. done.
      * apply elem_of_cons in Hh as [->|Hh].
        -- exists v. split; [done|]. rewrite Hb by tauto.
           rewrite lookup_set_item2. by rewrite decide_True.
        -- exfalso. apply Hin. apply list_elem_of_fmap. by exists h.
    + intros t' k' Hnot. rewrite fmap_cons, elem_of_cons in Hnot.
      rewrite Hb by tauto. rewrite lookup_set_item2. rewrite decide_False; [done|].
      intros [<- <-]. tauto.
Qed.

Lemma inner_loop_returns (hs : list A) P0 :
  (∀ h, h ∈ hs → ∃ v, f h = inr v) →
  ∃ P,
    foldl (λ acc h, let! p := acc in let! v := f h in inr (set_item2 p t (label h) v))
      (inr P0) hs = inr P.
Proof.
  revert P0. induction hs as [|a hs IH]; intros P0 Hf; cbn [foldl bind]; [by eexists|].
  destruct (Hf a) as [v ->]; [apply list_elem_of_here|]. cbn [bind].
  apply IH. intros h Hh. by apply Hf, list_elem_of_further.
Qed.

End inner.

(** The outer loop, over the targets, each with its own inner loop. *)
Section outer.
Context {A : Type} (label : A → string) (f : string → A → Exception + V).
Hypothesis compat : ∀ t a b, label a = label b → f t a = f t b.

Lemma outer_loop_inv (ts : list string) (hs : list A) P0 P :
  foldl (λ acc t,
    let! p := acc in
    foldl (λ acc h, let! p := acc in let! v := f t h in inr (set_item2 p t (label h) v))
      (inr (<[t := ∅]> p)) hs) (inr P0) ts = inr P →
  (∀ t h, t ∈ ts → h ∈ hs → ∃ v, f t h = inr v ∧ P !! t ≫= (.!! label h) = Some v)
  ∧ (∀ t' k', t' ∉ ts → P !! t' ≫= (.!! k') = P0 !! t' ≫= (.!! k')).
Proof.
  revert P0. induction ts as [|t ts IH]; intros P0; cbn [foldl bind].
  - intros [= <-]. split; [|done]. intros t h Ht. by apply not_elem_of_nil in Ht.
  - destruct (foldl _ (inr (<[t := ∅]> P0)) hs) as [e|P1] eqn:Hinner.
    { rewrite (foldl_bind_inl (λ p t,
        foldl (λ acc h, let! p := acc in let! v := f t h in
                        inr (set_item2 p t (label h) v)) (inr (<[t := ∅]> p)) hs)).
      done. }
    intros HP. destruct (IH _ HP) as [Ha Hb].
    destruct (inner_loop_inv label (f t) t (compat t) hs _ _ Hinner) as [Ha1 Hb1].
    split.
    + intros t' h Ht' Hh. destruct (decide (t' ∈ ts)) as [Hin|Hin]; [by apply Ha|].
      apply elem_of_cons in Ht' as [->|Ht']; [|done].
      destruct (Ha1 h Hh) as (v & Hv & Hlook). exists v. split; [done|].
      by rewrite Hb.
    + intros t' k' Hnot. rewrite elem_of_cons in Hnot.
      rewrite Hb by tauto. rewrite Hb1 by (intros [-> _]; tauto).
      rewrite lookup_insert_ne; [done|]. intros ->. tauto.
Qed.

Lemma outer_loop_returns (ts : list string) (hs : list A) P0 :
  (∀ t h, t ∈ ts → h ∈ hs → ∃ v, f t h = inr v) →
  ∃ P,
    foldl (λ acc t,
      let! p := acc in
      foldl (λ acc h, let! p := acc in let! v := f t h in inr (set_item2 p t (label h) v))
        (inr (<[t := ∅]> p)) hs) (inr P0) ts = inr P.
Proof.
  revert P0. induction ts as [|t ts IH]; intros P0 Hf; cbn [foldl bind]; [by eexists|].
  destruct (inner_loop_returns label (f t) t hs (<[t := ∅]> P0)) as [P1 ->].
  { intros h Hh. apply Hf; [apply list_elem_of_here|done]. }
  apply IH. intros t' h Ht' Hh. apply Hf; [by apply list_elem_of_further|done].
Qed.

End outer.

End prediction_loops.

(** ** One forecast *)

Lemma forecast_compat self df X t h h' :
  horizon_label h = horizon_label h' → forecast self df X t h = forecast self df X t h'.
Proof.
  intros Heq. unfold forecast, model_name. unfold horizon_label in Heq. by rewrite Heq.
Qed.

Lemma py_max_nonneg x : (inject_Z 0 <= py_max (inject_Z 0) x)%Q.
Proof.
  unfold py_max. destruct (Qgt_bool x (inject_Z 0)) eqn:Hx.
  - apply Qgt_bool_true in Hx. by apply Qlt_le_weak.
  - apply Qle_refl.
Qed.

Lemma forecast_registered self df X t h model v :
  models self !! model_name t h = Some model → forecast self df X t h = inr v → nonneg v.
Proof.
  intros Hm. unfold forecast. rewrite Hm.
  destruct (map model X) as [|pred rest]; [done|]. intros [= <-]. apply py_max_nonneg.
Qed.

Lemma forecast_unregistered self df X t h v :
  models self !! model_name t h = None → forecast self df X t h = inr v →
  match column df t with
  | Some s => last s = Some v
  | None => v = Some (inject_Z 0)
  end.
Proof.
  intros Hm. unfold forecast, has_column, getitem, iloc_last. rewrite Hm.
  destruct (column df t) as [s|].
  - rewrite bool_decide_eq_true_2 by (by eexists). cbn [bind].
    destruct (last s); [|done]. by intros [= <-].
  - rewrite bool_decide_eq_false_2 by (by intros [? ?]). by intros [= <-].
Qed.

Lemma forecast_returns self df X t h :
  X ≠ [] → (∀ s, column df t = Some s → s ≠ []) → ∃ v, forecast self df X t h = inr v.
Proof.
  intros HX Hs. unfold forecast, has_column, getitem, iloc_last.
  destruct (models self !! model_name t h) as [model|].
  - destruct X as [|row X]; [done|]. by eexists.
  - destruct (column df t) as [s|] eqn:Hcol.
    + rewrite bool_decide_eq_true_2 by (by eexists). cbn [bind].
      destruct (last s) eqn:Hlast; [by eexists|].
      apply last_None in Hlast. by destruct (Hs s).
    + rewrite bool_decide_eq_false_2 by (by intros [? ?]). by eexists.
Qed.

Lemma full_columns cols c s (n : nat) :
  Forall (λ '(_, s), length s = n) cols → lookup_column cols c = Some s → length s = n.
Proof.
  induction 1 as [|[k s'] cols Hk _ IH]; [done|]. cbn.
  destruct (String.eqb k c); [by intros [= <-]|done].
Qed.

(** ** Forecasts *)

Lemma returns_returned {A} `{Empty A} (r : Exception + A) :
  returns r = true → r = inr (returned r).
Proof. by destruct r. Qed.

(** C4, as stated, fails: a pair with no registered model gets the latest
    observed value as it is, and that value can be negative. *)
Lemma forecast_nonneg_counterexample :
  predict_resources isqrt one_model (Dict negative_state) [1; 2] = inr negative_forecast
  ∧ forecast_at negative_forecast "admissions" 2 = Some (Some (inject_Z (-2)))
  ∧ ¬ nonneg (Some (inject_Z (-2))).
Proof.
  split; [apply returns_returned; by vm_compute|]. split; [by vm_compute|].
  cbn. intros H. by vm_compute in H.
Qed.

(** C4, amended. Every forecast that a registered model produces is a number
    not below zero, whatever the sign of the raw regressor output, for every
    target resource and every requested horizon; a forecast for a pair with no
    registered model is not below zero whenever the resource's latest observed
    value is not. *)
Theorem forecast_nonneg sqrt self data horizons predictions target horizon :
  predict_resources sqrt self data horizons = inr predictions →
  target ∈ target_columns self → horizon ∈ horizons →
  ∃ v, forecast_at predictions target horizon = Some v
       ∧ (is_Some (models self !! model_name target horizon) → nonneg v)
       ∧ (models self !! model_name target horizon = None →
          (∀ observed, latest_observed data target = Some observed → nonneg observed) →
          nonneg v).
Proof.
  unfold predict_resources. cbv zeta.
  destruct (prepare_features sqrt self (input_frame data)) as [e|dff]; [done|]. cbn [bind].
  destruct (latest_rows _ _) as [e|X]; [done|]. cbn [bind].
  intros Hloops Ht Hh.
  apply (outer_loop_inv horizon_label (forecast self (input_frame data) X)) in Hloops
    as [Hvalues _]; [|intros; by apply forecast_compat].
  destruct (Hvalues target horizon Ht Hh) as (v & Hv & Hlook).
  exists v. split; [exact Hlook|]. split.
  - intros [model Hm]. by eapply forecast_registered.
  - intros Hm Hobs. pose proof (forecast_unregistered _ _ _ _ _ _ Hm Hv) as Hlast.
    unfold latest_observed in Hobs.
    destruct (column (input_frame data) target) as [s|]; cbn in Hobs.
    + by apply Hobs.
    + subst v. apply Qle_refl.
Qed.

Lemma forecast_nonneg_witness :
  predict_resources isqrt one_model (Dict main_current_state) [1; 2] = inr main_forecast
  ∧ "admissions" ∈ target_columns one_model ∧ 1 ∈ [1; 2]
  ∧ ∃ v, forecast_at main_forecast "admissions" 1 = Some v
         ∧ (is_Some (models one_model !! model_name "admissions" 1) → nonneg v)
         ∧ (models one_model !! model_name "admissions" 1 = None →
            (∀ observed,
               latest_observed (Dict main_current_state) "admissions" = Some observed →
               nonneg observed) →
            nonneg v).
Proof.
  assert (predict_resources isqrt one_model (Dict main_current_state) [1; 2]
          = inr main_forecast) as Hp by (apply returns_returned; vm_compute; reflexivity).
  assert ("admissions" ∈ target_columns one_model) as Ht
    by (apply (bool_decide_unpack _); vm_compute; exact I).
  assert (1 ∈ [1; 2]) as Hh by (apply (bool_decide_unpack _); vm_compute; exact I).
  split; [exact Hp|]. split; [exact Ht|]. split; [exact Hh|].
  exact (forecast_nonneg isqrt one_model (Dict main_current_state) [1; 2] main_forecast
           "admissions" 1 Hp Ht Hh).
Defined.

(** C5. For a (resource, horizon) pair with no registered model, on
    well-formed input that holds the resource, [predict_resources] returns
    (it does not raise) and its forecast for the pair is the resource's latest
    observed value, unchanged. *)
Theorem unregistered_pair_carries_forward sqrt self data horizons target horizon :
  well_formed (input_frame data) →
  is_Some (column (input_frame data) target) →
  target ∈ target_columns self → horizon ∈ horizons →
  models self !! model_name target horizon = None →
  ∃ predictions observed,
    predict_resources sqrt self data horizons = inr predictions
    ∧ latest_observed data target = Some observed
    ∧ forecast_at predictions target horizon = Some observed.
Proof.
  intros (Hrows & Hts & Hcols & Hfull) [s Hs] Ht Hh Hm.
  unfold predict_resources. cbv zeta.
  destruct (prepare_features_grows sqrt self _ Hts Hcols) as (dff & -> & Hgrows).
  cbn [bind].
  set (missing := filter _ _).
  destruct (fill_missing_features (feature_columns self) missing dff) as [Hg Hall].
  { intros c Hc. destruct (has_column dff c) eqn:Hhas.
    - left. by apply has_column_Some.
    - right. apply list_elem_of_filter. split; [|done]. rewrite Hhas. cbn. tauto. }
  destruct (latest_rows_present _ _ Hall) as (X & -> & HX). cbn [bind].
  assert (X ≠ []) as HX'.
  { apply HX. destruct Hg as (-> & _), Hgrows as (-> & _). done. }
  destruct (outer_loop_returns horizon_label (forecast self (input_frame data) X)
              (target_columns self) horizons ∅) as [P HP].
  { intros t h _ _. apply forecast_returns; [done|]. intros s' Hs' ->.
    apply (full_columns _ _ _ _ Hfull) in Hs'. cbn in Hs'. lia. }
  pose proof HP as Hinv.
  apply outer_loop_inv in Hinv as [Hvalues _]; [|intros; by apply forecast_compat].
  destruct (Hvalues target horizon Ht Hh) as (v & Hv & Hlook).
  pose proof (forecast_unregistered _ _ _ _ _ _ Hm Hv) as Hlast. rewrite Hs in Hlast.
  exists P, v. split; [exact HP|]. split; [|exact Hlook].
  unfold latest_observed. by rewrite Hs.
Qed.

(** Every request of the API layer is well-formed input. *)
Lemma api_request_well_formed ts admissions discharges bed_occupancy oxygen_level
    occupancy_rate :
  well_formed (input_frame (Dict (api_request ts admissions discharges bed_occupancy
                                    oxygen_level occupancy_rate))).
Proof.
  unfold well_formed. split; [by vm_compute|]. split; [by eexists|]. split.
  - repeat (apply List.Forall_cons; [vm_compute; by eexists|]). apply List.Forall_nil.
  - vm_compute. repeat (apply List.Forall_cons; [reflexivity|]). apply List.Forall_nil.
Qed.

Lemma main_current_state_well_formed : well_formed (input_frame (Dict main_current_state)).
Proof.
  exact (api_request_well_formed {| hour := 10; dayofweek := 2; month := 11 |} 8 6 180
           (inject_Z 1200) (inject_Z 72)).
Qed.

Lemma unregistered_pair_carries_forward_witness :
  well_formed (input_frame (Dict main_current_state))
  ∧ is_Some (column (input_frame (Dict main_current_state)) "oxygen_level")
  ∧ "oxygen_level" ∈ target_columns one_model ∧ 2 ∈ [1; 2]
  ∧ models one_model !! model_name "oxygen_level" 2 = None
  ∧ ∃ predictions observed,
      predict_resources isqrt one_model (Dict main_current_state) [1; 2] = inr predictions
      ∧ latest_observed (Dict main_current_state) "oxygen_level" = Some observed
      ∧ forecast_at predictions "oxygen_level" 2 = Some observed.
Proof.
  assert (is_Some (column (input_frame (Dict main_current_state)) "oxygen_level")) as Hc
    by (vm_compute; by eexists).
  assert ("oxygen_level" ∈ target_columns one_model) as Ht
    by (apply (bool_decide_unpack _); vm_compute; exact I).
  assert (2 ∈ [1; 2]) as Hh by (apply (bool_decide_unpack _); vm_compute; exact I).
  assert (models one_model !! model_name "oxygen_level" 2 = None) as Hm
    by (vm_compute; reflexivity).
  split; [exact main_current_state_well_formed|].
  split; [exact Hc|]. split; [exact Ht|]. split; [exact Hh|]. split; [exact Hm|].
  exact (unregistered_pair_carries_forward isqrt one_model (Dict main_current_state) [1; 2]
           "oxygen_level" 2 main_current_state_well_formed Hc Ht Hh Hm).
Defined.

(** * Further properties of the optimizer *)

(** A constraint that a statement adds is there when the problem is solved. *)
Ltac added :=
  match goal with |- In ?c (pulp.constraints ?final) =>
    match final with context [add_constraint ?p c] =>
      let Hin := fresh "Hin" in
      assert (In c (pulp.constraints (add_constraint p c))) as Hin
        by apply add_constraint_In;
      generalize dependent (add_constraint p c); intros ? Hin;
      eapply extends_In; [|exact Hin]; extends
    end
  end.

Lemma Qgt_bool_false a b : Qgt_bool a b = false ↔ (a <= b)%Q.
Proof.
  unfold Qgt_bool. rewrite negb_false_iff. apply Qle_bool_iff.
Qed.

(** The doctor minimums of a busy and of a quiet forecast. *)
Lemma assemble_doctor_minimums cs pd c admissions :
  pd !! "admissions" = Some admissions →
  ((inject_Z 12 < admissions)%Q →
     In (var_ge (item2 staff_vars "Doctors" "Morning") 12 "High_Admission_Doctors_Morning")
        (pulp.constraints (assemble cs pd c))
     ∧ In (var_ge (item2 staff_vars "Doctors" "Evening") 10 "High_Admission_Doctors_Evening")
          (pulp.constraints (assemble cs pd c)))
  ∧ ((admissions < inject_Z 5)%Q →
     In (var_ge (item2 staff_vars "Doctors" "Morning") 8 "Low_Admission_Doctors_Morning")
        (pulp.constraints (assemble cs pd c))
     ∧ In (var_ge (item2 staff_vars "Doctors" "Evening") 6 "Low_Admission_Doctors_Evening")
          (pulp.constraints (assemble cs pd c))).
Proof.
  intros Hadm. split; intros Hcmp.
  - apply Qgt_bool_true in Hcmp.
    split; unfold assemble; cbv zeta;
      (eapply extends_In; [apply custom_extends, operational_extends, extends_refl|]);
      unfold _add_demand_constraints; cbv zeta; rewrite Hadm, Hcmp; added.
  - assert (Qgt_bool admissions (inject_Z 12) = false) as Hhigh.
    { apply Qgt_bool_false. apply Qlt_le_weak. eapply Qlt_trans; [exact Hcmp|]. done. }
    apply Qlt_bool_true in Hcmp.
    split; unfold assemble; cbv zeta;
      (eapply extends_In; [apply custom_extends, operational_extends, extends_refl|]);
      unfold _add_demand_constraints; cbv zeta; rewrite Hadm, Hhigh, Hcmp; added.
Qed.

Lemma assemble_support_minimum cs pd c sh :
  (inject_Z 200 < total_activity pd)%Q → sh ∈ ["Morning"; "Evening"] →
  In (var_ge (item2 staff_vars "Support_Staff" sh) 8 ("High_Activity_Support_" +:+ sh))
     (pulp.constraints (assemble cs pd c)).
Proof.
  intros Hact Hsh. unfold assemble. cbv zeta.
  eapply extends_In; [apply custom_extends, operational_extends, extends_refl|].
  unfold _add_demand_constraints. cbv zeta.
  match goal with |- context [Qgt_bool ?x (inject_Z 200)] =>
    replace (Qgt_bool x (inject_Z 200)) with true
  end.
  - apply (foldl_adds _ _ sh); [intros; extends|done|intros; apply add_constraint_In].
  - symmetry. apply Qgt_bool_true. exact Hact.
Qed.

Lemma assemble_night_floors cs pd c :
  In (var_ge (item2 staff_vars "Doctors" "Night") 5 "Min_Night_Doctors")
     (pulp.constraints (assemble cs pd c))
  ∧ In (var_ge (item2 staff_vars "Nurses" "Night") 10 "Min_Night_Nurses")
       (pulp.constraints (assemble cs pd c)).
Proof.
  split; unfold assemble; cbv zeta;
    (eapply extends_In; [apply custom_extends, extends_refl|]);
    unfold _add_operational_constraints; cbv zeta; added.
Qed.

Lemma assemble_weekend cs pd c st :
  80 < total_current cs → st ∈ ["Nurses"; "Doctors"] →
  In {| lhs := [(1, item2 staff_vars st "Morning"); (1, item2 staff_vars st "Evening")];
        csense := LpConstraintGE;
        rhs := inject_Z (py_int (inject_Z
                 (foldr Z.add 0 (map (λ s, get2 cs st s 5) ["Morning"; "Evening"]))
                 * (9 # 10)));
        cname := "Weekend_" +:+ st |}
     (pulp.constraints (assemble cs pd c)).
Proof.
  intros Htotal Hst. unfold assemble. cbv zeta.
  eapply extends_In; [apply custom_extends, extends_refl|].
  unfold _add_operational_constraints. cbv zeta. fold (total_current cs).
  replace (80 <? total_current cs) with true by (symmetry; by apply Z.ltb_lt).
  apply (foldl_adds _ _ st); [intros; extends|done|intros; apply add_constraint_In].
Qed.

Lemma assemble_custom cs pd (cd : gmap string Q) :
  (∀ b, cd !! "max_budget" = Some b →
     In {| lhs := cost_expression staff_vars; csense := LpConstraintLE;
           rhs := b; cname := "Budget_Constraint" |}
        (pulp.constraints (assemble cs pd (Some cd))))
  ∧ (∀ n, cd !! "min_total_staff" = Some n →
       In {| lhs := staff_expression staff_vars; csense := LpConstraintGE;
             rhs := n; cname := "Min_Total_Staff" |}
          (pulp.constraints (assemble cs pd (Some cd))))
  ∧ (∀ n, cd !! "max_total_staff" = Some n →
       In {| lhs := staff_expression staff_vars; csense := LpConstraintLE;
             rhs := n; cname := "Max_Total_Staff" |}
          (pulp.constraints (assemble cs pd (Some cd)))).
Proof.
  assert (Hdom : ∀ k x, cd !! k = Some x → bool_decide (dom cd = ∅) = false).
  { intros k x Hk. apply bool_decide_eq_false. intros Hempty.
    apply dom_empty_iff_L in Hempty. subst cd. by rewrite lookup_empty in Hk. }
  repeat split; intros x Hx; unfold assemble, _add_custom_constraints; cbv zeta;
    rewrite (Hdom _ _ Hx), Hx; added.
Qed.

Lemma extract_efficiency_metrics vars prob st varValue :
  efficiency_metrics (_extract_solution vars prob st varValue)
  = _calculate_efficiency_metrics
      (optimized_allocation (_extract_solution vars prob st varValue))
  ∧ cost_breakdown (_extract_solution vars prob st varValue)
    = _calculate_cost_breakdown
        (optimized_allocation (_extract_solution vars prob st varValue)).
Proof. unfold _extract_solution. by destruct (foldl _ _ _). Qed.

(** The head count that the metrics report is the double sum over the loops
    that filled the allocation. *)
Lemma total_staff_fill (f : string → string → Z) :
  total_staff (_calculate_efficiency_metrics
    (foldl (λ a k1, foldl (λ a k2, set_item2 a k1 k2 (f k1 k2)) (<[k1 := ∅]> a) shifts)
       ∅ staff_types))
  = foldr Z.add 0 (map (λ k1, foldr Z.add 0 (map (λ k2, f k1 k2) shifts)) staff_types).
Proof.
  unfold _calculate_efficiency_metrics. cbv zeta. cbn [total_staff].
  apply (dict_sum_fill (λ _ _ n, n) f); [apply staff_types_NoDup|apply shifts_NoDup].
Qed.

(** On the optimal path the totals of the result are the values of the
    problem's two expressions at the solver's point. *)
Lemma optimal_path_totals solve cs pd c r :
  sound solve → optimize_allocation solve cs pd c = inr r → status r = "optimal" →
  ∃ varValue,
    feasible (assemble cs pd c) varValue = true
    ∧ (∀ st sh, st ∈ staff_types → sh ∈ shifts →
         count_at (optimized_allocation r) st sh
         = Some (varValue (name (item2 staff_vars st sh))))
    ∧ total_cost r = value varValue (cost_expression staff_vars)
    ∧ total_staff (efficiency_metrics r) = value varValue (staff_expression staff_vars).
Proof.
  intros Hsound Hr Hstatus.
  apply optimize_allocation_inv in Hr as [(v & Hsolve & ->)|(s & v & _ & _ & ->)];
    [|done].
  exists v. split; [by apply Hsound|]. cbn [sol]. split.
  { intros st sh Hst Hsh. by apply extract_allocation_lookup. }
  split.
  - rewrite (proj2 (extract_allocation _ _ _ _)).
    unfold value, cost_expression, staff_types, shifts. cbn [foldl foldr map app]. ring.
  - rewrite (proj1 (extract_efficiency_metrics _ _ _ _)), (proj1 (extract_allocation _ _ _ _)).
    rewrite (total_staff_fill (λ k1 k2, v (name (item2 staff_vars k1 k2)))).
    unfold value, staff_expression, staff_types, shifts. cbn [foldl foldr map app]. ring.
Qed.

Lemma fixed_pair st sh :
  bool_decide (st ∈ staff_types) = true → bool_decide (sh ∈ shifts) = true →
  st ∈ staff_types ∧ sh ∈ shifts.
Proof. by rewrite !bool_decide_eq_true. Qed.

(** ** Demand-derived minimums *)

(** X1. On the optimal path (the solver being sound), predicted admissions
    above 12 give at least 12 morning and 10 evening doctors, and predicted
    admissions below 5 give at least 8 and 6. *)
Theorem doctor_minimums_met solve cs pd c r admissions :
  sound solve → pd !! "admissions" = Some admissions →
  optimize_allocation solve cs pd c = inr r → status r = "optimal" →
  ∃ morning evening,
    count_at (optimized_allocation r) "Doctors" "Morning" = Some morning
    ∧ count_at (optimized_allocation r) "Doctors" "Evening" = Some evening
    ∧ ((inject_Z 12 < admissions)%Q → 12 ≤ morning ∧ 10 ≤ evening)
    ∧ ((admissions < inject_Z 5)%Q → 8 ≤ morning ∧ 6 ≤ evening).
Proof.
  intros Hsound Hadm Hr Hopt.
  destruct (optimal_path _ _ _ _ _ Hsound Hr Hopt) as (v & Hf & Hcount).
  destruct (fixed_pair "Doctors" "Morning" eq_refl eq_refl) as [Hst Hm].
  destruct (fixed_pair "Doctors" "Evening" eq_refl eq_refl) as [_ He].
  exists (v (name (item2 staff_vars "Doctors" "Morning"))),
         (v (name (item2 staff_vars "Doctors" "Evening"))).
  split; [by apply Hcount|]. split; [by apply Hcount|].
  destruct (assemble_doctor_minimums cs pd c _ Hadm) as [Hhigh Hlow].
  split; intros Hcmp.
  - destruct (Hhigh Hcmp) as [H1 H2].
    apply (feasible_holds _ _ _ Hf), holds_var_ge in H1.
    apply (feasible_holds _ _ _ Hf), holds_var_ge in H2. done.
  - destruct (Hlow Hcmp) as [H1 H2].
    apply (feasible_holds _ _ _ Hf), holds_var_ge in H1.
    apply (feasible_holds _ _ _ Hf), holds_var_ge in H2. done.
Qed.

Lemma doctor_minimums_met_witness :
  ∃ morning evening,
    count_at (optimized_allocation ward_result) "Doctors" "Morning" = Some morning
    ∧ count_at (optimized_allocation ward_result) "Doctors" "Evening" = Some evening
    ∧ ((inject_Z 12 < inject_Z 14)%Q → 12 ≤ morning ∧ 10 ≤ evening)
    ∧ ((inject_Z 14 < inject_Z 5)%Q → 8 ≤ morning ∧ 6 ≤ evening).
Proof.
  apply (doctor_minimums_met corner_solver ward_current_staff main_predicted_demand
           main_constraints ward_result (inject_Z 14)).
  - apply corner_solver_sound.
  - vm_compute. reflexivity.
  - apply ward_optimal.
  - reflexivity.
Defined.

(** X2. On the optimal path, when the float sum of predicted admissions and
    predicted bed occupancy exceeds 200 (the sum as the code forms it, from 0
    on, each addition rounded to the nearest float), the morning and the
    evening shift each get at least 8 support staff. *)
Theorem support_minimum_met solve cs pd c r sh :
  sound solve → (inject_Z 200 < total_activity pd)%Q →
  optimize_allocation solve cs pd c = inr r → status r = "optimal" →
  sh ∈ ["Morning"; "Evening"] →
  ∃ n, count_at (optimized_allocation r) "Support_Staff" sh = Some n ∧ 8 ≤ n.
Proof.
  intros Hsound Hact Hr Hopt Hsh.
  destruct (optimal_path _ _ _ _ _ Hsound Hr Hopt) as (v & Hf & Hcount).
  exists (v (name (item2 staff_vars "Support_Staff" sh))). split.
  - apply Hcount; [by apply (fixed_pair "Support_Staff" "Morning")|].
    unfold shifts. rewrite !elem_of_cons in *. tauto.
  - pose proof (assemble_support_minimum cs pd c sh Hact Hsh) as Hge.
    by apply (feasible_holds _ _ _ Hf), holds_var_ge in Hge.
Qed.

(** X3. On the optimal path the night shift has at least 5 doctors and at
    least 10 nurses, whatever the inputs. *)
Theorem night_floors_met solve cs pd c r :
  sound solve → optimize_allocation solve cs pd c = inr r → status r = "optimal" →
  ∃ doctors nurses,
    count_at (optimized_allocation r) "Doctors" "Night" = Some doctors
    ∧ count_at (optimized_allocation r) "Nurses" "Night" = Some nurses
    ∧ 5 ≤ doctors ∧ 10 ≤ nurses.
Proof.
  intros Hsound Hr Hopt.
  destruct (optimal_path _ _ _ _ _ Hsound Hr Hopt) as (v & Hf & Hcount).
  exists (v (name (item2 staff_vars "Doctors" "Night"))),
         (v (name (item2 staff_vars "Nurses" "Night"))).
  split; [by apply Hcount; apply (fixed_pair "Doctors" "Night")|].
  split; [by apply Hcount; apply (fixed_pair "Nurses" "Night")|].
  destruct (assemble_night_floors cs pd c) as [Hd Hn].
  apply (feasible_holds _ _ _ Hf), holds_var_ge in Hd.
  apply (feasible_holds _ _ _ Hf), holds_var_ge in Hn. done.
Qed.

Lemma night_floors_met_witness :
  ∃ doctors nurses,
    count_at (optimized_allocation ward_result) "Doctors" "Night" = Some doctors
    ∧ count_at (optimized_allocation ward_result) "Nurses" "Night" = Some nurses
    ∧ 5 ≤ doctors ∧ 10 ≤ nurses.
Proof.
  apply (night_floors_met corner_solver ward_current_staff main_predicted_demand
           main_constraints ward_result).
  - apply corner_solver_sound.
  - apply ward_optimal.
  - reflexivity.
Defined.

Lemma busy_optimal :
  optimize_allocation corner_solver ward_current_staff busy_predicted_demand
    main_constraints = inr busy_result.
Proof.
  unfold optimize_allocation. cbv zeta. fold busy_problem. rewrite corner_solver_on.
  replace (feasible busy_problem (lower_corner busy_problem)) with true by (by vm_compute).
  reflexivity.
Qed.

Lemma support_minimum_met_witness :
  ∃ n, count_at (optimized_allocation busy_result) "Support_Staff" "Evening" = Some n ∧ 8 ≤ n.
Proof.
  apply (support_minimum_met corner_solver ward_current_staff busy_predicted_demand
           main_constraints busy_result "Evening").
  - apply corner_solver_sound.
  - vm_compute. reflexivity.
  - apply busy_optimal.
  - reflexivity.
  - apply (bool_decide_unpack _). vm_compute. exact I.
Defined.

(** The sum is the float sum: a term too small for the float next to 200
    leaves it at 200, and the support minimum is not added. *)
Lemma total_activity_absorbs :
  Qeq_bool
    (total_activity {[ "admissions" := 1 # 100000000000000; "bed_occupancy" := inject_Z 200 ]})
    (inject_Z 200) = true
  ∧ Forall (λ shift,
      ("High_Activity_Support_" +:+ shift)
      ∉ map cname
          (pulp.constraints
             (assemble ward_current_staff
                {[ "admissions" := 1 # 100000000000000; "bed_occupancy" := inject_Z 200 ]}
                main_constraints)))
      ["Morning"; "Evening"].
Proof.
  split; [vm_compute; reflexivity|].
  repeat (apply List.Forall_cons; [apply (bool_decide_unpack _); vm_compute; exact I|]).
  apply List.Forall_nil.
Qed.

(** ** Operational and custom constraints *)

(** X4. On the optimal path the caller's constraints hold of the result: its
    [total_cost] is within [max_budget], and the head count that its
    efficiency metrics report is at least [min_total_staff] and at most
    [max_total_staff], for each of the three keys that is supplied. *)
Theorem custom_constraints_met solve cs pd (cd : gmap string Q) r :
  sound solve → optimize_allocation solve cs pd (Some cd) = inr r → status r = "optimal" →
  (∀ b, cd !! "max_budget" = Some b → (inject_Z (total_cost r) <= b)%Q)
  ∧ (∀ n, cd !! "min_total_staff" = Some n →
       (n <= inject_Z (total_staff (efficiency_metrics r)))%Q)
  ∧ (∀ n, cd !! "max_total_staff" = Some n →
       (inject_Z (total_staff (efficiency_metrics r)) <= n)%Q).
Proof.
  intros Hsound Hr Hopt.
  destruct (optimal_path_totals _ _ _ _ _ Hsound Hr Hopt) as (v & Hf & _ & -> & ->).
  destruct (assemble_custom cs pd cd) as (Hbudget & Hmin & Hmax).
  repeat split; intros x Hx.
  - apply Hbudget, (feasible_holds _ _ _ Hf) in Hx. by apply Qle_bool_iff in Hx.
  - apply Hmin, (feasible_holds _ _ _ Hf) in Hx. by apply Qle_bool_iff in Hx.
  - apply Hmax, (feasible_holds _ _ _ Hf) in Hx. by apply Qle_bool_iff in Hx.
Qed.

Lemma custom_constraints_met_witness :
  (∀ b, ({[ "max_budget" := inject_Z 15000; "min_total_staff" := inject_Z 60 ]}
           : gmap string Q) !! "max_budget" = Some b →
        (inject_Z (total_cost ward_result) <= b)%Q)
  ∧ (∀ n, ({[ "max_budget" := inject_Z 15000; "min_total_staff" := inject_Z 60 ]}
             : gmap string Q) !! "min_total_staff" = Some n →
       (n <= inject_Z (total_staff (efficiency_metrics ward_result)))%Q)
  ∧ (∀ n, ({[ "max_budget" := inject_Z 15000; "min_total_staff" := inject_Z 60 ]}
             : gmap string Q) !! "max_total_staff" = Some n →
       (inject_Z (total_staff (efficiency_metrics ward_result)) <= n)%Q).
Proof.
  apply (custom_constraints_met corner_solver ward_current_staff main_predicted_demand).
  - apply corner_solver_sound.
  - apply ward_optimal.
  - reflexivity.
Defined.

(** X5. On the optimal path, when the current head count over the whole of
    [current_staff] exceeds 80, the morning and evening counts of nurses, and
    those of doctors, add up to at least int(0.9 * (current morning + current
    evening)), a pair absent from [current_staff] counting as 5. *)
Theorem weekend_floor_met solve cs pd c r st :
  sound solve → 80 < total_current cs →
  optimize_allocation solve cs pd c = inr r → status r = "optimal" →
  st ∈ ["Nurses"; "Doctors"] →
  ∃ morning evening,
    count_at (optimized_allocation r) st "Morning" = Some morning
    ∧ count_at (optimized_allocation r) st "Evening" = Some evening
    ∧ py_int (inject_Z (default 5 (count_at cs st "Morning")
                        + default 5 (count_at cs st "Evening")) * (9 # 10))
      ≤ morning + evening.
Proof.
  intros Hsound Htotal Hr Hopt Hst.
  destruct (optimal_path _ _ _ _ _ Hsound Hr Hopt) as (v & Hf & Hcount).
  assert (st ∈ staff_types) as Hst'.
  { unfold staff_types. rewrite !elem_of_cons in *. tauto. }
  exists (v (name (item2 staff_vars st "Morning"))),
         (v (name (item2 staff_vars st "Evening"))).
  split; [apply Hcount; [done|by apply (fixed_pair "Nurses" "Morning")]|].
  split; [apply Hcount; [done|by apply (fixed_pair "Nurses" "Evening")]|].
  pose proof (assemble_weekend cs pd c st Htotal Hst) as Hge.
  apply (feasible_holds _ _ _ Hf) in Hge. unfold holds, value in Hge.
  cbn [csense lhs rhs foldr map] in Hge.
  apply Qle_bool_iff in Hge. rewrite <- Zle_Qle in Hge.
  rewrite !get2_count_at, Z.add_0_r in Hge. lia.
Qed.

Lemma weekend_floor_met_witness :
  ∃ morning evening,
    count_at (optimized_allocation ward_result) "Nurses" "Morning" = Some morning
    ∧ count_at (optimized_allocation ward_result) "Nurses" "Evening" = Some evening
    ∧ py_int (inject_Z (default 5 (count_at ward_current_staff "Nurses" "Morning")
                        + default 5 (count_at ward_current_staff "Nurses" "Evening"))
              * (9 # 10))
      ≤ morning + evening.
Proof.
  apply (weekend_floor_met corner_solver ward_current_staff main_predicted_demand
           main_constraints ward_result "Nurses").
  - apply corner_solver_sound.
  - vm_compute. reflexivity.
  - apply ward_optimal.
  - reflexivity.
  - apply (bool_decide_unpack _). vm_compute. exact I.
Defined.

(** ** Demand out of reach *)

(** X6. When the nurse minimum of a shift is above 50, or above what the
    stability band of the current nurse count of that shift allows, no sound
    solver finds the problem optimal: the result is the heuristic fallback. *)
Theorem nurse_demand_out_of_reach solve cs pd c r bed_occupancy sh :
  sound solve → pd !! "bed_occupancy" = Some bed_occupancy → sh ∈ shifts →
  (50 < nurse_minimum bed_occupancy sh
   ∨ ∃ current_count,
       count_at cs "Nurses" sh = Some current_count
       ∧ current_count + stability_band current_count < nurse_minimum bed_occupancy sh) →
  optimize_allocation solve cs pd c = inr r →
  status r = "fallback" ∧ solver_status r = "heuristic_fallback".
Proof.
  intros Hsound Hbo Hsh Hreach Hr.
  destruct (decide (status r = "optimal")) as [Hopt|Hopt].
  - exfalso.
    destruct (optimal_path _ _ _ _ _ Hsound Hr Hopt) as (v & Hf & _).
    assert ("Nurses" ∈ staff_types) as Hst by (apply (bool_decide_unpack _); by vm_compute).
    pose proof (assemble_nurse_minimum cs pd c _ _ Hbo Hsh) as Hge.
    apply (feasible_holds _ _ _ Hf), holds_var_ge in Hge.
    rewrite nurse_ratios_lookup, py_int_floor_max in Hge by (done || lia).
    fold (nurse_minimum bed_occupancy sh) in Hge.
    destruct Hreach as [Hbig|(cur & Hcur & Hband)].
    + destruct (staff_vars_in_objective _ _ Hst Hsh) as (Hin & _ & Hup).
      rewrite <- (assemble_objective cs pd c) in Hin.
      apply (feasible_bounds _ _ _ _ Hf) in Hin. lia.
    + destruct (assemble_stability cs pd c _ _ _ Hst Hsh Hcur) as [_ Hle].
      apply (feasible_holds _ _ _ Hf), holds_var_le in Hle.
      rewrite max_change_band in Hle. lia.
  - apply optimize_allocation_inv in Hr as [(v & _ & ->)|(s & v & _ & _ & ->)]; done.
Qed.

Lemma nurse_demand_out_of_reach_witness :
  status main_result = "fallback" ∧ solver_status main_result = "heuristic_fallback".
Proof.
  apply (nurse_demand_out_of_reach corner_solver main_current_staff main_predicted_demand
           main_constraints main_result (inject_Z 180) "Morning").
  - apply corner_solver_sound.
  - vm_compute. reflexivity.
  - apply (bool_decide_unpack _). vm_compute. exact I.
  - right. exists 20. split; [vm_compute; reflexivity|]. vm_compute. reflexivity.
  - apply main_falls_back.
Defined.

(** * The cost breakdown and the efficiency metrics *)

(** Whatever the path, the result's allocation is filled by the two loops, and
    its breakdown and metrics are computed from that allocation. *)
Lemma result_is_filled solve cs pd c r :
  optimize_allocation solve cs pd c = inr r →
  ∃ f, optimized_allocation r = filled f
       ∧ cost_breakdown r = _calculate_cost_breakdown (filled f)
       ∧ efficiency_metrics r = _calculate_efficiency_metrics (filled f)
       ∧ total_cost r = over_staff_types (λ st, over_shifts (λ sh,
                          f st sh * item2 base_costs st sh)).
Proof.
  intros Hr.
  apply optimize_allocation_inv in Hr as [(v & _ & ->)|(s & v & _ & _ & ->)]; cbn [sol].
  - exists (λ k1 k2, v (name (item2 staff_vars k1 k2))).
    destruct (extract_allocation staff_vars (assemble cs pd c) LpStatusOptimal v)
      as [Halloc Hcost].
    destruct (extract_efficiency_metrics staff_vars (assemble cs pd c) LpStatusOptimal v)
      as [Hm Hb].
    rewrite Hm, Hb, Halloc, Hcost. unfold filled, over_staff_types, over_shifts.
    split; [reflexivity|split; [reflexivity|split; reflexivity]].
  - exists (fallback_count cs pd). unfold _fallback_solution. cbv zeta.
    cbn [optimized_allocation cost_breakdown efficiency_metrics total_cost].
    split; [reflexivity|split; [reflexivity|split; [reflexivity|]]].
    apply (dict_sum_fill (λ st sh count, count * item2 base_costs st sh)
             (fallback_count cs pd)); [apply staff_types_NoDup|apply shifts_NoDup].
Qed.

Lemma filled_row f st :
  st ∈ staff_types →
  filled f !! st = Some (foldl (λ r k2, <[k2 := f st k2]> r) ∅ shifts).
Proof.
  intros Hst. unfold filled. rewrite fill_rows.
  rewrite (foldl_insert_lookup (λ k1, foldl (λ r k2, <[k2 := f k1 k2]> r) ∅ shifts)).
  by rewrite decide_True.
Qed.

Lemma filled_count f st sh :
  st ∈ staff_types → sh ∈ shifts → count_at (filled f) st sh = Some (f st sh).
Proof. intros. by apply (fill_lookup f). Qed.

Lemma filled_item f st sh :
  st ∈ staff_types → sh ∈ shifts → item2 (filled f) st sh = f st sh.
Proof.
  intros Hst Hsh. unfold item2. rewrite !lookup_total_alt, (filled_row f st Hst).
  cbn [from_option id]. rewrite (foldl_insert_lookup (f st)). by rewrite decide_True.
Qed.

(** X7. In every result the cost breakdown agrees with the allocation: each
    staff type has an entry, whose per-shift entries carry the returned count,
    the rate of the fixed table and their product, whose ['total'] is the sum
    of those products, and the totals of the three staff types add up to the
    result's [total_cost]. *)
Theorem cost_breakdown_consistent solve cs pd c r :
  optimize_allocation solve cs pd c = inr r →
  (∀ st, st ∈ staff_types →
     ∃ b, cost_breakdown r !! st = Some b
          ∧ (∀ sh, sh ∈ shifts →
               ∃ n, count_at (optimized_allocation r) st sh = Some n
                    ∧ per_shift b !! sh
                      = Some {| count := n; rate := item2 base_costs st sh;
                                cost := n * item2 base_costs st sh |})
          ∧ total b = over_shifts (λ sh,
                        default 0 (count_at (optimized_allocation r) st sh)
                        * item2 base_costs st sh))
  ∧ over_staff_types (λ st, default 0 (total <$> cost_breakdown r !! st)) = total_cost r.
Proof.
  intros Hr. destruct (result_is_filled _ _ _ _ _ Hr) as (f & -> & -> & _ & ->).
  assert (Hentry : ∀ st, st ∈ staff_types →
    _calculate_cost_breakdown (filled f) !! st
    = Some {| per_shift :=
                map_imap (λ shift count,
                  Some {| count := count; rate := item2 base_costs st shift;
                          cost := count * item2 base_costs st shift |})
                  (foldl (λ r k2, <[k2 := f st k2]> r) ∅ shifts);
              total := over_shifts (λ sh, f st sh * item2 base_costs st sh) |}).
  { intros st Hst. unfold _calculate_cost_breakdown.
    rewrite map_lookup_imap, (filled_row f st Hst). cbn [mbind option_bind].
    do 2 f_equal.
    rewrite (dict_sum_foldl_insert _ (f st)); [|apply shifts_NoDup|done].
    by rewrite dict_sum_empty. }
  split.
  - intros st Hst. eexists. split; [by apply Hentry|]. cbn [per_shift total]. split.
    + intros sh Hsh. exists (f st sh). split; [by apply filled_count|].
      rewrite map_lookup_imap, (foldl_insert_lookup (f st)). by rewrite decide_True.
    + unfold over_shifts. f_equal. apply map_ext_in. intros sh Hsh.
      apply list_elem_of_In in Hsh. by rewrite filled_count.
  - unfold over_staff_types. f_equal. apply map_ext_in. intros st Hst.
    apply list_elem_of_In in Hst. by rewrite Hentry.
Qed.

Lemma cost_breakdown_consistent_witness :
  (∀ st, st ∈ staff_types →
     ∃ b, cost_breakdown main_result !! st = Some b
          ∧ (∀ sh, sh ∈ shifts →
               ∃ n, count_at (optimized_allocation main_result) st sh = Some n
                    ∧ per_shift b !! sh
                      = Some {| count := n; rate := item2 base_costs st sh;
                                cost := n * item2 base_costs st sh |})
          ∧ total b = over_shifts (λ sh,
                        default 0 (count_at (optimized_allocation main_result) st sh)
                        * item2 base_costs st sh))
  ∧ over_staff_types (λ st, default 0 (total <$> cost_breakdown main_result !! st))
    = total_cost main_result.
Proof.
  apply (cost_breakdown_consistent corner_solver main_current_staff main_predicted_demand
           main_constraints main_result).
  apply main_falls_back.
Defined.

(** X8. In every result the efficiency metrics agree with the allocation:
    [total_staff] is the head count over all pairs, [staff_distribution]
    holds for each staff type its head count over the shifts, and
    [shift_coverage] holds for each shift its head count over the staff
    types, so that both add up to [total_staff]. *)
Theorem efficiency_metrics_consistent solve cs pd c r :
  optimize_allocation solve cs pd c = inr r →
  total_staff (efficiency_metrics r) = table_staff (optimized_allocation r)
  ∧ (∀ st, st ∈ staff_types →
       staff_distribution (efficiency_metrics r) !! st
       = Some (over_shifts (λ sh, default 0 (count_at (optimized_allocation r) st sh))))
  ∧ (∀ sh, sh ∈ shifts →
       shift_coverage (efficiency_metrics r) !! sh
       = Some (over_staff_types (λ st,
                 default 0 (count_at (optimized_allocation r) st sh))))
  ∧ over_staff_types (λ st,
      default 0 (staff_distribution (efficiency_metrics r) !! st))
    = total_staff (efficiency_metrics r)
  ∧ over_shifts (λ sh, default 0 (shift_coverage (efficiency_metrics r) !! sh))
    = total_staff (efficiency_metrics r).
Proof.
  intros Hr. destruct (result_is_filled _ _ _ _ _ Hr) as (f & -> & _ & -> & _).
  assert (Hdist : ∀ st, st ∈ staff_types →
    staff_distribution (_calculate_efficiency_metrics (filled f)) !! st
    = Some (over_shifts (λ sh, f st sh))).
  { intros st Hst. unfold _calculate_efficiency_metrics. cbv zeta.
    cbn [staff_distribution]. rewrite lookup_fmap, (filled_row f st Hst).
    cbn [fmap option_fmap option_map]. f_equal.
    rewrite (dict_sum_foldl_insert _ (f st)); [|apply shifts_NoDup|done].
    by rewrite dict_sum_empty. }
  assert (Hcover : ∀ sh, sh ∈ shifts →
    shift_coverage (_calculate_efficiency_metrics (filled f)) !! sh
    = Some (over_staff_types (λ st, f st sh))).
  { intros sh Hsh. unfold _calculate_efficiency_metrics. cbv zeta.
    cbn [shift_coverage].
    rewrite (foldl_insert_lookup
               (λ shift, dict_sum (λ staff_type _, item2 (filled f) staff_type shift)
                           (filled f))).
    rewrite decide_True by done. f_equal.
    unfold filled at 2. rewrite fill_rows.
    rewrite (dict_sum_foldl_insert _
               (λ k1, foldl (λ r k2, <[k2 := f k1 k2]> r) ∅ shifts));
      [|apply staff_types_NoDup|done].
    rewrite dict_sum_empty, Z.add_0_l. unfold over_staff_types. f_equal.
    apply map_ext_in. intros st Hst. apply list_elem_of_In in Hst.
    by apply filled_item. }
  assert (Htotal : total_staff (_calculate_efficiency_metrics (filled f))
                   = over_staff_types (λ st, over_shifts (λ sh, f st sh))).
  { unfold filled, over_staff_types, over_shifts. exact (total_staff_fill f). }
  assert (Hcount : ∀ st sh, st ∈ staff_types → sh ∈ shifts →
            default 0 (count_at (filled f) st sh) = f st sh).
  { intros st sh Hst Hsh. by rewrite filled_count. }
  split; [|split; [|split; [|split]]].
  - rewrite Htotal. unfold table_staff, over_staff_types, over_shifts, staff_types, shifts.
    cbn [list_prod map foldr app].
    rewrite !Hcount by (apply (bool_decide_unpack _); by vm_compute). ring.
  - intros st Hst. rewrite Hdist by done. f_equal. unfold over_shifts. f_equal.
    apply map_ext_in. intros sh Hsh. apply list_elem_of_In in Hsh. by rewrite Hcount.
  - intros sh Hsh. rewrite Hcover by done. f_equal. unfold over_staff_types. f_equal.
    apply map_ext_in. intros st Hst. apply list_elem_of_In in Hst. by rewrite Hcount.
  - rewrite Htotal. unfold over_staff_types. f_equal. apply map_ext_in. intros st Hst.
    apply list_elem_of_In in Hst. by rewrite Hdist.
  - rewrite Htotal. unfold over_staff_types, over_shifts, staff_types, shifts.
    cbn [map foldr].
    rewrite !Hcover by (apply (bool_decide_unpack _); by vm_compute).
    unfold over_staff_types, staff_types. cbn [map foldr from_option id]. ring.
Qed.

Lemma efficiency_metrics_consistent_witness :
  total_staff (efficiency_metrics ward_result) = table_staff (optimized_allocation ward_result)
  ∧ (∀ st, st ∈ staff_types →
       staff_distribution (efficiency_metrics ward_result) !! st
       = Some (over_shifts (λ sh,
                 default 0 (count_at (optimized_allocation ward_result) st sh))))
  ∧ (∀ sh, sh ∈ shifts →
       shift_coverage (efficiency_metrics ward_result) !! sh
       = Some (over_staff_types (λ st,
                 default 0 (count_at (optimized_allocation ward_result) st sh))))
  ∧ over_staff_types (λ st,
      default 0 (staff_distribution (efficiency_metrics ward_result) !! st))
    = total_staff (efficiency_metrics ward_result)
  ∧ over_shifts (λ sh, default 0 (shift_coverage (efficiency_metrics ward_result) !! sh))
    = total_staff (efficiency_metrics ward_result).
Proof.
  apply (efficiency_metrics_consistent corner_solver ward_current_staff
           main_predicted_demand main_constraints ward_result).
  apply ward_optimal.
Defined.

(** * Recommendations *)

(** Two nested loops are one loop over the pairs. *)
Lemma foldl_list_prod {A B S} (F : S → A → B → S) (la : list A) (lb : list B) (s0 : S) :
  foldl (λ acc a, foldl (λ acc b, F acc a b) acc lb) s0 la
  = foldl (λ acc '(a, b), F acc a b) s0 (list_prod la lb).
Proof.
  revert s0. induction la as [|a la IH]; intros s0; [done|].
  cbn [foldl list_prod]. rewrite foldl_app, IH. f_equal.
  clear IH. generalize s0. induction lb as [|b lb IHb]; intros s; [done|]. cbn. apply IHb.
Qed.

Lemma elem_of_pairs {A B} (la : list A) (lb : list B) a b :
  (a, b) ∈ list_prod la lb ↔ a ∈ la ∧ b ∈ lb.
Proof. rewrite !list_elem_of_In. apply in_prod_iff. Qed.

Lemma foldl_pairs_inl {A B S} (step : S → A → B → Exception + S) e (l : list (A * B)) :
  foldl (λ acc '(a, b), let! s := acc in step s a b) (inl e) l = inl e.
Proof. induction l as [|[a b] l IH]; [done|]. cbn [foldl bind]. exact IH. Qed.

Lemma getitem2_count_at {V} (d : gmap string (gmap string V)) st sh :
  getitem2 d st sh
  = match d !! st ≫= (.!! sh) with
    | Some v => inr v
    | None => inl (KeyError (match d !! st with Some _ => sh | None => st end))
    end.
Proof. unfold getitem2. destruct (d !! st) as [row|]; cbn; [|done]. by destruct (row !! sh). Qed.

Section recommendations.
Variables current optimized : gmap string (gmap string Z).

(** The lines of the pairs [ps], in the order of the loops. *)
Lemma recommendations_loop_returns (ps : list (string * string)) (lines : list string) :
  (∀ st sh, (st, sh) ∈ ps → is_Some (count_at optimized st sh)) →
  foldl (λ acc '(staff_type, shift),
    let! recommendations := acc in
    let! optimized := getitem2 optimized staff_type shift in
    inr (recommendations
         ++ recommendation staff_type shift (get2 current staff_type shift 0) optimized))
    (inr lines) ps
  = inr (lines ++ flat_map (λ '(st, sh),
           recommendation st sh (default 0 (count_at current st sh))
             (default 0 (count_at optimized st sh))) ps).
Proof.
  revert lines. induction ps as [|[st sh] ps IH]; intros lines Hall; cbn [foldl flat_map].
  - by rewrite app_nil_r.
  - destruct (Hall st sh) as [n Hn]; [apply list_elem_of_here|].
    cbn [bind]. rewrite getitem2_count_at. unfold count_at in *. rewrite Hn. cbn [bind].
    rewrite IH by (intros; by apply Hall, list_elem_of_further).
    rewrite get2_count_at. unfold count_at. cbn [from_option id].
    by rewrite <- app_assoc.
Qed.

Lemma recommendations_loop_raises (ps : list (string * string)) acc st sh :
  (st, sh) ∈ ps → count_at optimized st sh = None →
  (∀ lines, acc ≠ inl IndexError ∧ acc ≠ inl (PulpSolverError lines)) →
  ∃ key,
    foldl (λ acc '(staff_type, shift),
      let! recommendations := acc in
      let! optimized := getitem2 optimized staff_type shift in
      inr (recommendations
           ++ recommendation staff_type shift (get2 current staff_type shift 0) optimized))
      acc ps
    = inl (KeyError key).
Proof.
  revert acc. induction ps as [|[st' sh'] ps IH]; intros acc Hin Hnone Hacc.
  - by apply not_elem_of_nil in Hin.
  - cbn [foldl]. destruct acc as [e|lines].
    + destruct e as [msg|key|]; [by destruct (Hacc msg)| |by destruct (Hacc EmptyString)].
      exists key. cbn [bind].
      apply (foldl_pairs_inl (λ (lines : list string) staff_type shift,
        let! optimized := getitem2 optimized staff_type shift in
        inr (lines ++ recommendation staff_type shift (get2 current staff_type shift 0)
                        optimized))).
    + cbn [bind]. rewrite getitem2_count_at.
      destruct (optimized !! st' ≫= (.!! sh')) as [n|] eqn:Hn; cbn [bind].
      * apply elem_of_cons in Hin as [[= -> ->]|Hin].
        { unfold count_at in Hnone. congruence. }
        apply IH; [done..|]. intros msg. split; discriminate.
      * eexists.
        apply (foldl_pairs_inl (λ (lines : list string) staff_type shift,
          let! optimized := getitem2 optimized staff_type shift in
          inr (lines ++ recommendation staff_type shift (get2 current staff_type shift 0)
                          optimized))).
Qed.

Lemma generate_recommendations_loops :
  generate_recommendations current optimized
  = let! recommendations :=
      foldl (λ acc '(staff_type, shift),
        let! recommendations := acc in
        let! optimized := getitem2 optimized staff_type shift in
        inr (recommendations
             ++ recommendation staff_type shift (get2 current staff_type shift 0) optimized))
        (inr []) (list_prod staff_types shifts) in
    inr (match recommendations with
         | [] => ["Current staff allocation is optimal"]
         | _ => recommendations
         end).
Proof.
  unfold generate_recommendations. cbv zeta.
  by rewrite (foldl_list_prod (λ acc staff_type shift,
    let! recommendations := acc in
    let! optimized := getitem2 optimized staff_type shift in
    inr (recommendations
         ++ recommendation staff_type shift (get2 current staff_type shift 0) optimized))).
Qed.

End recommendations.

Lemma recommendation_length st sh current optimized :
  length (recommendation st sh current optimized)
  = if decide (current ≠ optimized) then 1%nat else 0%nat.
Proof.
  unfold recommendation.
  destruct (Z.ltb_spec current optimized); [by rewrite decide_True by lia|].
  destruct (Z.ltb_spec optimized current); [by rewrite decide_True by lia|].
  by rewrite decide_False by lia.
Qed.

Lemma recommendation_line st sh current optimized line :
  line ∈ recommendation st sh current optimized →
  line ≠ "Current staff allocation is optimal".
Proof.
  unfold recommendation. intros Hin ->.
  destruct (current <? optimized); [|destruct (optimized <? current)].
  - apply list_elem_of_singleton in Hin. vm_compute in Hin. discriminate.
  - apply list_elem_of_singleton in Hin. vm_compute in Hin. discriminate.
  - by apply not_elem_of_nil in Hin.
Qed.

Lemma flat_map_filter_length {A B} (g : A → list B) (P : A → Prop) `{∀ x, Decision (P x)}
    (l : list A) :
  (∀ x, length (g x) = if decide (P x) then 1%nat else 0%nat) →
  length (flat_map g l) = length (filter P l).
Proof.
  intros Hg. induction l as [|x l IH]; [done|].
  cbn [flat_map]. rewrite length_app, Hg, filter_cons.
  destruct (decide (P x)); cbn; by rewrite IH.
Qed.

(** X9. When the optimized allocation holds a count for every pair of the
    fixed sets, [generate_recommendations] returns a list that is never
    empty: the single line "Current staff allocation is optimal" exactly when
    no pair differs from the current allocation (an absent current count
    being 0), and otherwise one line for each pair that differs. *)
Theorem recommendations_report_changes current optimized :
  (∀ st sh, st ∈ staff_types → sh ∈ shifts → is_Some (count_at optimized st sh)) →
  ∃ lines,
    generate_recommendations current optimized = inr lines
    ∧ lines ≠ []
    ∧ (changed_pairs current optimized = []
       ↔ lines = ["Current staff allocation is optimal"])
    ∧ (changed_pairs current optimized ≠ [] →
       length lines = length (changed_pairs current optimized)).
Proof.
  intros Hall. rewrite generate_recommendations_loops.
  rewrite recommendations_loop_returns.
  2: { intros st sh Hin. apply elem_of_pairs in Hin as [? ?]. by apply Hall. }
  cbn [bind app].
  set (lines := flat_map _ _).
  assert (Hlen : length lines = length (changed_pairs current optimized)).
  { apply flat_map_filter_length. intros [st sh]. apply recommendation_length. }
  assert (Hline : ∀ line, line ∈ lines → line ≠ "Current staff allocation is optimal").
  { intros line Hin. apply list_elem_of_In, in_flat_map in Hin as ([st sh] & _ & Hin).
    apply list_elem_of_In in Hin. by eapply recommendation_line. }
  eexists. split; [reflexivity|].
  destruct lines as [|line lines'] eqn:Hlines.
  - split; [done|]. split; [|intros Hne; destruct Hne; by apply nil_length_inv].
    split; [done|]. intros _. by apply nil_length_inv.
  - split; [done|]. split; [|done]. split.
    + intros Hnil. rewrite Hnil in Hlen. done.
    + intros [= -> ->]. exfalso. by apply (Hline _ (list_elem_of_here _ _)).
Qed.

Lemma recommendations_report_changes_witness :
  ∃ lines,
    generate_recommendations main_current_staff (optimized_allocation main_result)
    = inr lines
    ∧ lines ≠ []
    ∧ (changed_pairs main_current_staff (optimized_allocation main_result) = []
       ↔ lines = ["Current staff allocation is optimal"])
    ∧ (changed_pairs main_current_staff (optimized_allocation main_result) ≠ [] →
       length lines
       = length (changed_pairs main_current_staff (optimized_allocation main_result))).
Proof.
  apply (recommendations_report_changes main_current_staff
           (optimized_allocation main_result)).
  intros st sh Hst Hsh. unfold main_result. cbn [sol].
  rewrite fallback_allocation_lookup by done. by eexists.
Defined.

(** X10. When the optimized allocation lacks a pair of the fixed sets,
    [generate_recommendations] raises a [KeyError]. *)
Theorem recommendations_missing_pair current optimized st sh :
  st ∈ staff_types → sh ∈ shifts → count_at optimized st sh = None →
  ∃ key, generate_recommendations current optimized = inl (KeyError key).
Proof.
  intros Hst Hsh Hnone. rewrite generate_recommendations_loops.
  destruct (recommendations_loop_raises current optimized (list_prod staff_types shifts)
              (inr []) st sh) as [key ->]; [by apply elem_of_pairs|done| |by exists key].
  intros msg. split; discriminate.
Qed.

Lemma recommendations_missing_pair_witness :
  ∃ key, generate_recommendations main_current_staff ward_current_staff = inl (KeyError key).
Proof.
  apply (recommendations_missing_pair main_current_staff ward_current_staff
           "Support_Staff" "Night").
  - apply (bool_decide_unpack _). vm_compute. exact I.
  - apply (bool_decide_unpack _). vm_compute. exact I.
  - vm_compute. reflexivity.
Defined.

(** X11. The fallback counts a pair that is absent from the current
    allocation from 5, but the recommendations read the same pair as 0: run
    on the fallback's allocation they ask to increase the pair from 0 to the
    fallback's count. *)
Theorem absent_pair_recommended cs pd st sh :
  st ∈ staff_types → sh ∈ shifts → count_at cs st sh = None →
  ∃ lines,
    generate_recommendations cs (optimized_allocation (_fallback_solution cs pd)) = inr lines
    ∧ ("Increase " +:+ st +:+ " for " +:+ sh +:+ " shift: 0 → "
       +:+ pretty (Z.max 1 (5 + adjustment pd sh))
       +:+ " (+" +:+ pretty (Z.max 1 (5 + adjustment pd sh)) +:+ ")") ∈ lines.
Proof.
  intros Hst Hsh Hnone. rewrite generate_recommendations_loops.
  rewrite recommendations_loop_returns.
  2: { intros st' sh' Hin. apply elem_of_pairs in Hin as [? ?].
       rewrite fallback_allocation_lookup by done. by eexists. }
  cbn [bind app].
  set (lines := flat_map _ _).
  assert (Hin : ("Increase " +:+ st +:+ " for " +:+ sh +:+ " shift: 0 → "
                 +:+ pretty (Z.max 1 (5 + adjustment pd sh))
                 +:+ " (+" +:+ pretty (Z.max 1 (5 + adjustment pd sh)) +:+ ")") ∈ lines).
  { apply list_elem_of_In, in_flat_map. exists (st, sh).
    split; [by apply list_elem_of_In, elem_of_pairs|].
    rewrite fallback_allocation_lookup, fallback_count_adjustment, Hnone by done.
    cbn [from_option id]. unfold recommendation.
    destruct (Z.ltb_spec 0 (Z.max 1 (5 + adjustment pd sh))) as [_|]; [|lia].
    rewrite Z.sub_0_r. left. reflexivity. }
  destruct lines as [|line lines']; [by apply not_elem_of_nil in Hin|].
  eexists. split; [reflexivity|exact Hin].
Qed.

Lemma absent_pair_recommended_witness :
  ∃ lines,
    generate_recommendations ward_current_staff
      (optimized_allocation (_fallback_solution ward_current_staff main_predicted_demand))
    = inr lines
    ∧ ("Increase " +:+ "Support_Staff" +:+ " for " +:+ "Night" +:+ " shift: 0 → "
       +:+ pretty (Z.max 1 (5 + adjustment main_predicted_demand "Night"))
       +:+ " (+" +:+ pretty (Z.max 1 (5 + adjustment main_predicted_demand "Night"))
       +:+ ")") ∈ lines.
Proof.
  apply (absent_pair_recommended ward_current_staff main_predicted_demand
           "Support_Staff" "Night").
  - apply (bool_decide_unpack _). vm_compute. exact I.
  - apply (bool_decide_unpack _). vm_compute. exact I.
  - vm_compute. reflexivity.
Defined.

(** * Further properties of the pipeline *)

(** ** Lag features *)

Lemma shift_lookup (k : nat) (s : Series) (t : nat) :
  (t < length s)%nat →
  shift k s !! t = if decide (t < k)%nat then Some None else s !! (t - k)%nat.
Proof.
  intros Ht. unfold shift. rewrite lookup_take_lt by done.
  destruct (decide (t < k)%nat).
  - rewrite lookup_app_l by (by rewrite length_replicate). by apply lookup_replicate_2.
  - rewrite lookup_app_r by (rewrite length_replicate; lia). by rewrite length_replicate.
Qed.

(** The loop over the lags: each lag gets its own column, and no later
    iteration writes it again with another value. *)
Lemma lag_loop_values (target_col : string) (s : Series) (ks seen : list nat)
    (df : DataFrame) :
  column df target_col = Some s →
  (∀ k, k ∈ seen → column df (target_col +:+ "_lag_" +:+ pretty k) = Some (shift k s)) →
  ∃ df',
    foldl (λ acc lag,
      let! df := acc in
      let! s := getitem df target_col in
      inr (set_column df (target_col +:+ "_lag_" +:+ pretty lag) (shift lag s)))
      (inr df) ks = inr df'
    ∧ column df' target_col = Some s
    ∧ ∀ k, k ∈ seen ++ ks →
        column df' (target_col +:+ "_lag_" +:+ pretty k) = Some (shift k s).
Proof.
  revert df seen. induction ks as [|k ks IH]; intros df seen Hs Hseen; cbn [foldl].
  - exists df. rewrite app_nil_r. done.
  - cbn [bind]. rewrite (getitem_Some _ _ _ Hs). cbn [bind].
    destruct (IH (set_column df (target_col +:+ "_lag_" +:+ pretty k) (shift k s))
                (seen ++ [k])) as (df' & Hdf' & Hcol & Hall).
    { rewrite column_set_ne; [done|]. by apply append_ne_self. }
    { intros k' Hk'. destruct (decide (k' = k)) as [->|Hne]; [apply column_set_eq|].
      rewrite column_set_ne.
      - apply Hseen. apply elem_of_app in Hk' as [?|Hk']; [done|].
        by apply list_elem_of_singleton in Hk'.
      - intros Heq. apply append_inj_l, append_inj_l in Heq.
        by apply Hne, (inj pretty). }
    exists df'. split; [done|]. split; [done|].
    intros k' Hk'. apply Hall. by rewrite <- app_assoc.
Qed.

(** X12. [create_lag_features] on a frame that holds the target column: the
    column of lag [k] holds, at a row [t], the target's value [k] rows
    earlier, and NaN at the first [k] rows. *)
Theorem lag_features_hold_earlier_rows sqrt df target_col s k t :
  column df target_col = Some s → k ∈ lags → (t < length s)%nat →
  ∃ df',
    create_lag_features sqrt df target_col = inr df'
    ∧ column df' (target_col +:+ "_lag_" +:+ pretty k) ≫= (.!! t)
      = if decide (t < k)%nat then Some None else s !! (t - k)%nat.
Proof.
  intros Hs Hk Ht. unfold create_lag_features.
  destruct (lag_loop_values target_col s lags [] df Hs) as (df1 & -> & Hs1 & Hlags).
  { intros k' Hk'. by apply not_elem_of_nil in Hk'. }
  cbn [bind].
  assert (Hread : ∀ d suffix x,
    column d target_col = Some s → suffix ≠ EmptyString →
    column (set_column d (target_col +:+ suffix) x) target_col = Some s).
  { intros d suffix x Hd Hsuffix. rewrite column_set_ne; [done|]. by apply append_ne_self. }
  rewrite (getitem_Some _ _ _ Hs1). cbn [bind].
  rewrite (getitem_Some _ _ s) by (by apply Hread). cbn [bind].
  rewrite (getitem_Some _ _ s) by (by repeat apply Hread). cbn [bind].
  eexists. split; [reflexivity|].
  rewrite !column_set_ne
    by (intros Heq; apply append_inj_l in Heq; discriminate Heq).
  rewrite (Hlags k Hk). cbn [mbind option_bind]. by apply shift_lookup.
Qed.

Lemma lag_features_hold_earlier_rows_witness :
  ∃ df',
    create_lag_features isqrt three_rows "admissions" = inr df'
    ∧ column df' ("admissions" +:+ "_lag_" +:+ pretty 2%nat) ≫= (.!! 2%nat)
      = if decide (2 < 2)%nat then Some None
        else [Some (inject_Z 8); Some (inject_Z 9); Some (inject_Z 7)] !! (2 - 2)%nat.
Proof.
  apply (lag_features_hold_earlier_rows isqrt three_rows "admissions"
           [Some (inject_Z 8); Some (inject_Z 9); Some (inject_Z 7)] 2 2).
  - reflexivity.
  - apply (bool_decide_unpack _). vm_compute. exact I.
  - cbn. lia.
Defined.

(** ** What a call of [predict_resources] returns *)

(** The keys of the dict that the two loops fill: none is lost, and every
    target gets one. *)
Section prediction_keys.
Context {V A : Type} (label : A → string).

Lemma set_item2_keys (P : gmap string (gmap string V)) t k v t' :
  is_Some (P !! t') → is_Some (set_item2 P t k v !! t').
Proof.
  intros Hsome. unfold set_item2. destruct (decide (t = t')) as [->|Hne].
  - rewrite lookup_insert_eq. by eexists.
  - by rewrite lookup_insert_ne.
Qed.

Lemma inner_loop_keys (f : A → Exception + V) t (hs : list A) P0 P t' :
  foldl (λ acc h, let! p := acc in let! v := f h in inr (set_item2 p t (label h) v))
    (inr P0) hs = inr P →
  is_Some (P0 !! t') → is_Some (P !! t').
Proof.
  revert P0. induction hs as [|a hs IH]; intros P0; cbn [foldl bind].
  - by intros [= <-].
  - destruct (f a) as [e|v]; cbn [bind].
    { rewrite (foldl_bind_inl (λ p h, let! v := f h in inr (set_item2 p t (label h) v))).
      done. }
    intros HP Hsome. apply (IH _ HP). by apply set_item2_keys.
Qed.

Lemma outer_loop_keys (f : string → A → Exception + V) (ts : list string) (hs : list A)
    P0 P t' :
  foldl (λ acc t,
    let! p := acc in
    foldl (λ acc h, let! p := acc in let! v := f t h in inr (set_item2 p t (label h) v))
      (inr (<[t := ∅]> p)) hs) (inr P0) ts = inr P →
  t' ∈ ts ∨ is_Some (P0 !! t') → is_Some (P !! t').
Proof.
  revert P0. induction ts as [|t ts IH]; intros P0; cbn [foldl bind].
  - intros [= <-] [Hin|Hsome]; [by apply not_elem_of_nil in Hin|done].
  - destruct (foldl _ (inr (<[t := ∅]> P0)) hs) as [e|P1] eqn:Hinner.
    { rewrite (foldl_bind_inl (λ p t,
        foldl (λ acc h, let! p := acc in let! v := f t h in
                        inr (set_item2 p t (label h) v)) (inr (<[t := ∅]> p)) hs)).
      done. }
    intros HP Hin. apply (IH _ HP).
    destruct (decide (t' ∈ ts)) as [Hts|Hts]; [by left|]. right.
    apply (inner_loop_keys (f t) t hs _ _ _ Hinner).
    destruct (decide (t = t')) as [->|Hne].
    + rewrite lookup_insert_eq. by eexists.
    + rewrite lookup_insert_ne by done. destruct Hin as [Hin|Hsome]; [|done].
      by apply elem_of_cons in Hin as [->|Hin].
Qed.

End prediction_keys.

Lemma predict_resources_returns sqrt self data horizons :
  well_formed (input_frame data) →
  ∃ predictions, predict_resources sqrt self data horizons = inr predictions.
Proof.
  intros (Hrows & Hts & Hcols & Hfull).
  unfold predict_resources. cbv zeta.
  destruct (prepare_features_grows sqrt self _ Hts Hcols) as (dff & -> & Hgrows).
  cbn [bind].
  set (missing := filter _ _).
  destruct (fill_missing_features (feature_columns self) missing dff) as [Hg Hall].
  { intros c Hc. destruct (has_column dff c) eqn:Hhas.
    - left. by apply has_column_Some.
    - right. apply list_elem_of_filter. split; [|done]. rewrite Hhas. cbn. tauto. }
  destruct (latest_rows_present _ _ Hall) as (X & -> & HX). cbn [bind].
  assert (X ≠ []) as HX'.
  { apply HX. destruct Hg as (-> & _), Hgrows as (-> & _). done. }
  apply (outer_loop_returns horizon_label (forecast self (input_frame data) X)).
  intros t h _ _. apply forecast_returns; [done|]. intros s' Hs' ->.
  apply (full_columns _ _ _ _ Hfull) in Hs'. cbn in Hs'. lia.
Qed.

Lemma predict_resources_keys sqrt self data horizons predictions :
  predict_resources sqrt self data horizons = inr predictions →
  (∀ target horizon, target ∈ target_columns self → horizon ∈ horizons →
     is_Some (forecast_at predictions target horizon))
  ∧ (∀ target horizon, target ∉ target_columns self →
       forecast_at predictions target horizon = None)
  ∧ (∀ target, target ∈ target_columns self → is_Some (predictions !! target)).
Proof.
  unfold predict_resources. cbv zeta.
  destruct (prepare_features sqrt self (input_frame data)) as [e|dff]; [done|]. cbn [bind].
  destruct (latest_rows _ _) as [e|X]; [done|]. cbn [bind].
  intros Hloops. pose proof Hloops as Hkeys.
  apply (outer_loop_inv horizon_label (forecast self (input_frame data) X)) in Hloops
    as [Hvalues Hothers]; [|intros; by apply forecast_compat].
  split; [|split].
  - intros target horizon Ht Hh. destruct (Hvalues target horizon Ht Hh) as (v & _ & Hlook).
    exists v. exact Hlook.
  - intros target horizon Ht. unfold forecast_at. rewrite Hothers by done.
    by rewrite lookup_empty.
  - intros target Ht.
    apply (outer_loop_keys horizon_label (forecast self (input_frame data) X) _ _ _ _ target
             Hkeys).
    by left.
Qed.

(** X13. On well-formed input [predict_resources] returns, whatever models
    are registered, and the dict it returns holds a forecast for every target
    resource at every requested horizon and nothing for any other resource. *)
Theorem predict_resources_covers_pairs sqrt self data horizons :
  well_formed (input_frame data) →
  ∃ predictions,
    predict_resources sqrt self data horizons = inr predictions
    ∧ (∀ target horizon, target ∈ target_columns self → horizon ∈ horizons →
         is_Some (forecast_at predictions target horizon))
    ∧ (∀ target horizon, target ∉ target_columns self →
         forecast_at predictions target horizon = None).
Proof.
  intros Hdata.
  destruct (predict_resources_returns sqrt self data horizons Hdata) as [predictions Hp].
  destruct (predict_resources_keys sqrt self data horizons predictions Hp)
    as (Hpairs & Hothers & _).
  exists predictions. split; [exact Hp|]. split; [exact Hpairs|exact Hothers].
Qed.

Lemma predict_resources_covers_pairs_witness :
  ∃ predictions,
    predict_resources isqrt one_model (Dict main_current_state) [1; 2] = inr predictions
    ∧ (∀ target horizon, target ∈ target_columns one_model → horizon ∈ [1; 2] →
         is_Some (forecast_at predictions target horizon))
    ∧ (∀ target horizon, target ∉ target_columns one_model →
         forecast_at predictions target horizon = None).
Proof.
  exact (predict_resources_covers_pairs isqrt one_model (Dict main_current_state) [1; 2]
           main_current_state_well_formed).
Defined.

(** The defaults that [predict_resources] adds to a data point leave its
    timestamp as it is. *)
Lemma input_frame_timestamp d :
  timestamp (input_frame (Dict d)) = (λ t, [t]) <$> dict_timestamp d.
Proof.
  unfold input_frame.
  assert (Hloop : ∀ cols df,
    timestamp (foldl (λ df col,
      if has_column df col then df else set_column df col (default_column df col))
      df cols) = timestamp df).
  { induction cols as [|c cols IH]; intros df; [done|]. cbn [foldl]. rewrite IH.
    by destruct (has_column df c). }
  by rewrite Hloop.
Qed.

(** X14. Input without a timestamp, a data point or a frame, makes
    [predict_resources] raise [KeyError] for the key "timestamp", whatever
    else the input holds. *)
Theorem predict_resources_needs_timestamp sqrt self data horizons :
  match data with
  | Dict d => dict_timestamp d = None
  | Frame df => timestamp df = None
  end →
  predict_resources sqrt self data horizons = inl (KeyError "timestamp").
Proof.
  intros Hnone. unfold predict_resources, prepare_features, create_time_features. cbv zeta.
  assert (timestamp (input_frame data) = None) as ->; [|done].
  destruct data as [d|df]; [|done]. by rewrite input_frame_timestamp, Hnone.
Qed.

Lemma predict_resources_needs_timestamp_witness :
  predict_resources isqrt one_model
    (Dict {| dict_timestamp := None; dict_items := dict_items main_current_state |}) [1; 2]
  = inl (KeyError "timestamp").
Proof.
  apply (predict_resources_needs_timestamp isqrt one_model
           (Dict {| dict_timestamp := None; dict_items := dict_items main_current_state |})).
  reflexivity.
Defined.

(** ** Time features *)

Lemma Qle_bool_inject_Z a b : Qle_bool (inject_Z a) (inject_Z b) = (a <=? b).
Proof. unfold Qle_bool, inject_Z. cbn. by rewrite !Z.mul_1_r. Qed.

(** X15. The time flags of a row: the night flag and the business-hours flag
    are 0 or 1 and never both 1, and both are 0 exactly at the hours 7, 8 and
    18 to 21. *)
Theorem time_flags_exclusive df ts i t :
  timestamp df = Some ts → ts !! i = Some t →
  ∃ df' night business,
    create_time_features df = inr df'
    ∧ column df' "is_night" ≫= (.!! i) = Some (Some (inject_Z night))
    ∧ column df' "is_business_hours" ≫= (.!! i) = Some (Some (inject_Z business))
    ∧ 0 ≤ night ≤ 1 ∧ 0 ≤ business ≤ 1 ∧ night + business ≤ 1
    ∧ (night + business = 0 ↔ 7 ≤ hour t ≤ 8 ∨ 18 ≤ hour t ≤ 21).
Proof.
  intros Hts Hi. unfold create_time_features. rewrite Hts. cbv zeta.
  eexists _, (if (hour t <=? 6) || (22 <=? hour t) then 1 else 0),
    (if (9 <=? hour t) && (hour t <=? 17) then 1 else 0).
  split; [reflexivity|].
  rewrite column_set_eq, column_set_ne, column_set_eq by done. cbn [mbind option_bind].
  rewrite !map_lookup, Hi. cbn [fmap option_fmap option_map]. unfold cell_test.
  rewrite !Qle_bool_inject_Z.
  split; [done|]. split; [done|].
  destruct (Z.leb_spec (hour t) 6), (Z.leb_spec 22 (hour t)), (Z.leb_spec 9 (hour t)),
    (Z.leb_spec (hour t) 17); cbn; lia.
Qed.

Lemma time_flags_exclusive_witness :
  ∃ df' night business,
    create_time_features three_rows = inr df'
    ∧ column df' "is_night" ≫= (.!! 0%nat) = Some (Some (inject_Z night))
    ∧ column df' "is_business_hours" ≫= (.!! 0%nat) = Some (Some (inject_Z business))
    ∧ 0 ≤ night ≤ 1 ∧ 0 ≤ business ≤ 1 ∧ night + business ≤ 1
    ∧ (night + business = 0
       ↔ 7 ≤ hour {| hour := 8; dayofweek := 2; month := 11 |} ≤ 8
         ∨ 18 ≤ hour {| hour := 8; dayofweek := 2; month := 11 |} ≤ 21).
Proof.
  apply (time_flags_exclusive three_rows
           [ {| hour := 8; dayofweek := 2; month := 11 |};
             {| hour := 9; dayofweek := 2; month := 11 |};
             {| hour := 10; dayofweek := 2; month := 11 |} ] 0
           {| hour := 8; dayofweek := 2; month := 11 |}); reflexivity.
Defined.

(** ** The fill policy *)

Lemma ffill_from_Some x (s : Series) : Forall is_Some (ffill_from (Some x) s).
Proof.
  revert x. induction s as [|c s IH]; intros x; cbn [ffill_from]; [constructor|].
  destruct c as [y|]; (constructor; [by eexists|apply IH]).
Qed.

Lemma ffill_all_NaN (s : Series) : Forall (λ c, c = None) s → ffill s = s.
Proof.
  unfold ffill. induction 1 as [|c s -> _ IH]; [done|]. cbn [ffill_from]. by rewrite IH.
Qed.

(** Forward fill leaves NaN only in the rows before the first observation. *)
Lemma ffill_shape (s : Series) :
  ∃ (n : nat) (filled : Series), ffill s = replicate n None ++ filled ∧ Forall is_Some filled.
Proof.
  unfold ffill. induction s as [|c s (n & filled & IH & Hfilled)].
  - by exists 0%nat, [].
  - destruct c as [y|]; cbn [ffill_from].
    + exists 0%nat, (Some y :: ffill_from (Some y) s). split; [done|].
      constructor; [by eexists|apply ffill_from_Some].
    + exists (S n), filled. by rewrite IH.
Qed.

(** Forward fill and then backward fill leave a column without NaN, or with
    nothing but NaN. *)
Lemma bfill_ffill_all_or_nothing (s : Series) :
  Forall is_Some (bfill (ffill s)) ∨ Forall (λ c, c = None) (bfill (ffill s)).
Proof.
  destruct (ffill_shape s) as (n & filled & -> & Hfilled).
  unfold bfill. rewrite rev_app_distr.
  destruct (rev filled) as [|c r] eqn:Hrev.
  - right. cbn [app].
    assert (Hnone : Forall (λ c : option Q, c = None) (replicate n None)).
    { apply Forall_forall. intros c Hc. by apply elem_of_replicate in Hc as [-> _]. }
    rewrite ffill_all_NaN by (by apply Forall_rev).
    by rewrite rev_involutive.
  - left. apply Forall_rev.
    assert (is_Some c) as [y ->].
    { apply Forall_rev in Hfilled. rewrite Hrev in Hfilled. by inversion Hfilled. }
    cbn [app]. unfold ffill. cbn [ffill_from].
    constructor; [by eexists|apply ffill_from_Some].
Qed.

Lemma lookup_column_map_inv (f : Series → Series) cols c s :
  lookup_column (map (λ '(k, s), (k, f s)) cols) c = Some s →
  ∃ s0, lookup_column cols c = Some s0 ∧ s = f s0.
Proof.
  rewrite lookup_column_fmap. destruct (lookup_column cols c) as [s0|]; [|done].
  intros [= <-]. by exists s0.
Qed.

(** X16. In the frame that [prepare_features] returns, every column is
    without NaN or holds nothing but NaN. *)
Theorem prepared_columns_all_or_nothing sqrt self df df_features c s :
  prepare_features sqrt self df = inr df_features →
  column df_features c = Some s →
  Forall is_Some s ∨ Forall (λ cell, cell = None) s.
Proof.
  unfold prepare_features.
  repeat match goal with
  | |- context [bind ?m _] => destruct m; cbn [bind]; [discriminate|]
  end.
  cbv zeta. intros [= <-] Hs. unfold column, fillna_ffill_bfill in Hs. cbn [columns] in Hs.
  apply (lookup_column_map_inv (λ s, bfill (ffill s))) in Hs as (s0 & _ & ->).
  apply bfill_ffill_all_or_nothing.
Qed.

Lemma calm_features_prepared : prepare_features isqrt one_model calm_rows = inr calm_features.
Proof. vm_compute. reflexivity. Qed.

(** Three rows: the lag of one hour is NaN in the first row before the fill
    and takes the value of the second row in it. *)
Lemma prepared_columns_all_or_nothing_witness :
  (∃ df_lag,
     create_lag_features isqrt calm_rows "admissions" = inr df_lag
     ∧ column df_lag "admissions_lag_1"
       = Some [None; Some (inject_Z 8); Some (inject_Z 9)])
  ∧ column calm_features "admissions_lag_1"
    = Some [Some (inject_Z 8); Some (inject_Z 8); Some (inject_Z 9)]
  ∧ (Forall is_Some [Some (inject_Z 8); Some (inject_Z 8); Some (inject_Z 9)]
     ∨ Forall (λ cell, cell = None) [Some (inject_Z 8); Some (inject_Z 8); Some (inject_Z 9)]).
Proof.
  split.
  { eexists. split; [vm_compute; reflexivity|]. reflexivity. }
  split; [reflexivity|].
  apply (prepared_columns_all_or_nothing isqrt one_model calm_rows calm_features
           "admissions_lag_1").
  - exact calm_features_prepared.
  - reflexivity.
Defined.

(** X17. A data point of the API layer has no history: in the frame that
    [prepare_features] builds from it, with the target resources of the
    constructor, every lag column and every rolling standard deviation is
    NaN, whatever the values of the request. *)
Theorem api_features_lack_history sqrt self ts admissions discharges bed_occupancy
    oxygen_level occupancy_rate target_col k :
  target_columns self = default_targets →
  target_col ∈ default_targets → k ∈ lags →
  ∃ df_features,
    prepare_features sqrt self
      (input_frame (Dict (api_request ts admissions discharges bed_occupancy oxygen_level
                            occupancy_rate)))
    = inr df_features
    ∧ column df_features (target_col +:+ "_lag_" +:+ pretty k) = Some [None]
    ∧ column df_features (target_col +:+ "_roll_std_6") = Some [None].
Proof.
  intros Htargets Ht Hk.
  destruct (prepare_features _ _ _) as [e|df_features] eqn:Hprepared;
    unfold prepare_features in Hprepared; rewrite Htargets in Hprepared;
    vm_compute in Hprepared; [discriminate Hprepared|].
  injection Hprepared as <-. eexists. split; [reflexivity|].
  match goal with |- column ?d _ = _ ∧ _ =>
    assert (Hall : forallb (λ '(t, k),
      match column d (t +:+ "_lag_" +:+ pretty k), column d (t +:+ "_roll_std_6") with
      | Some [None], Some [None] => true
      | _, _ => false
      end) (list_prod default_targets lags) = true) by (vm_compute; reflexivity);
    generalize dependent d
  end.
  intros d Hall. rewrite forallb_forall in Hall.
  specialize (Hall (target_col, k)). cbv beta iota in Hall.
  destruct (column d (target_col +:+ "_lag_" +:+ pretty k)) as [[|[?|] [|? ?]]|];
    destruct (column d (target_col +:+ "_roll_std_6")) as [[|[?|] [|? ?]]|];
    try done;
    by (discriminate Hall; by apply list_elem_of_In, elem_of_pairs).
Qed.

Lemma api_features_lack_history_witness :
  ∃ df_features,
    prepare_features isqrt one_model
      (input_frame (Dict (api_request {| hour := 10; dayofweek := 2; month := 11 |} 8 6 180
                            (inject_Z 1200) (inject_Z 72))))
    = inr df_features
    ∧ column df_features ("admissions" +:+ "_lag_" +:+ pretty 6%nat) = Some [None]
    ∧ column df_features ("admissions" +:+ "_roll_std_6") = Some [None].
Proof.
  apply (api_features_lack_history isqrt one_model
           {| hour := 10; dayofweek := 2; month := 11 |} 8 6 180 (inject_Z 1200)
           (inject_Z 72) "admissions" 6).
  - reflexivity.
  - apply (bool_decide_unpack _). vm_compute. exact I.
  - apply (bool_decide_unpack _). vm_compute. exact I.
Defined.

(** * The data generator *)

(** ** Bed occupancy *)

(** A loop that appends to a list, each new entry computed from the last
    one: the list keeps what it had, grows by one entry per round, and each
    entry follows from the entry before it. *)
Section appending_loop.
Context {A B : Type} (next : A → B → A) (d : A).

Lemma appending_loop (acc : list A) (rows : list B) :
  acc ≠ [] →
  let r := foldl (λ acc row, acc ++ [next (default d (last acc)) row]) acc rows in
  length r = (length acc + length rows)%nat
  ∧ take (length acc) r = acc
  ∧ ∀ j row prev, rows !! j = Some row → r !! (length acc + j - 1)%nat = Some prev →
      r !! (length acc + j)%nat = Some (next prev row).
Proof.
  revert acc. induction rows as [|row rows IH]; intros acc Hacc; cbn zeta; cbn [foldl].
  - rewrite Nat.add_0_r. split; [done|]. split; [apply firstn_all|]. intros j row prev Hj.
    by rewrite lookup_nil in Hj.
  - destruct (IH (acc ++ [next (default d (last acc)) row])) as (Hlen & Hprefix & Hstep).
    { by destruct acc. }
    cbn zeta in Hlen, Hprefix, Hstep. rewrite length_app in Hlen, Hprefix, Hstep.
    cbn [length] in *.
    set (r := foldl _ _ rows) in *.
    assert (Hacc' : ∀ i, (i < length acc + 1)%nat →
      r !! i = (acc ++ [next (default d (last acc)) row]) !! i).
    { intros i Hi. rewrite <- Hprefix. by rewrite lookup_take_lt. }
    split; [lia|]. split.
    { transitivity (take (length acc) (take (length acc + 1) r)).
      - rewrite take_take. f_equal. lia.
      - rewrite Hprefix. apply take_app_length. }
    intros j row' prev Hj Hprev. destruct j as [|j].
    + injection Hj as <-. rewrite Nat.add_0_r in *.
      rewrite Hacc' in Hprev by lia. rewrite lookup_app_l in Hprev by (destruct acc; [done|cbn; lia]).
      rewrite Hacc' by lia. rewrite lookup_app_r by lia. rewrite Nat.sub_diag. cbn.
      rewrite last_lookup. replace (pred (length acc)) with (length acc - 1)%nat by lia.
      by rewrite Hprev.
    + cbn in Hj. replace (length acc + S j)%nat with (length acc + 1 + j)%nat by lia.
      apply (Hstep j row' prev Hj).
      by replace (length acc + 1 + j - 1)%nat with (length acc + S j - 1)%nat by lia.
Qed.

(** A property of the first entries that a round preserves holds of all. *)
Lemma appending_loop_Forall (P : A → Prop) (acc : list A) (rows : list B) :
  Forall P acc → (∀ prev row, P (next prev row)) →
  Forall P (foldl (λ acc row, acc ++ [next (default d (last acc)) row]) acc rows).
Proof.
  intros Hacc Hnext. revert acc Hacc. induction rows as [|row rows IH]; intros acc Hacc; [done|].
  cbn [foldl]. apply IH. apply Forall_app. split; [done|]. by constructor.
Qed.

End appending_loop.

(** X18. [generate_bed_occupancy] raises exactly when its input has no row.
    Otherwise the frame has a row for each row of the input, the first with
    occupancy 150 whatever the input, every occupancy is between 50 and 240,
    and every rate is the occupancy as a percentage of 250 beds. *)
Theorem bed_occupancy_within_bounds (admissions_data : list HospitalDataGenerator.flow) :
  match HospitalDataGenerator.generate_bed_occupancy admissions_data with
  | None => admissions_data = []
  | Some frame =>
      admissions_data ≠ []
      ∧ length (HospitalDataGenerator.bed_occupancy frame) = length admissions_data
      ∧ HospitalDataGenerator.bed_occupancy frame !! 0%nat = Some 150
      ∧ Forall (λ occ, 50 ≤ occ ≤ 240) (HospitalDataGenerator.bed_occupancy frame)
      ∧ HospitalDataGenerator.occupancy_rate frame
        = map (λ occ, (inject_Z occ / inject_Z 250) * inject_Z 100)%Q
            (HospitalDataGenerator.bed_occupancy frame)
  end.
Proof.
  unfold HospitalDataGenerator.generate_bed_occupancy. cbv zeta.
  set (next := λ (prev : Z) (row : HospitalDataGenerator.flow),
    Z.max 50 (Z.min (250 - 10)
      (prev + HospitalDataGenerator.admissions row - HospitalDataGenerator.discharges row))).
  destruct (appending_loop next 0 [150] (drop 1 admissions_data)) as (Hlen & Hprefix & _);
    [done|].
  cbn zeta in Hlen, Hprefix. fold next in Hlen, Hprefix.
  pose proof (appending_loop_Forall next 0 (λ occ, 50 ≤ occ ≤ 240) [150]
                (drop 1 admissions_data)) as Hbounds.
  set (occupancy := foldl _ [150] (drop 1 admissions_data)) in *.
  rewrite length_drop in Hlen. cbn [length] in Hlen, Hprefix.
  destruct (Nat.eqb_spec (length occupancy) (length admissions_data)) as [Heq|Hne].
  - cbn [HospitalDataGenerator.bed_occupancy HospitalDataGenerator.occupancy_rate].
    split; [intros ->; cbn in *; lia|]. split; [done|]. split.
    + apply (f_equal (λ l, l !! 0%nat)) in Hprefix. by rewrite lookup_take_lt in Hprefix by lia.
    + split; [|done]. apply Hbounds; [by repeat constructor|]. intros prev row. unfold next. lia.
  - destruct admissions_data as [|row rows]; [done|]. cbn in *. lia.
Qed.

Lemma three_hours_generated :
  HospitalDataGenerator.generate_bed_occupancy three_hours = Some three_hours_frame.
Proof. reflexivity. Qed.

(** X19. In the frame of [generate_bed_occupancy] each occupancy follows from
    the one of the row before it: that one plus the row's admissions minus
    its discharges, brought into the range from 50 to 240. *)
Theorem bed_occupancy_recurrence admissions_data frame i prev row :
  HospitalDataGenerator.generate_bed_occupancy admissions_data = Some frame →
  HospitalDataGenerator.bed_occupancy frame !! i = Some prev →
  admissions_data !! S i = Some row →
  HospitalDataGenerator.bed_occupancy frame !! S i
  = Some (Z.max 50 (Z.min 240 (prev + HospitalDataGenerator.admissions row
                                 - HospitalDataGenerator.discharges row))).
Proof.
  unfold HospitalDataGenerator.generate_bed_occupancy. cbv zeta.
  set (next := λ (prev : Z) (row : HospitalDataGenerator.flow),
    Z.max 50 (Z.min (250 - 10)
      (prev + HospitalDataGenerator.admissions row - HospitalDataGenerator.discharges row))).
  destruct (appending_loop next 0 [150] (drop 1 admissions_data)) as (_ & _ & Hstep); [done|].
  cbn zeta in Hstep. fold next in Hstep. cbn [length] in Hstep.
  set (occupancy := foldl _ [150] (drop 1 admissions_data)) in *.
  destruct (length occupancy =? length admissions_data)%nat; [|done].
  intros [= <-] Hprev Hrow. cbn [HospitalDataGenerator.bed_occupancy] in *.
  apply (Hstep i row prev).
  - by rewrite lookup_drop.
  - by replace (1 + i - 1)%nat with i by lia.
Qed.

Lemma bed_occupancy_recurrence_witness :
  HospitalDataGenerator.bed_occupancy three_hours_frame !! 2%nat
  = Some (Z.max 50 (Z.min 240 (159 + 1 - 9))).
Proof.
  apply (bed_occupancy_recurrence three_hours three_hours_frame 1 159
           {| HospitalDataGenerator.admissions := 1; HospitalDataGenerator.discharges := 9 |}).
  - exact three_hours_generated.
  - reflexivity.
  - reflexivity.
Defined.

(** ** Oxygen levels *)

Lemma py_max_ge a b : (a <= HospitalMLPipeline.py_max a b)%Q.
Proof.
  unfold HospitalMLPipeline.py_max. destruct (Qgt_bool b a) eqn:Hb.
  - apply Qgt_bool_true in Hb. by apply Qlt_le_weak.
  - apply Qle_refl.
Qed.

Lemma Qlt_bool_false a b : Qlt_bool a b = false ↔ (b <= a)%Q.
Proof. apply Qgt_bool_false. Qed.

(** One more row keeps the rows as they should be, when it follows from the
    last level by the rule and is in range. *)
Lemma oxygen_rows_snoc levels consumption_rates refill_events prev level consumption refilled :
  oxygen_rows levels consumption_rates refill_events →
  last levels = Some prev →
  refill_rule prev level consumption refilled →
  (inject_Z 500 <= level)%Q ∧ (level <= inject_Z 2500)%Q →
  oxygen_rows (levels ++ [level]) (consumption_rates ++ [consumption])
    (refill_events ++ [refilled]).
Proof.
  intros (Hne & Hrange & Hrates & Hevents & Hrule) Hlast Hnew Hlevel.
  split; [by destruct levels|].
  split; [apply Forall_app; split; [done|]; constructor; [done|constructor]|].
  rewrite !length_app. cbn [length]. split; [lia|]. split; [lia|].
  intros i prev' level' c r Hprev Hlevel' Hc Hr.
  destruct (decide (S i < length levels)%nat) as [Hi|Hi].
  - rewrite lookup_app_l in Hprev, Hlevel', Hc by lia. rewrite lookup_app_l in Hr by lia.
    by eapply Hrule.
  - assert (S i = length levels) as Hi'.
    { apply lookup_lt_Some in Hlevel'. rewrite length_app in Hlevel'. cbn in Hlevel'. lia. }
    rewrite lookup_app_l in Hprev by lia.
    rewrite last_lookup in Hlast. replace (pred (length levels)) with i in Hlast by lia.
    rewrite lookup_app_r in Hlevel', Hc by lia. rewrite lookup_app_r in Hr by lia.
    replace (S i - length levels)%nat with 0%nat in Hlevel' by lia.
    replace (i - length consumption_rates)%nat with 0%nat in Hc by lia.
    replace (i - length refill_events)%nat with 0%nat in Hr by lia.
    cbn in Hlevel', Hc, Hr. congruence.
Qed.

Section oxygen.
Context {rng : Type} (normal : Q → Q → rng → Q * rng) (random : rng → Q * rng).

Lemma oxygen_step_rows (acc : HospitalDataGenerator.oxygen_loop rng) (hour : Z) :
  oxygen_rows (HospitalDataGenerator.levels rng acc)
    (HospitalDataGenerator.consumption_rates rng acc)
    (HospitalDataGenerator.refill_events rng acc) →
  let acc' := HospitalDataGenerator.oxygen_step rng normal random (inject_Z 2500) acc hour in
  oxygen_rows (HospitalDataGenerator.levels rng acc')
    (HospitalDataGenerator.consumption_rates rng acc')
    (HospitalDataGenerator.refill_events rng acc').
Proof.
  intros Hrows. pose proof Hrows as (Hne & Hrange & _).
  destruct (last (HospitalDataGenerator.levels rng acc)) as [prev|] eqn:Hlast;
    [|by apply last_None in Hlast].
  assert (Hprev : (inject_Z 500 <= prev)%Q ∧ (prev <= inject_Z 2500)%Q).
  { rewrite Forall_forall in Hrange. apply Hrange. rewrite last_lookup in Hlast.
    by eapply list_elem_of_lookup_2. }
  cbv zeta. unfold HospitalDataGenerator.oxygen_step. rewrite Hlast. cbn [default from_option id].
  set (draw := if _ : bool then _ else _). destruct draw as [consumption g1].
  pose proof (py_max_ge (inject_Z 5) consumption) as Hc.
  set (c := HospitalMLPipeline.py_max (inject_Z 5) consumption) in *.
  destruct (Qlt_bool (prev - c) (inject_Z 500)) eqn:Hcritical.
  { cbn. apply (oxygen_rows_snoc _ _ _ prev); [done..| |].
    - split; [done|]. split; [done|]. apply Qlt_bool_true in Hcritical.
      unfold inject_Z in *. lra.
    - unfold inject_Z. lra. }
  apply Qlt_bool_false in Hcritical.
  destruct (Qlt_bool (prev - c) (inject_Z 1000)) eqn:Hlow.
  - destruct (random g1) as [u g2]. destruct (Qlt_bool u (3 # 10)); cbn.
    + apply (oxygen_rows_snoc _ _ _ prev); [done..| |].
      * split; [done|]. split; [done|]. by apply Qlt_bool_true in Hlow.
      * unfold inject_Z. lra.
    + apply (oxygen_rows_snoc _ _ _ prev); [done..| |]; [by split|].
      split; [done|]. destruct Hprev. unfold inject_Z in *. lra.
  - cbn. apply (oxygen_rows_snoc _ _ _ prev); [done..| |]; [by split|].
    split; [done|]. destruct Hprev. unfold inject_Z in *. lra.
Qed.

Lemma oxygen_loop_rows (hours : list Z) (acc : HospitalDataGenerator.oxygen_loop rng) :
  oxygen_rows (HospitalDataGenerator.levels rng acc)
    (HospitalDataGenerator.consumption_rates rng acc)
    (HospitalDataGenerator.refill_events rng acc) →
  let acc' :=
    foldl (HospitalDataGenerator.oxygen_step rng normal random (inject_Z 2500)) acc hours in
  oxygen_rows (HospitalDataGenerator.levels rng acc')
    (HospitalDataGenerator.consumption_rates rng acc')
    (HospitalDataGenerator.refill_events rng acc')
  ∧ length (HospitalDataGenerator.levels rng acc')
    = (length (HospitalDataGenerator.levels rng acc) + length hours)%nat
  ∧ HospitalDataGenerator.levels rng acc' !! 0%nat
    = HospitalDataGenerator.levels rng acc !! 0%nat.
Proof.
  revert acc. induction hours as [|hour hours IH]; intros acc Hrows; cbn zeta; cbn [foldl].
  - by rewrite Nat.add_0_r.
  - pose proof (oxygen_step_rows acc hour Hrows) as Hstep. cbn zeta in Hstep.
    destruct (IH _ Hstep) as (Hrows' & Hlen & Hfirst). cbn zeta in Hrows', Hlen, Hfirst.
    split; [done|]. rewrite Hlen, Hfirst.
    assert (HospitalDataGenerator.levels rng
              (HospitalDataGenerator.oxygen_step rng normal random (inject_Z 2500) acc hour)
            = HospitalDataGenerator.levels rng acc
              ++ drop (length (HospitalDataGenerator.levels rng acc))
                   (HospitalDataGenerator.levels rng
                      (HospitalDataGenerator.oxygen_step rng normal random (inject_Z 2500)
                         acc hour))
            ∧ length (HospitalDataGenerator.levels rng
                (HospitalDataGenerator.oxygen_step rng normal random (inject_Z 2500) acc hour))
              = S (length (HospitalDataGenerator.levels rng acc))) as [Happ Hlen'].
    { unfold HospitalDataGenerator.oxygen_step.
      set (draw := if _ : bool then _ else _). destruct draw as [consumption g1].
      destruct (Qlt_bool _ (inject_Z 500)); [|destruct (Qlt_bool _ (inject_Z 1000));
        [destruct (random g1) as [u g2]; destruct (Qlt_bool u (3 # 10))|]];
        cbn; rewrite drop_app_length, length_app; cbn; split; (done || lia). }
    split; [cbn [length]; lia|].
    rewrite Happ. destruct Hrows as (Hne & _).
    rewrite lookup_app_l; [done|]. destruct (HospitalDataGenerator.levels rng acc); [done|].
    cbn. lia.
Qed.

End oxygen.

(** X20. [generate_oxygen_levels] raises exactly when [days] is 0. Otherwise
    the frame has 24 rows a day in each column, the first level is 2000, and
    every level is between 500 and 2500, whatever the draws are. *)
Theorem oxygen_levels_within_range {rng} (normal : Q → Q → rng → Q * rng)
    (random : rng → Q * rng) (base_hour : Z) (days : nat) (g : rng) :
  match fst (HospitalDataGenerator.generate_oxygen_levels rng normal random base_hour days g)
  with
  | None => days = 0%nat
  | Some frame =>
      days ≠ 0%nat
      ∧ length (HospitalDataGenerator.oxygen_level frame) = (days * 24)%nat
      ∧ length (HospitalDataGenerator.consumption_rate frame) = (days * 24)%nat
      ∧ length (HospitalDataGenerator.refill_event frame) = (days * 24)%nat
      ∧ HospitalDataGenerator.oxygen_level frame !! 0%nat = Some (inject_Z 2000)
      ∧ Forall (λ level, (inject_Z 500 <= level)%Q ∧ (level <= inject_Z 2500)%Q)
          (HospitalDataGenerator.oxygen_level frame)
  end.
Proof.
  unfold HospitalDataGenerator.generate_oxygen_levels. cbv zeta. cbn [fst].
  set (hours := HospitalDataGenerator.hourly_range base_hour (days * 24)).
  assert (Hhours : length hours = (days * 24)%nat).
  { unfold hours, HospitalDataGenerator.hourly_range. by rewrite length_map, length_seq. }
  destruct (oxygen_loop_rows normal random (drop 1 hours)
              {| HospitalDataGenerator.levels := [inject_Z 2000];
                 HospitalDataGenerator.consumption_rates := [];
                 HospitalDataGenerator.refill_events := [];
                 HospitalDataGenerator.oxygen_rng := g |})
    as ((_ & Hrange & Hrates & Hevents & _) & Hlen & Hfirst).
  { cbn. split; [done|]. split; [constructor; [unfold inject_Z; lra|constructor]|].
    split; [done|]. split; [done|]. intros i prev level c r _ Hlevel.
    by destruct i. }
  cbn zeta in Hrange, Hrates, Hevents, Hlen, Hfirst. cbn [length].
  set (acc := foldl _ _ (drop 1 hours)) in *.
  rewrite length_drop, Hhours in Hlen. cbn in Hlen, Hfirst.
  rewrite Hrates, Hevents, Hhours, Hlen.
  destruct (Nat.eqb_spec (S (days * 24 - 1)) (days * 24)) as [Heq|Hne]; cbn [andb].
  - cbn [HospitalDataGenerator.oxygen_level HospitalDataGenerator.consumption_rate
         HospitalDataGenerator.refill_event length].
    rewrite Hrates, Hevents, Hlen. repeat split; try done; lia.
  - lia.
Qed.

(** X21. In the frame of [generate_oxygen_levels] each level follows from the
    one of the row before it, whatever the draws are: the row's consumption
    is at least 5; on a refill the level is 2500, and the level less the
    consumption was below 1000; without a refill the level is the previous
    level less the consumption, and that is not below 500. *)
Theorem oxygen_refill_rule {rng} (normal : Q → Q → rng → Q * rng) (random : rng → Q * rng)
    (base_hour : Z) (days : nat) (g : rng) frame i prev level consumption refilled :
  fst (HospitalDataGenerator.generate_oxygen_levels rng normal random base_hour days g)
  = Some frame →
  HospitalDataGenerator.oxygen_level frame !! i = Some prev →
  HospitalDataGenerator.oxygen_level frame !! S i = Some level →
  HospitalDataGenerator.consumption_rate frame !! S i = Some consumption →
  HospitalDataGenerator.refill_event frame !! S i = Some refilled →
  refill_rule prev level consumption refilled.
Proof.
  unfold HospitalDataGenerator.generate_oxygen_levels. cbv zeta. cbn [fst].
  set (hours := HospitalDataGenerator.hourly_range base_hour (days * 24)).
  destruct (oxygen_loop_rows normal random (drop 1 hours)
              {| HospitalDataGenerator.levels := [inject_Z 2000];
                 HospitalDataGenerator.consumption_rates := [];
                 HospitalDataGenerator.refill_events := [];
                 HospitalDataGenerator.oxygen_rng := g |})
    as ((_ & _ & _ & _ & Hrule) & _).
  { cbn. split; [done|]. split; [constructor; [unfold inject_Z; lra|constructor]|].
    split; [done|]. split; [done|]. intros j p l c r _ Hl. by destruct j. }
  cbn zeta in Hrule. set (acc := foldl _ _ (drop 1 hours)) in *.
  destruct (_ && _); [|done]. intros [= <-]. cbn. by apply Hrule.
Qed.

Lemma one_day_oxygen_generated :
  fst (HospitalDataGenerator.generate_oxygen_levels nat counting_normal counting_random
         0 1 0%nat)
  = Some one_day_oxygen.
Proof. vm_compute. reflexivity. Qed.

Lemma oxygen_refill_rule_witness :
  refill_rule (inject_Z 2000) (inject_Z 2000 - (15 # 1) * (8 # 10))%Q ((15 # 1) * (8 # 10))%Q
    false.
Proof.
  apply (oxygen_refill_rule counting_normal counting_random 0 1 0%nat one_day_oxygen 0).
  - exact one_day_oxygen_generated.
  - reflexivity.
  - reflexivity.
  - reflexivity.
  - reflexivity.
Defined.

(** ** Staff schedules *)

Lemma py_min_le a b : (HospitalDataGenerator.py_min a b <= a)%Q.
Proof.
  unfold HospitalDataGenerator.py_min. destruct (Qlt_bool b a) eqn:Hb.
  - apply Qlt_bool_true in Hb. by apply Qlt_le_weak.
  - apply Qle_refl.
Qed.

Section staff.
Context {rng : Type} (randint : Z → Z → rng → Z * rng) (binomial : Z → Q → rng → Z * rng).

Lemma staff_schedule_row_consistent weekday date staff_type shift g :
  staff_row_consistent
    (HospitalDataGenerator.staff_schedule_row rng randint binomial weekday date staff_type
       shift g).1.
Proof.
  unfold HospitalDataGenerator.staff_schedule_row.
  destruct (randint (-2) 3 g) as [variation g1].
  destruct (binomial _ _ g1) as [absent g2].
  unfold staff_row_consistent. cbn. split; [lia|]. split; [lia|]. apply py_min_le.
Qed.

Lemma shifts_loop weekday date staff_type (shifts : list string)
    (acc : list HospitalDataGenerator.staff_row * rng) :
  Forall staff_row_consistent acc.1 →
  let acc' :=
    foldl (λ '(staff_data, g) shift,
      let '(row, g) :=
        HospitalDataGenerator.staff_schedule_row rng randint binomial weekday date
          staff_type shift g in
      (staff_data ++ [row], g))
      acc shifts in
  Forall staff_row_consistent acc'.1 ∧ length acc'.1 = (length acc.1 + length shifts)%nat.
Proof.
  revert acc. induction shifts as [|shift shifts IH]; intros [staff_data g] Hacc; cbn zeta;
    cbn [foldl length].
  - split; [done|lia].
  - pose proof (staff_schedule_row_consistent weekday date staff_type shift g) as Hrow.
    destruct (HospitalDataGenerator.staff_schedule_row _ _ _ _ _ _ _ g) as [row g'].
    destruct (IH (staff_data ++ [row], g')) as [Hall Hlen].
    { cbn [fst] in *. apply Forall_app. split; [done|]. constructor; [done|constructor]. }
    cbn zeta in Hall, Hlen. split; [done|]. rewrite Hlen. cbn [fst]. rewrite length_app.
    cbn [length]. lia.
Qed.

Lemma staff_types_loop weekday date (staff_types shifts : list string)
    (acc : list HospitalDataGenerator.staff_row * rng) :
  Forall staff_row_consistent acc.1 →
  let acc' :=
    foldl (λ acc staff_type,
      foldl (λ '(staff_data, g) shift,
        let '(row, g) :=
          HospitalDataGenerator.staff_schedule_row rng randint binomial weekday date
            staff_type shift g in
        (staff_data ++ [row], g))
        acc shifts)
      acc staff_types in
  Forall staff_row_consistent acc'.1
  ∧ length acc'.1 = (length acc.1 + length staff_types * length shifts)%nat.
Proof.
  revert acc. induction staff_types as [|staff_type staff_types IH]; intros acc Hacc;
    cbn zeta; cbn [foldl length].
  - split; [done|lia].
  - destruct (shifts_loop weekday date staff_type shifts acc Hacc) as [Hall Hlen].
    cbn zeta in Hall, Hlen. destruct (IH _ Hall) as [Hall' Hlen']. cbn zeta in Hall', Hlen'.
    split; [done|]. rewrite Hlen', Hlen. lia.
Qed.

Lemma dates_loop base_weekday (dates : list nat) (staff_types shifts : list string)
    (acc : list HospitalDataGenerator.staff_row * rng) :
  Forall staff_row_consistent acc.1 →
  let acc' :=
    foldl (λ acc date,
      foldl (λ acc staff_type,
        foldl (λ '(staff_data, g) shift,
          let '(row, g) :=
            HospitalDataGenerator.staff_schedule_row rng randint binomial
              ((base_weekday + Z.of_nat date) mod 7) date staff_type shift g in
          (staff_data ++ [row], g))
          acc shifts)
        acc staff_types)
      acc dates in
  Forall staff_row_consistent acc'.1
  ∧ length acc'.1
    = (length acc.1 + length dates * (length staff_types * length shifts))%nat.
Proof.
  revert acc. induction dates as [|date dates IH]; intros acc Hacc; cbn zeta;
    cbn [foldl length].
  - split; [done|lia].
  - destruct (staff_types_loop ((base_weekday + Z.of_nat date) mod 7) date staff_types shifts
                acc Hacc) as [Hall Hlen].
    cbn zeta in Hall, Hlen. destruct (IH _ Hall) as [Hall' Hlen']. cbn zeta in Hall', Hlen'.
    split; [done|]. rewrite Hlen', Hlen. lia.
Qed.

End staff.

(** X22. [generate_staff_schedules] gives nine rows a day, and in every row
    somebody is scheduled, nobody more is present than scheduled, and the
    utilization rate is at most 100, whatever the draws are. *)
Theorem staff_schedules_consistent {rng} (randint : Z → Z → rng → Z * rng)
    (binomial : Z → Q → rng → Z * rng) (base_weekday : Z) (days : nat) (g : rng) :
  let staff_data :=
    fst (HospitalDataGenerator.generate_staff_schedules rng randint binomial base_weekday
           days g) in
  length staff_data = (9 * days)%nat ∧ Forall staff_row_consistent staff_data.
Proof.
  cbv zeta. unfold HospitalDataGenerator.generate_staff_schedules.
  destruct (dates_loop randint binomial base_weekday (seq 0 days)
              HospitalDataGenerator.staff_types HospitalDataGenerator.shift_types ([], g))
    as [Hall Hlen]; [constructor|].
  cbn zeta in Hall, Hlen. split; [|done]. rewrite Hlen, length_seq. cbn. lia.
Qed.

(** * The API layer *)

(** ** POST /optimize-staff *)

(** X23. When the solver raises, which [optimize_allocation] passes on, the
    handler of /optimize-staff still answers with status "success": its own
    heuristic, which holds exactly the pairs of the request's current staff,
    each with the count that [heuristic_count] gives. *)
Theorem handler_heuristic_on_solver_failure solve request e :
  solve (assemble (api.current_staff request) (api.predicted_demand request)
           (Some (default ∅ (api.constraints request)))) = Raised e →
  ∃ allocation,
    api.optimize_staff_allocation solve request
    = api.OK {| api.body_result :=
                  api.heuristic_result allocation (52 # 10) (85 # 10) "heuristic_fallback";
                api.body_status := "success" |}
    ∧ ∀ staff_type shift,
        count_at allocation staff_type shift
        = api.heuristic_count (api.predicted_demand request) shift
          <$> count_at (api.current_staff request) staff_type shift.
Proof.
  intros Hraised. unfold api.optimize_staff_allocation, optimize_allocation.
  rewrite Hraised. eexists. split; [reflexivity|].
  intros staff_type shift. unfold count_at. rewrite lookup_fmap.
  destruct (api.current_staff request !! staff_type) as [row|]; [|done].
  cbn [fmap option_fmap option_map mbind option_bind].
  rewrite map_lookup_imap. by destruct (row !! shift).
Qed.

Lemma handler_heuristic_on_solver_failure_witness :
  ∃ allocation,
    api.optimize_staff_allocation unavailable_solver
      {| api.current_staff := ward_current_staff;
         api.predicted_demand := main_predicted_demand;
         api.constraints := None |}
    = api.OK {| api.body_result :=
                  api.heuristic_result allocation (52 # 10) (85 # 10) "heuristic_fallback";
                api.body_status := "success" |}
    ∧ ∀ staff_type shift,
        count_at allocation staff_type shift
        = api.heuristic_count main_predicted_demand shift
          <$> count_at ward_current_staff staff_type shift.
Proof.
  apply (handler_heuristic_on_solver_failure unavailable_solver
           {| api.current_staff := ward_current_staff;
              api.predicted_demand := main_predicted_demand;
              api.constraints := None |}
           (PulpSolverError "PULP_CBC_CMD: Not Available (check permissions)")).
  reflexivity.
Defined.

(** X24. The two heuristics side by side, on a pair that the current staff
    holds: the count of the handler of /optimize-staff is never above the
    count of the optimizer's fallback and at most 2 below it, and the two
    agree whenever the shift is not the evening and predicted bed occupancy
    does not exceed 200. *)
Theorem handler_heuristic_below_fallback cs pd st sh n :
  sh ∈ shifts → count_at cs st sh = Some n →
  api.heuristic_count pd sh n ≤ fallback_count cs pd st sh
  ∧ fallback_count cs pd st sh ≤ api.heuristic_count pd sh n + 2
  ∧ (sh ≠ "Evening" → occupancy_term pd = 0 →
     fallback_count cs pd st sh = api.heuristic_count pd sh n).
Proof.
  intros Hsh Hn. rewrite fallback_count_adjustment, Hn by done. cbn [from_option id].
  unfold api.heuristic_count, adjustment, admissions_term, occupancy_term.
  rewrite ?Qgt_bool_dec, ?Qlt_bool_dec.
  unfold shifts in Hsh. rewrite !elem_of_cons in Hsh.
  destruct Hsh as [-> | [-> | [-> | Hsh]]]; [| | |by apply not_elem_of_nil in Hsh];
    cbn [String.eqb Ascii.eqb Bool.eqb];
    destruct (pd !! "admissions") as [adm|], (pd !! "bed_occupancy") as [occ|];
    rewrite ?Qgt_bool_dec, ?Qlt_bool_dec;
    repeat destruct (Qlt_le_dec _ _); repeat destruct (decide _); try done;
    (split; [lia|split; [lia|intros; try done; lia]]).
Qed.

Lemma handler_heuristic_below_fallback_witness :
  api.heuristic_count main_predicted_demand "Evening" 15
  ≤ fallback_count main_current_staff main_predicted_demand "Nurses" "Evening"
  ∧ fallback_count main_current_staff main_predicted_demand "Nurses" "Evening"
    ≤ api.heuristic_count main_predicted_demand "Evening" 15 + 2
  ∧ ("Evening" ≠ "Evening" → occupancy_term main_predicted_demand = 0 →
     fallback_count main_current_staff main_predicted_demand "Nurses" "Evening"
     = api.heuristic_count main_predicted_demand "Evening" 15).
Proof.
  apply (handler_heuristic_below_fallback main_current_staff main_predicted_demand
           "Nurses" "Evening" 15).
  - apply (bool_decide_unpack _). vm_compute. exact I.
  - vm_compute. reflexivity.
Defined.

(** ** POST /predict-resources *)

Lemma keys_in_order_elem seen keys k : k ∈ api.keys_in_order seen keys → k ∈ keys.
Proof.
  revert seen. induction keys as [|k' keys IH]; intros seen; cbn [api.keys_in_order]; [done|].
  destruct (bool_decide (k' ∈ seen)).
  - intros Hk. apply list_elem_of_further. by eapply IH.
  - intros Hk. apply elem_of_cons in Hk as [->|Hk]; [apply list_elem_of_here|].
    apply list_elem_of_further. by eapply IH.
Qed.

(** X25. The handler of /predict-resources answers with a body or with
    status 500, never with another status: the 503 that it raises when no
    model is loaded is caught by its own handler of exceptions and reaches
    the client as 500. A body needs a pipeline with a model and a timestamp
    that parses. *)
Theorem predict_handler_status sqrt (Timestamp_of_string : string → option Timestamp)
    (ml_pipeline : option pipeline) (request : api.PredictionRequest) :
  match api.predict_resources sqrt Timestamp_of_string ml_pipeline request with
  | api.OK _ =>
      ∃ self, ml_pipeline = Some self ∧ models self ≠ ∅
              ∧ is_Some (Timestamp_of_string (api.timestamp (api.current_state request)))
  | api.HTTPException status_code => status_code = 500
  end.
Proof.
  unfold api.predict_resources. cbv zeta.
  destruct ml_pipeline as [self|]; [|done].
  destruct (bool_decide_reflect (size (models self) = 0%nat)) as [Hsize|Hsize]; [done|].
  destruct (Timestamp_of_string _) as [ts|]; [|done].
  destruct (api.call_pipeline _ _ _ _) as [e|predictions]; [done|].
  exists self. split; [done|]. split; [|by eexists].
  intros Hempty. apply Hsize. by rewrite Hempty, map_size_empty.
Qed.

(** X26. With a model loaded, a timestamp that parses and a list of
    horizons, the handler of /predict-resources answers with a body, whatever
    the values of the request: one prediction for each target resource, in
    the order of the target resources, each with confidence 0.85 and a
    forecast for every requested horizon, and the horizons as requested. *)
Theorem predict_handler_answers sqrt (Timestamp_of_string : string → option Timestamp)
    (self : pipeline) (request : api.PredictionRequest) ts horizons :
  models self ≠ ∅ →
  Timestamp_of_string (api.timestamp (api.current_state request)) = Some ts →
  api.horizons request = Some horizons →
  ∃ body,
    api.predict_resources sqrt Timestamp_of_string (Some self) request = api.OK body
    ∧ api.horizons_hours body = Some horizons
    ∧ map api.resource (api.body_predictions body)
      = api.keys_in_order [] (target_columns self)
    ∧ ∀ prediction, prediction ∈ api.body_predictions body →
        api.confidence prediction = 85 # 100
        ∧ ∀ horizon, horizon ∈ horizons →
            is_Some (api.predictions prediction !! horizon_label horizon).
Proof.
  intros Hmodels Hts Hhorizons. unfold api.predict_resources. cbv zeta.
  rewrite bool_decide_eq_false_2 by (by rewrite map_size_empty_iff).
  rewrite Hts. unfold api.call_pipeline. rewrite Hhorizons.
  destruct (predict_resources_returns sqrt self
              (Dict (api_request ts (api.admissions (api.current_state request))
                       (api.discharges (api.current_state request))
                       (api.bed_occupancy (api.current_state request))
                       (api.oxygen_level (api.current_state request))
                       (api.occupancy_rate (api.current_state request)))) horizons)
    as [predictions Hp]; [apply api_request_well_formed|].
  rewrite Hp.
  destruct (predict_resources_keys _ _ _ _ _ Hp) as (Hpairs & _ & Hkeys).
  eexists. split; [reflexivity|]. cbn [api.horizons_hours api.body_predictions].
  split; [done|]. split.
  - assert (Hsub : ∀ k, k ∈ api.keys_in_order [] (target_columns self) →
                        k ∈ target_columns self) by (intros; by eapply keys_in_order_elem).
    induction (api.keys_in_order [] (target_columns self)) as [|k keys IH]; [done|].
    cbn [omap list_omap]. destruct (Hkeys k) as [row ->]; [apply Hsub, list_elem_of_here|].
    cbn [fmap option_fmap option_map map api.resource]. f_equal.
    apply IH. intros k' Hk'. by apply Hsub, list_elem_of_further.
  - intros prediction Hin. apply list_elem_of_omap in Hin as (target & Htarget & Hrow).
    apply keys_in_order_elem in Htarget.
    destruct (predictions !! target) as [row|] eqn:Hlook; [|done].
    injection Hrow as <-. cbn [api.confidence api.predictions]. split; [done|].
    intros horizon Hh. specialize (Hpairs target horizon Htarget Hh).
    unfold forecast_at in Hpairs. by rewrite Hlook in Hpairs.
Qed.

Lemma predict_handler_answers_witness :
  ∃ body,
    api.predict_resources isqrt main_timestamp (Some one_model) main_request = api.OK body
    ∧ api.horizons_hours body = Some [1; 6; 24]
    ∧ map api.resource (api.body_predictions body)
      = api.keys_in_order [] (target_columns one_model)
    ∧ ∀ prediction, prediction ∈ api.body_predictions body →
        api.confidence prediction = 85 # 100
        ∧ ∀ horizon, horizon ∈ [1; 6; 24] →
            is_Some (api.predictions prediction !! horizon_label horizon).
Proof.
  apply (predict_handler_answers isqrt main_timestamp one_model main_request
           {| hour := 10; dayofweek := 2; month := 11 |} [1; 6; 24]).
  - intros Hempty. apply (f_equal size) in Hempty. vm_compute in Hempty. discriminate Hempty.
  - reflexivity.
  - reflexivity.
Defined.

(** * Persistence *)

Lemma append_length (a b : string) :
  String.length (a +:+ b) = (String.length a + String.length b)%nat.
Proof.
  induction a as [|x a IH]; [done|].
  change (String x a +:+ b) with (String x (a +:+ b)). cbn [String.length]. by rewrite IH.
Qed.

Lemma append_inj_r (a b c : string) : a +:+ c = b +:+ c → a = b.
Proof.
  revert b. induction a as [|x a IH]; intros [|y b] Heq; [done| | |].
  - apply (f_equal String.length) in Heq. rewrite !append_length in Heq. cbn in Heq. lia.
  - apply (f_equal String.length) in Heq. rewrite !append_length in Heq. cbn in Heq. lia.
  - change (String x (a +:+ c) = String y (b +:+ c)) in Heq. injection Heq as -> Heq.
    f_equal. by apply IH.
Qed.

Lemma model_path_inj model_dir a b : model_path model_dir a = model_path model_dir b → a = b.
Proof.
  unfold model_path. intros Heq. apply append_inj_l, append_inj_l in Heq.
  by apply append_inj_r in Heq.
Qed.

(** The files that [save_models] writes for the models. *)
Lemma saved_models (models : gmap string Regressor) model_dir (fs : filesystem) :
  let fs' :=
    map_fold (λ model_name model fs, <[model_path model_dir model_name := model_file model]> fs)
      fs models in
  (∀ k model, models !! k = Some model →
     fs' !! model_path model_dir k = Some (model_file model))
  ∧ (models !! "metadata" = None →
     fs' !! metadata_path model_dir = fs !! metadata_path model_dir).
Proof.
  cbv zeta.
  apply (map_fold_weak_ind (λ fs' (models : gmap string Regressor),
    (∀ k model, models !! k = Some model →
       fs' !! model_path model_dir k = Some (model_file model))
    ∧ (models !! "metadata" = None →
       fs' !! metadata_path model_dir = fs !! metadata_path model_dir))).
  - split; [|done]. intros k model Hk. by rewrite lookup_empty in Hk.
  - intros i x m r Hi [Hmodels Hmeta]. split.
    + intros k model Hk. destruct (decide (i = k)) as [->|Hne].
      * rewrite lookup_insert_eq in Hk. injection Hk as ->. by rewrite lookup_insert_eq.
      * rewrite lookup_insert_ne in Hk by done.
        rewrite lookup_insert_ne; [by apply Hmodels|].
        intros Heq. by apply Hne, (model_path_inj model_dir).
    + intros Hnone. apply lookup_insert_None in Hnone as [Hnone Hne].
      rewrite lookup_insert_ne; [by apply Hmeta|].
      intros Heq. apply Hne, (model_path_inj model_dir). exact Heq.
Qed.

(** The loop of [load_models] over names whose files hold models. *)
Lemma load_loop (saved : gmap string Regressor) model_dir (fs : filesystem)
    (names : list string) (self : pipeline) :
  (∀ k, k ∈ names → ∃ model,
     saved !! k = Some model ∧ fs !! model_path model_dir k = Some (model_file model)) →
  ∃ self',
    foldl (λ acc model_name,
      self ← acc;
      match fs !! model_path model_dir model_name with
      | None => Some self
      | Some (model_file model) =>
          Some {| models := <[model_name := model]> (models self);
                  feature_columns := feature_columns self;
                  target_columns := target_columns self |}
      | Some (metadata_file _) => None
      end)
      (Some self) names = Some self'
    ∧ feature_columns self' = feature_columns self
    ∧ target_columns self' = target_columns self
    ∧ ∀ k, models self' !! k = if decide (k ∈ names) then saved !! k else models self !! k.
Proof.
  revert self. induction names as [|name names IH]; intros self Hnames; cbn [foldl].
  - exists self. split; [done|]. split; [done|]. split; [done|].
    intros k. rewrite decide_False; [done|apply not_elem_of_nil].
  - destruct (Hnames name) as (model & Hsaved & Hfile); [apply list_elem_of_here|].
    cbn [mbind option_bind]. rewrite Hfile.
    destruct (IH {| models := <[name := model]> (models self);
                    feature_columns := feature_columns self;
                    target_columns := target_columns self |})
      as (self' & -> & Hf & Ht & Hm).
    { intros k Hk. by apply Hnames, list_elem_of_further. }
    exists self'. split; [done|]. split; [done|]. split; [done|].
    intros k. rewrite Hm. cbn [models].
    destruct (decide (k ∈ names)) as [Hin|Hin].
    + rewrite decide_True; [done|by apply list_elem_of_further].
    + destruct (decide (k = name)) as [->|Hne].
      * rewrite decide_True by apply list_elem_of_here. by rewrite lookup_insert_eq.
      * rewrite lookup_insert_ne by done. rewrite decide_False; [done|].
        intros Hk. by apply elem_of_cons in Hk as [?|?].
Qed.

(** X27. Saving and loading: [load_models] on the files that [save_models]
    wrote returns [True] and leaves the saved feature columns and target
    resources, and the saved models on top of the models that the loading
    pipeline already held, provided that no saved model is named "metadata"
    (its file would be overwritten by the metadata). *)
Theorem save_load_round_trip (self other : pipeline) (model_dir : string) (fs : filesystem) :
  models self !! "metadata" = None →
  load_models other model_dir (save_models self model_dir fs)
  = Some (true, {| models := models self ∪ models other;
                   feature_columns := feature_columns self;
                   target_columns := target_columns self |}).
Proof.
  intros Hmeta. unfold load_models, save_models. cbv zeta.
  rewrite lookup_insert_eq.
  destruct (saved_models (models self) model_dir fs) as [Hfiles _]. cbv zeta in Hfiles.
  set (fs1 := map_fold _ fs (models self)) in *.
  destruct (load_loop (models self) model_dir
              (<[metadata_path model_dir :=
                   metadata_file {| md_feature_columns := feature_columns self;
                                    md_target_columns := target_columns self;
                                    md_model_names := (map_to_list (models self)).*1 |}]> fs1)
              (map_to_list (models self)).*1
              {| models := models other; feature_columns := feature_columns self;
                 target_columns := target_columns self |})
    as (self' & Hloop & Hf & Ht & Hm).
  { intros k Hk. apply list_elem_of_fmap in Hk as ([k' model] & -> & Hk).
    apply elem_of_map_to_list in Hk. exists model. split; [done|]. cbn [fst].
    rewrite lookup_insert_ne; [by apply Hfiles|].
    intros Heq. apply (model_path_inj model_dir "metadata") in Heq. congruence. }
  cbn [md_feature_columns md_target_columns md_model_names]. rewrite Hloop.
  cbn [fmap option_fmap option_map]. do 2 f_equal.
  destruct self' as [models' features' targets']. cbn in Hf, Ht, Hm. subst. f_equal.
  apply map_eq. intros k. rewrite Hm, lookup_union.
  destruct (decide (k ∈ (map_to_list (models self)).*1)) as [Hin|Hin].
  - apply list_elem_of_fmap in Hin as ([k' model] & -> & Hk).
    apply elem_of_map_to_list in Hk. cbn [fst]. rewrite Hk.
    by destruct (models other !! k').
  - destruct (models self !! k) as [model|] eqn:Hk.
    + exfalso. apply Hin. apply list_elem_of_fmap. exists (k, model). split; [done|].
      by apply elem_of_map_to_list.
    + by destruct (models other !! k).
Qed.

Lemma save_load_round_trip_witness :
  load_models {| models := ∅; feature_columns := []; target_columns := default_targets |}
    "models" (save_models one_model "models" ∅)
  = Some (true, {| models := models one_model ∪ ∅;
                   feature_columns := feature_columns one_model;
                   target_columns := target_columns one_model |}).
Proof.
  apply (save_load_round_trip one_model
           {| models := ∅; feature_columns := []; target_columns := default_targets |}
           "models" ∅).
  vm_compute. reflexivity.
Defined.

(** * Training *)

(** ** What feature preparation does to a raw column *)

Lemma lag_loop_keeps (target_col : string) (s : Series) (ks : list nat) (df : DataFrame) c :
  column df target_col = Some s →
  (∀ suffix, suffix ≠ EmptyString → c ≠ target_col +:+ suffix) →
  ∃ df',
    foldl (λ acc lag,
      let! df := acc in
      let! s := getitem df target_col in
      inr (set_column df (target_col +:+ "_lag_" +:+ pretty lag) (shift lag s)))
      (inr df) ks = inr df'
    ∧ column df' target_col = Some s ∧ column df' c = column df c.
Proof.
  intros Hs Hc. revert df Hs. induction ks as [|k ks IH]; intros df Hs; cbn [foldl].
  - by exists df.
  - cbn [bind]. rewrite (getitem_Some _ _ _ Hs). cbn [bind].
    destruct (IH (set_column df (target_col +:+ "_lag_" +:+ pretty k) (shift k s)))
      as (df' & Hdf' & Hcol & Hkeeps).
    { rewrite column_set_ne; [done|]. by apply append_ne_self. }
    exists df'. split; [done|]. split; [done|]. rewrite Hkeeps.
    apply column_set_ne. intros Heq. symmetry in Heq. revert Heq. apply Hc. discriminate.
Qed.

Lemma create_lag_features_keeps sqrt df target_col s c :
  column df target_col = Some s →
  (∀ suffix, suffix ≠ EmptyString → c ≠ target_col +:+ suffix) →
  ∃ df', create_lag_features sqrt df target_col = inr df' ∧ column df' c = column df c.
Proof.
  intros Hs Hc. unfold create_lag_features.
  destruct (lag_loop_keeps target_col s lags df c Hs Hc) as (df1 & -> & Hs1 & Hkeeps).
  cbn [bind].
  assert (Hread : ∀ d suffix x,
    column d target_col = Some s → suffix ≠ EmptyString →
    column (set_column d (target_col +:+ suffix) x) target_col = Some s).
  { intros d suffix x Hd Hsuffix. rewrite column_set_ne; [done|]. by apply append_ne_self. }
  rewrite (getitem_Some _ _ _ Hs1). cbn [bind].
  rewrite (getitem_Some _ _ s) by (by apply Hread). cbn [bind].
  rewrite (getitem_Some _ _ s) by (by repeat apply Hread). cbn [bind].
  eexists. split; [reflexivity|].
  rewrite !column_set_ne
    by (intros Heq; symmetry in Heq; revert Heq; apply Hc; discriminate).
  exact Hkeeps.
Qed.

Lemma targets_loop_keeps sqrt (targets : list string) (df : DataFrame) c :
  (∀ t suffix, t ∈ targets → suffix ≠ EmptyString → c ≠ t +:+ suffix) →
  ∃ df',
    foldl (λ acc target,
      let! df := acc in
      if has_column df target then create_lag_features sqrt df target else inr df)
      (inr df) targets = inr df'
    ∧ grows df df' ∧ column df' c = column df c.
Proof.
  revert df. induction targets as [|target targets IH]; intros df Hc; cbn [foldl bind].
  - exists df. split; [done|]. split; [apply grows_refl|done].
  - destruct (has_column df target) eqn:Hhas.
    + apply has_column_Some in Hhas as [s Hs].
      destruct (create_lag_features_columns sqrt df target s Hs) as (df1 & Hdf1 & Hg & _).
      destruct (create_lag_features_keeps sqrt df target s c Hs) as (df1' & Hdf1' & Hkeeps).
      { intros suffix. apply Hc, list_elem_of_here. }
      rewrite Hdf1 in Hdf1'. injection Hdf1' as <-. rewrite Hdf1.
      destruct (IH df1) as (df' & -> & Hg' & Hkeeps').
      { intros t suffix Ht. by apply Hc, list_elem_of_further. }
      exists df'. split; [done|]. split; [by eapply grows_trans|]. by rewrite Hkeeps'.
    + apply IH. intros t suffix Ht. by apply Hc, list_elem_of_further.
Qed.

(** On well-formed input, a column whose name no step of the preparation
    writes comes out forward-filled and backward-filled, and otherwise as it
    was. *)
Lemma prepare_features_keeps sqrt self df c :
  well_formed df →
  (∀ t suffix, t ∈ target_columns self → suffix ≠ EmptyString → c ≠ t +:+ suffix) →
  c ∉ ["hour"; "day_of_week"; "month"; "is_weekend"; "is_business_hours"; "is_night";
       "occupancy_oxygen_ratio"; "admission_rate_trend"; "discharge_rate_trend"] →
  ∃ df',
    prepare_features sqrt self df = inr df'
    ∧ nrows df' = nrows df
    ∧ column df' c = (λ s, bfill (ffill s)) <$> column df c.
Proof.
  intros (Hrows & [ts Hts] & Hcols & Hfull) Hc Hnames.
  assert (Hne : ∀ name,
    name ∈ ["hour"; "day_of_week"; "month"; "is_weekend"; "is_business_hours"; "is_night";
            "occupancy_oxygen_ratio"; "admission_rate_trend"; "discharge_rate_trend"] →
    name ≠ c) by (intros name Hin ->; done).
  unfold prepare_features, create_time_features. rewrite Hts. cbv zeta. cbn [bind].
  match goal with |- context [foldl _ (inr ?d) (target_columns self)] =>
    set (df1 := d);
    assert (Hg1 : grows df df1)
      by (unfold df1; repeat (eapply grows_trans; [|apply grows_set_column]);
          apply grows_refl);
    assert (Hk1 : column df1 c = column df c)
      by (unfold df1; rewrite !column_set_ne; [done|..];
          apply Hne; apply (bool_decide_unpack _); vm_compute; exact I)
  end.
  destruct (targets_loop_keeps sqrt (target_columns self) df1 c Hc) as (df2 & -> & Hg2 & Hk2).
  cbn [bind].
  assert (Hg : grows df df2) by (by eapply grows_trans).
  rewrite !Forall_cons in Hcols. destruct Hcols as (Hadm & Hdis & Hbed & Hoxy & _).
  assert (Hread : ∀ d col, grows df d → is_Some (column df col) → ∃ s, getitem d col = inr s).
  { intros d col (_ & _ & Hd) Hcol. destruct (Hd col Hcol) as [s Hs]. exists s.
    by apply getitem_Some. }
  destruct (Hread df2 "bed_occupancy" Hg Hbed) as [bed ->]. cbn [bind].
  destruct (Hread df2 "oxygen_level" Hg Hoxy) as [oxy ->]. cbn [bind].
  match goal with |- context [getitem ?d "admissions"] =>
    destruct (Hread d "admissions") as [adm ->];
      [eapply grows_trans; [exact Hg|apply grows_set_column]|done|]
  end.
  cbn [bind].
  match goal with |- context [getitem ?d "discharges"] =>
    destruct (Hread d "discharges") as [dis ->];
      [eapply grows_trans; [exact Hg|];
       eapply grows_trans; apply grows_set_column|done|]
  end.
  cbn [bind]. eexists. split; [reflexivity|]. split.
  - cbn [nrows fillna_ffill_bfill set_column]. destruct Hg as (-> & _). done.
  - unfold column at 1. cbn [columns fillna_ffill_bfill].
    rewrite (lookup_column_fmap (λ s, bfill (ffill s))). f_equal.
    change (lookup_column (columns ?d) c) with (column d c).
    rewrite !column_set_ne; [by rewrite Hk2, Hk1|..];
      apply Hne; apply (bool_decide_unpack _); vm_compute; exact I.
Qed.

Lemma ffill_from_observed prev (s : Series) : Forall is_Some s → ffill_from prev s = s.
Proof.
  intros Hs. revert prev. induction Hs as [|c s [x ->] _ IH]; intros prev; [done|].
  cbn [ffill_from]. by rewrite IH.
Qed.

Lemma bfill_ffill_observed (s : Series) : Forall is_Some s → bfill (ffill s) = s.
Proof.
  intros Hs. unfold bfill, ffill. rewrite (ffill_from_observed None s Hs).
  rewrite ffill_from_observed by (by apply Forall_rev). apply rev_involutive.
Qed.

(** ** The dict of targets *)

(** A key that every round which writes it writes with the value [v], and
    that holds [v] already or is written by some round, holds [v] at the
    end. *)
Lemma targets_inner_lookup (t : string) (s : Series) (hs : list Z) acc k v :
  (∀ h, h ∈ hs → model_name t h = k → shift_by (- h) s = v) →
  lookup_column acc k = Some v ∨ (∃ h, h ∈ hs ∧ model_name t h = k) →
  lookup_column
    (foldl (λ targets horizon,
       assign_column targets (model_name t horizon) (shift_by (- horizon) s)) acc hs) k
  = Some v.
Proof.
  revert acc. induction hs as [|h hs IH]; intros acc Hwrites Hk; cbn [foldl].
  - destruct Hk as [Hk|(h & Hh & _)]; [done|by apply not_elem_of_nil in Hh].
  - apply IH; [intros h' Hh'; by apply Hwrites, list_elem_of_further|].
    rewrite lookup_assign. destruct (decide (model_name t h = k)) as [Heq|Hne].
    + left. f_equal. by apply Hwrites; [apply list_elem_of_here|].
    + destruct Hk as [Hk|(h' & Hh' & Hname)]; [by left|]. right.
      apply elem_of_cons in Hh' as [->|Hh']; [done|]. by exists h'.
Qed.

Lemma targets_inner_other (t : string) (s : Series) (hs : list Z) acc k :
  (∀ h, h ∈ hs → model_name t h ≠ k) →
  lookup_column
    (foldl (λ targets horizon,
       assign_column targets (model_name t horizon) (shift_by (- horizon) s)) acc hs) k
  = lookup_column acc k.
Proof.
  revert acc. induction hs as [|h hs IH]; intros acc Hk; cbn [foldl]; [done|].
  rewrite IH by (intros h' Hh'; by apply Hk, list_elem_of_further).
  rewrite lookup_assign, decide_False; [done|]. apply Hk, list_elem_of_here.
Qed.

Lemma prediction_targets_lookup self df horizons t h s :
  (∀ t' h', t' ∈ target_columns self → h' ∈ horizons →
     model_name t' h' = model_name t h → t' = t ∧ h' = h) →
  t ∈ target_columns self → column df t = Some s → h ∈ horizons →
  lookup_column (create_prediction_targets self df horizons) (model_name t h)
  = Some (shift_by (- h) s).
Proof.
  intros Hinj Ht Hs Hh. unfold create_prediction_targets.
  assert (Hloop : ∀ ts acc,
    (∀ t', t' ∈ ts → t' ∈ target_columns self) →
    lookup_column acc (model_name t h) = Some (shift_by (- h) s) ∨ t ∈ ts →
    lookup_column
      (foldl (λ targets target_col,
         match column df target_col with
         | Some s =>
             foldl (λ targets horizon,
               assign_column targets (model_name target_col horizon) (shift_by (- horizon) s))
               targets horizons
         | None => targets
         end) acc ts) (model_name t h)
    = Some (shift_by (- h) s)).
  { induction ts as [|t' ts IH]; intros acc Hsub Hk; cbn [foldl].
    - destruct Hk as [Hk|Hk]; [done|by apply not_elem_of_nil in Hk].
    - apply IH; [intros t'' Ht''; by apply Hsub, list_elem_of_further|].
      destruct (decide (t' = t)) as [->|Hne].
      + left. rewrite Hs. apply targets_inner_lookup; [|right; by exists h].
        intros h' Hh' Hname. destruct (Hinj t h' Ht Hh' Hname) as [_ ->]. done.
      + destruct Hk as [Hk|Hk]; [|right; by apply elem_of_cons in Hk as [->|Hk]].
        left. destruct (column df t') as [s'|]; [|done].
        rewrite targets_inner_other; [done|].
        intros h' Hh' Hname. apply Hne.
        by destruct (Hinj t' h' (Hsub t' (list_elem_of_here _ _)) Hh' Hname). }
  apply Hloop; [done|by right].
Qed.

Lemma assign_column_fst cols c s :
  map fst (assign_column cols c s)
  = if bool_decide (c ∈ map fst cols) then map fst cols else map fst cols ++ [c].
Proof.
  induction cols as [|[k s'] cols IH]; cbn [assign_column map fst]; [done|].
  destruct (String.eqb_spec k c) as [->|Hne]; cbn [map fst].
  - by rewrite bool_decide_eq_true_2 by apply list_elem_of_here.
  - rewrite IH. destruct (bool_decide_reflect (c ∈ map fst cols)) as [Hin|Hin].
    + by rewrite bool_decide_eq_true_2 by (by apply list_elem_of_further).
    + rewrite bool_decide_eq_false_2; [done|].
      intros Hc. by apply elem_of_cons in Hc as [->|Hc].
Qed.

Lemma assign_column_names cols c s :
  NoDup (map fst cols) → NoDup (map fst (assign_column cols c s)).
Proof.
  intros Hnodup. rewrite assign_column_fst.
  destruct (bool_decide_reflect (c ∈ map fst cols)) as [Hin|Hin]; [done|].
  apply NoDup_app. split; [done|]. split; [|apply NoDup_singleton].
  intros k Hk Hc. apply list_elem_of_singleton in Hc. by subst.
Qed.

Lemma prediction_targets_names self df horizons :
  NoDup (map fst (create_prediction_targets self df horizons)).
Proof.
  unfold create_prediction_targets.
  assert (Hloop : ∀ ts acc, NoDup (map fst acc) →
    NoDup (map fst
      (foldl (λ targets target_col,
         match column df target_col with
         | Some s =>
             foldl (λ targets horizon,
               assign_column targets (model_name target_col horizon) (shift_by (- horizon) s))
               targets horizons
         | None => targets
         end) acc ts))).
  { induction ts as [|t ts IH]; intros acc Hacc; cbn [foldl]; [done|].
    apply IH. destruct (column df t) as [s|]; [|done]. clear IH.
    revert acc Hacc. induction horizons as [|h hs IHh]; intros acc Hacc; [done|].
    cbn [foldl]. by apply IHh, assign_column_names. }
  apply Hloop. constructor.
Qed.

(** ** The loop over the targets *)

Lemma lookup_column_None cols k : k ∉ map fst cols → lookup_column cols k = None.
Proof.
  induction cols as [|[k' s] cols IH]; [done|]. cbn. intros Hk.
  destruct (String.eqb_spec k' k) as [->|Hne]; [by destruct Hk; apply list_elem_of_here|].
  apply IH. intros Hin. by apply Hk, list_elem_of_further.
Qed.

Section train_loop.
Context (fit : list (list (option Q)) → list Q → Regressor) (df_features : DataFrame).

Lemma train_one_fields self target :
  feature_columns (train_one fit df_features self target) = feature_columns self
  ∧ target_columns (train_one fit df_features self target) = target_columns self
  ∧ ∀ k, k ≠ target.1 →
      models (train_one fit df_features self target) !! k = models self !! k.
Proof.
  destruct target as [name y]. unfold train_one.
  destruct (length (observations y) <? 50)%nat; [done|]. cbn.
  split; [done|]. split; [done|]. intros k Hk. by rewrite lookup_insert_ne.
Qed.

Lemma train_loop (targets : list (string * Series)) (self : pipeline) :
  let self' := foldl (train_one fit df_features) self targets in
  feature_columns self' = feature_columns self
  ∧ target_columns self' = target_columns self
  ∧ (∀ k, is_Some (models self !! k) → is_Some (models self' !! k))
  ∧ (NoDup (map fst targets) → ∀ k,
       match lookup_column targets k with
       | Some y =>
           if (length (observations y) <? 50)%nat then models self' !! k = models self !! k
           else ∃ X n_train,
                  models self' !! k = Some (fit X (take n_train (observations y)))
       | None => models self' !! k = models self !! k
       end).
Proof.
  revert self. induction targets as [|[name y] targets IH]; intros self; cbn zeta;
    cbn [foldl].
  - split; [done|]. split; [done|]. split; [done|]. by intros _ k.
  - destruct (IH (train_one fit df_features self (name, y))) as (Hf & Ht & Hkeeps & Hlook).
    cbn zeta in Hf, Ht, Hkeeps, Hlook.
    destruct (train_one_fields self (name, y)) as (Hf1 & Ht1 & Hother).
    split; [by rewrite Hf|]. split; [by rewrite Ht|]. split.
    + intros k Hk. apply Hkeeps. destruct (decide (k = name)) as [->|Hne].
      * unfold train_one. destruct (length (observations y) <? 50)%nat; [done|].
        cbn. rewrite lookup_insert_eq. by eexists.
      * by rewrite Hother.
    + intros Hnodup k. cbn [map fst] in Hnodup. apply NoDup_cons in Hnodup as [Hname Hnodup].
      specialize (Hlook Hnodup k). cbn [lookup_column].
      destruct (String.eqb_spec name k) as [->|Hne].
      * rewrite lookup_column_None in Hlook by done. rewrite Hlook.
        unfold train_one. destruct (length (observations y) <? 50)%nat; [done|].
        cbn. rewrite lookup_insert_eq. by eexists _, _.
      * rewrite Hother in Hlook by (cbn; congruence). exact Hlook.
Qed.

End train_loop.

Lemma default_model_names t h t' h' :
  t ∈ default_targets → t' ∈ default_targets →
  model_name t' h' = model_name t h → t' = t ∧ h' = h.
Proof.
  unfold default_targets, model_name. rewrite !elem_of_cons.
  intros [-> | [-> | [-> | Ht]]] [-> | [-> | [-> | Ht']]] Heq;
    try (by apply not_elem_of_nil in Ht); try (by apply not_elem_of_nil in Ht');
    try discriminate Heq;
    (split; [done|]; apply append_inj_l, append_inj_l, append_inj_r in Heq;
     by apply (inj pretty)).
Qed.

Lemma observations_app (s1 s2 : Series) :
  observations (s1 ++ s2) = observations s1 ++ observations s2.
Proof. unfold observations. apply omap_app. Qed.

Lemma observations_NaN (n : nat) : observations (replicate n None) = [].
Proof. induction n as [|n IH]; [done|]. exact IH. Qed.

Lemma observations_length (s : Series) :
  Forall is_Some s → length (observations s) = length s.
Proof.
  induction 1 as [|c s [x ->] _ IH]; [done|].
  change (observations (Some x :: s)) with (x :: observations s). cbn [length].
  by rewrite IH.
Qed.

Lemma observations_shift_back (s : Series) (h : Z) :
  0 ≤ h → observations (shift_by (- h) s) = observations (drop (Z.to_nat h) s).
Proof.
  intros Hh. unfold shift_by. destruct (Z.leb_spec 0 (- h)) as [Hle|Hlt].
  - replace h with 0 by lia. cbn. unfold shift. cbn. by rewrite firstn_all.
  - rewrite Z.opp_involutive, observations_app, observations_NaN. apply app_nil_r.
Qed.

(** X28. [train_models] does not remove a model: every model that was
    registered before the call is registered after it, also when the call
    trains nothing. The target resources stay, and the feature columns become
    the columns of the prepared frame other than the timestamp and the target
    resources. *)
Theorem train_models_keeps_models sqrt fit self df horizons self' :
  train_models sqrt fit self df horizons = inr self' →
  (∀ name, is_Some (models self !! name) → is_Some (models self' !! name))
  ∧ target_columns self' = target_columns self
  ∧ ∃ df_features,
      prepare_features sqrt self df = inr df_features
      ∧ feature_columns self'
        = filter (λ col, col ∉ "timestamp" :: target_columns self)
            (map fst (columns df_features)).
Proof.
  unfold train_models.
  destruct (prepare_features sqrt self df) as [e|df_features]; [done|]. cbn [bind]. cbv zeta.
  intros [= <-].
  match goal with |- context [foldl _ ?p ?targets] =>
    destruct (train_loop fit df_features targets p) as (Hf & Ht & Hkeeps & _)
  end.
  cbn zeta in Hf, Ht, Hkeeps. cbn [models feature_columns target_columns] in Hf, Ht, Hkeeps.
  split; [exact Hkeeps|]. split; [exact Ht|]. exists df_features. by split.
Qed.

Lemma train_models_keeps_models_witness :
  (∀ name, is_Some (models one_model !! name) → is_Some (models retrained !! name))
  ∧ target_columns retrained = target_columns one_model
  ∧ ∃ df_features,
      prepare_features isqrt one_model (input_frame (Dict main_current_state))
      = inr df_features
      ∧ feature_columns retrained
        = filter (λ col, col ∉ "timestamp" :: target_columns one_model)
            (map fst (columns df_features)).
Proof.
  apply (train_models_keeps_models isqrt mean_fit one_model
           (input_frame (Dict main_current_state)) [1; 6; 24] retrained).
  vm_compute. reflexivity.
Defined.

(** X29. Training needs 50 rows with a known target. On well-formed input,
    with the target resources of the constructor and a target column without
    NaN, [train_models] returns; for a requested horizon [h] that is not
    negative it leaves the model of the pair as it was (registered or not) when
    the frame has fewer than 50 + h rows, and otherwise registers a model
    fitted to a prefix of the target's values from row [h] on. *)
Theorem training_needs_fifty_rows sqrt fit self df horizons target horizon s :
  target_columns self = default_targets →
  well_formed df →
  target ∈ default_targets → column df target = Some s → Forall is_Some s →
  horizon ∈ horizons → 0 ≤ horizon →
  ∃ self',
    train_models sqrt fit self df horizons = inr self'
    ∧ (Z.of_nat (nrows df) < 50 + horizon →
       models self' !! model_name target horizon = models self !! model_name target horizon)
    ∧ (50 + horizon ≤ Z.of_nat (nrows df) →
       ∃ X y,
         models self' !! model_name target horizon = Some (fit X y)
         ∧ y `prefix_of` observations (drop (Z.to_nat horizon) s)).
Proof.
  intros Htargets Hdf Ht Hs Hobserved Hh Hpos.
  destruct (prepare_features_keeps sqrt self df target Hdf)
    as (df_features & Hprepared & Hrows & Hcol).
  { rewrite Htargets. intros t suffix Hin Hsuffix. revert Ht Hin.
    unfold default_targets. rewrite !elem_of_cons.
    intros [-> | [-> | [-> | Ht]]] [-> | [-> | [-> | Hin]]];
      try (by apply not_elem_of_nil in Ht); try (by apply not_elem_of_nil in Hin);
      try (intros Heq; discriminate Heq);
      (intros Heq; symmetry in Heq; by apply append_ne_self in Heq). }
  { revert Ht. unfold default_targets. rewrite !elem_of_cons.
    intros [-> | [-> | [-> | Ht]]]; [| | |by apply not_elem_of_nil in Ht];
      apply (bool_decide_unpack _); vm_compute; exact I. }
  rewrite Hs in Hcol. cbn [fmap option_fmap option_map] in Hcol.
  rewrite bfill_ffill_observed in Hcol by done.
  assert (Hlen : length s = nrows df).
  { destruct Hdf as (_ & _ & _ & Hfull). by apply (full_columns _ _ _ _ Hfull) in Hs. }
  unfold train_models. rewrite Hprepared. cbn [bind]. cbv zeta.
  eexists. split; [reflexivity|].
  match goal with |- context [foldl _ ?p ?targets] =>
    set (self1 := p);
    destruct (train_loop fit df_features targets self1) as (_ & _ & _ & Hlook);
    assert (Hy : lookup_column targets (model_name target horizon)
                 = Some (shift_by (- horizon) s));
    [|specialize (Hlook (prediction_targets_names _ _ _) (model_name target horizon))]
  end.
  { apply prediction_targets_lookup; [|by cbn; rewrite Htargets|done..].
    cbn [target_columns]. rewrite Htargets. intros t' h' Ht' _ Hname.
    by apply default_model_names. }
  cbn zeta in Hlook. rewrite Hy in Hlook.
  rewrite observations_shift_back in Hlook by done.
  rewrite observations_length in Hlook by (by apply Forall_drop).
  rewrite length_drop, Hlen in Hlook.
  destruct (Nat.ltb_spec (nrows df - Z.to_nat horizon) 50) as [Hshort|Henough].
  - split; [intros _; exact Hlook|]. intros Hrows'. lia.
  - split; [intros Hrows'; lia|]. intros _. destruct Hlook as (X & n_train & Hmodel).
    exists X, (take n_train (observations (drop (Z.to_nat horizon) s))).
    split; [exact Hmodel|]. exists (drop n_train (observations (drop (Z.to_nat horizon) s))).
    by rewrite take_drop.
Qed.

Lemma sixty_rows_well_formed : well_formed sixty_rows.
Proof.
  unfold well_formed. split; [by vm_compute|]. split; [by eexists|]. split.
  - repeat (apply List.Forall_cons; [vm_compute; by eexists|]). apply List.Forall_nil.
  - vm_compute. repeat (apply List.Forall_cons; [reflexivity|]). apply List.Forall_nil.
Qed.

Lemma training_needs_fifty_rows_witness :
  ∃ self',
    train_models isqrt mean_fit one_model sixty_rows [1; 6; 24] = inr self'
    ∧ (Z.of_nat (nrows sixty_rows) < 50 + 6 →
       models self' !! model_name "admissions" 6 = models one_model !! model_name "admissions" 6)
    ∧ (50 + 6 ≤ Z.of_nat (nrows sixty_rows) →
       ∃ X y,
         models self' !! model_name "admissions" 6 = Some (mean_fit X y)
         ∧ y `prefix_of` observations (drop (Z.to_nat 6) (replicate 60 (Some (inject_Z 8))))).
Proof.
  apply (training_needs_fifty_rows isqrt mean_fit one_model sixty_rows [1; 6; 24]
           "admissions" 6 (replicate 60 (Some (inject_Z 8)))).
  - reflexivity.
  - exact sixty_rows_well_formed.
  - apply (bool_decide_unpack _). vm_compute. exact I.
  - reflexivity.
  - apply Forall_forall. intros c Hc. apply elem_of_replicate in Hc as [-> _]. by eexists.
  - apply (bool_decide_unpack _). vm_compute. exact I.
  - lia.
Defined.

(** * A raw column that is missing *)

(** The time features and the lag features of the constructor's target
    resources leave the raw columns as they are, present or absent. *)
Lemma features_keep_raw_columns sqrt (df : DataFrame) ts :
  timestamp df = Some ts →
  ∃ df1 df2,
    create_time_features df = inr df1
    ∧ foldl (λ acc target,
        let! df := acc in
        if has_column df target then create_lag_features sqrt df target else inr df)
        (inr df1) default_targets = inr df2
    ∧ ∀ c, c ∈ raw_columns → column df2 c = column df c.
Proof.
  intros Hts. unfold create_time_features. rewrite Hts. cbv zeta.
  eexists. 
  match goal with |- ∃ df2, inr ?d = inr _ ∧ _ => set (df1 := d) end.
  assert (Hk1 : ∀ c, c ∈ raw_columns → column df1 c = column df c).
  { intros c Hc. unfold df1. rewrite !column_set_ne; [done|..];
      unfold raw_columns in Hc; rewrite !elem_of_cons in Hc;
      destruct Hc as [-> | [-> | [-> | [-> | Hc]]]];
      (done || by apply not_elem_of_nil in Hc). }
  assert (Hkeeps : ∀ c, c ∈ raw_columns →
    ∀ t suffix, t ∈ default_targets → suffix ≠ EmptyString → c ≠ t +:+ suffix).
  { intros c Hc t suffix Ht Hsuffix. revert Hc Ht.
    unfold raw_columns, default_targets. rewrite !elem_of_cons.
    intros [-> | [-> | [-> | [-> | Hc]]]] [-> | [-> | [-> | Ht]]];
      try (by apply not_elem_of_nil in Ht); try (by apply not_elem_of_nil in Hc);
      try (intros Heq; discriminate Heq);
      (intros Heq; symmetry in Heq; by apply append_ne_self in Heq). }
  destruct (targets_loop_keeps sqrt default_targets df1 "bed_occupancy") as (df2 & Hloop & _ & _).
  { apply Hkeeps. apply (bool_decide_unpack _). vm_compute. exact I. }
  exists df2. split; [done|]. split; [exact Hloop|].
  intros c Hc. rewrite <- (Hk1 c Hc).
  destruct (targets_loop_keeps sqrt default_targets df1 c (Hkeeps c Hc)) as (df2' & Hloop' & _ & Hk).
  rewrite Hloop in Hloop'. by injection Hloop' as <-.
Qed.

(** X30. A raw column that is missing. With the target resources of the
    constructor and input that has a timestamp, [predict_resources] raises
    [KeyError] for the first of the columns bed_occupancy, oxygen_level,
    admissions and discharges that the input lacks, whether or not the column
    is a target resource. *)
Theorem predict_resources_needs_raw_columns sqrt self data horizons before c after :
  target_columns self = default_targets →
  is_Some (timestamp (input_frame data)) →
  raw_columns = before ++ c :: after →
  Forall (λ b, is_Some (column (input_frame data) b)) before →
  column (input_frame data) c = None →
  predict_resources sqrt self data horizons = inl (KeyError c).
Proof.
  intros Htargets [ts Hts] Hsplit Hbefore Hnone.
  destruct (features_keep_raw_columns sqrt (input_frame data) ts Hts)
    as (df1 & df2 & Hdf1 & Hdf2 & Hraw).
  unfold predict_resources, prepare_features. cbv zeta.
  rewrite Hdf1. cbn [bind]. rewrite Htargets, Hdf2. cbn [bind].
  assert (Hpresent : ∀ b, b ∈ before → ∃ s, column df2 b = Some s).
  { intros b Hb. rewrite Hraw by (rewrite Hsplit; apply elem_of_app; by left).
    rewrite Forall_forall in Hbefore. by apply Hbefore. }
  assert (Hmissing : column df2 c = None).
  { rewrite Hraw; [done|]. rewrite Hsplit. apply elem_of_app. right. apply list_elem_of_here. }
  unfold raw_columns in Hsplit.
  destruct before as [|b0 [|b1 [|b2 [|b3 before]]]]; cbn in Hsplit; simplify_eq.
  - unfold getitem at 1. rewrite Hmissing. reflexivity.
  - destruct (Hpresent "bed_occupancy") as [bed Hbed]; [apply list_elem_of_here|].
    rewrite (getitem_Some _ _ _ Hbed). cbn [bind].
    unfold getitem at 1. rewrite Hmissing. reflexivity.
  - destruct (Hpresent "bed_occupancy") as [bed Hbed]; [apply list_elem_of_here|].
    destruct (Hpresent "oxygen_level") as [oxy Hoxy];
      [apply list_elem_of_further, list_elem_of_here|].
    rewrite (getitem_Some _ _ _ Hbed). cbn [bind].
    rewrite (getitem_Some _ _ _ Hoxy). cbn [bind].
    unfold getitem at 1. rewrite column_set_ne, Hmissing by done. reflexivity.
  - destruct (Hpresent "bed_occupancy") as [bed Hbed]; [apply list_elem_of_here|].
    destruct (Hpresent "oxygen_level") as [oxy Hoxy];
      [apply list_elem_of_further, list_elem_of_here|].
    destruct (Hpresent "admissions") as [adm Hadm];
      [apply list_elem_of_further, list_elem_of_further, list_elem_of_here|].
    rewrite (getitem_Some _ _ _ Hbed). cbn [bind].
    rewrite (getitem_Some _ _ _ Hoxy). cbn [bind].
    rewrite (getitem_Some _ _ adm) by (by rewrite column_set_ne). cbn [bind].
    unfold getitem at 1. rewrite !column_set_ne, Hmissing by done. reflexivity.
  - by destruct before.
Qed.

Lemma predict_resources_needs_raw_columns_witness :
  predict_resources isqrt one_model (Frame three_rows) [1; 2]
  = inl (KeyError "bed_occupancy").
Proof.
  apply (predict_resources_needs_raw_columns isqrt one_model (Frame three_rows) [1; 2]
           [] "bed_occupancy" ["oxygen_level"; "admissions"; "discharges"]).
  - reflexivity.
  - by eexists.
  - reflexivity.
  - apply List.Forall_nil.
  - reflexivity.
Defined.

(** * Rolling statistics of the prepared frame *)

(** ** The window of a row *)

Lemma omap_map {A B C} (f : B → option C) (g : A → B) (l : list A) :
  omap f (map g l) = omap (λ x, f (g x)) l.
Proof. induction l as [|x l IH]; [done|]. cbn. by rewrite IH. Qed.

Lemma omap_agree {A B} (f g : A → option B) (l : list A) :
  (∀ x, x ∈ l → f x = g x) → omap f l = omap g l.
Proof.
  induction l as [|x l IH]; intros Hfg; [done|]. cbn.
  rewrite (Hfg x) by left. rewrite IH; [done|]. intros y Hy. apply Hfg. by right.
Qed.

(** The observations of the window of row [t] are the values that are not
    NaN among the trailing rows. *)
Lemma window_observed (w : nat) (s : Series) (t : nat) :
  (t < length s)%nat → observations (window w s t) = observed_trailing w s t.
Proof.
  intros Ht. unfold window, observed_trailing, observations.
  rewrite (drop_take_nth s _ _ None) by lia. rewrite omap_map.
  replace (S t - (S t - w))%nat with (min w (S t)) by lia.
  apply omap_agree. intros i _. rewrite nth_lookup. by destruct (s !! i).
Qed.

(** The values of the window of row [t] are read at rows up to [t] only. *)
Lemma observed_trailing_past (w : nat) (s s' : Series) (t : nat) :
  take (S t) s' = take (S t) s → observed_trailing w s' t = observed_trailing w s t.
Proof.
  intros Heq. unfold observed_trailing. apply omap_agree. intros i Hi.
  apply elem_of_seq in Hi.
  rewrite <- (lookup_take_lt s' (S t) i), <- (lookup_take_lt s (S t) i) by lia.
  by rewrite Heq.
Qed.

Lemma rolling_mean_cell (w : nat) (s : Series) (t : nat) :
  (t < length s)%nat → rolling_mean w 1 s !! t = Some (trailing_mean w s t).
Proof.
  intros Ht. unfold rolling_mean, trailing_mean. rewrite rolling_lookup by done. cbv zeta.
  rewrite window_observed by done. by destruct (observed_trailing w s t).
Qed.

Lemma rolling_std_cell sqrt (w : nat) (s : Series) (t : nat) :
  (t < length s)%nat → rolling_std sqrt w 1 s !! t = Some (trailing_std sqrt w s t).
Proof.
  intros Ht. unfold rolling_std, trailing_std. rewrite rolling_lookup by done. cbv zeta.
  rewrite window_observed by done. by destruct (observed_trailing w s t) as [|x [|y obs]].
Qed.

Lemma rolling_length w m stat (s : Series) : length (rolling w m stat s) = length s.
Proof. unfold rolling. by rewrite length_map, length_seq. Qed.

(** ** What the fill does to a column *)

Lemma ffill_from_snoc prev (l : Series) c :
  ffill_from prev (l ++ [c])
  = ffill_from prev l
    ++ [match c with Some _ => c | None => default prev (last (ffill_from prev l)) end].
Proof.
  revert prev. induction l as [|a l IH]; intros prev; [done|].
  cbn [app ffill_from]. cbv zeta. rewrite IH. cbn [app].
  destruct c as [x|]; [done|].
  destruct (ffill_from _ l) as [|o l0]; [done|].
  rewrite !last_cons. by destruct (last l0).
Qed.

Lemma head_rev {A} (l : list A) : head (rev l) = last l.
Proof.
  induction l as [|a l IH]; [done|]. cbn [rev]. rewrite last_cons, <- IH.
  by destruct (rev l).
Qed.

(** Backward fill, from the first row on: a NaN takes the value that follows
    it, once that is filled. *)
Lemma bfill_cons c (l : Series) :
  bfill (c :: l)
  = match c with Some _ => c | None => default None (head (bfill l)) end :: bfill l.
Proof.
  unfold bfill, ffill. cbn [rev]. rewrite ffill_from_snoc, rev_app_distr. cbn [rev app].
  by rewrite head_rev.
Qed.

Lemma ffill_from_keeps prev (s : Series) i x :
  s !! i = Some (Some x) → ffill_from prev s !! i = Some (Some x).
Proof.
  revert prev i. induction s as [|c s IH]; intros prev [|i] Hi; [done..| |].
  - by injection Hi as ->.
  - cbn [ffill_from]. by apply IH.
Qed.

Lemma bfill_keeps (s : Series) i x : s !! i = Some (Some x) → bfill s !! i = Some (Some x).
Proof.
  revert i. induction s as [|c s IH]; intros [|i] Hi; [done..| |]; rewrite bfill_cons.
  - by injection Hi as ->.
  - by apply IH.
Qed.

Lemma ffill_leading (s : Series) j i :
  (∀ i, (i < j)%nat → s !! i = Some None) → (i < j)%nat → ffill s !! i = Some None.
Proof.
  unfold ffill. revert j i. induction s as [|c s IH]; intros j i Hnan Hi.
  - by specialize (Hnan i Hi).
  - pose proof (Hnan 0%nat ltac:(lia)) as H0. injection H0 as ->. cbn [ffill_from].
    destruct i as [|i]; [done|]. destruct j as [|j]; [lia|].
    apply (IH j); [|lia]. intros i' Hi'. apply (Hnan (S i')). lia.
Qed.

Lemma bfill_leading (s : Series) j x i :
  s !! j = Some (Some x) → (∀ i, (i < j)%nat → s !! i = Some None) → (i ≤ j)%nat →
  bfill s !! i = Some (Some x).
Proof.
  revert s i. induction j as [|j IH]; intros [|c s] i Hj Hnan Hi; [done| |done|].
  - injection Hj as ->. replace i with 0%nat by lia. by rewrite bfill_cons.
  - pose proof (Hnan 0%nat ltac:(lia)) as H0. injection H0 as ->. rewrite bfill_cons.
    assert (Hrest : ∀ i', (i' ≤ j)%nat → bfill s !! i' = Some (Some x)).
    { intros i' Hi'. apply IH; [done| |done]. intros k Hk. apply (Hnan (S k)). lia. }
    destruct i as [|i]; [|apply Hrest; lia].
    rewrite head_lookup, (Hrest 0%nat) by lia. done.
Qed.

(** A value of the column stays; the rows before the first value get that
    value; a column without a value stays as it is. *)
Lemma fill_keeps (r : Series) i x :
  r !! i = Some (Some x) → bfill (ffill r) !! i = Some (Some x).
Proof. intros Hi. by apply bfill_keeps, ffill_from_keeps. Qed.

Lemma fill_leading (r : Series) j x i :
  r !! j = Some (Some x) → (∀ i, (i < j)%nat → r !! i = Some None) → (i ≤ j)%nat →
  bfill (ffill r) !! i = Some (Some x).
Proof.
  intros Hj Hnan Hi. apply (bfill_leading _ j); [by apply ffill_from_keeps| |done].
  intros k Hk. by apply (ffill_leading r j).
Qed.

Lemma fill_all_NaN (r : Series) i :
  (∀ i, (i < length r)%nat → r !! i = Some None) → (i < length r)%nat →
  bfill (ffill r) !! i = Some None.
Proof.
  intros Hnan Hi.
  assert (Hall : Forall (λ c : option Q, c = None) r).
  { apply Forall_lookup. intros k c Hk. pose proof (lookup_lt_Some _ _ _ Hk) as Hlt.
    rewrite (Hnan k Hlt) in Hk. by injection Hk as <-. }
  rewrite ffill_all_NaN by done. unfold bfill.
  rewrite ffill_all_NaN by (by apply Forall_rev). rewrite rev_involutive. by apply Hnan.
Qed.

Lemma ffill_from_length prev (s : Series) : length (ffill_from prev s) = length s.
Proof.
  revert prev. induction s as [|c s IH]; intros prev; [done|]. cbn [ffill_from length].
  by rewrite IH.
Qed.

Lemma bfill_length (s : Series) : length (bfill s) = length s.
Proof. unfold bfill, ffill. by rewrite length_rev, ffill_from_length, length_rev. Qed.

(** Forward fill: a NaN after the first row takes the value of the row
    before, once that is filled. *)
Lemma ffill_from_step prev (s : Series) t :
  s !! S t = Some None → ffill_from prev s !! S t = ffill_from prev s !! t.
Proof.
  revert prev t. induction s as [|c s IH]; intros prev t Ht; [done|].
  cbn [ffill_from]. cbv zeta. destruct t as [|t].
  - destruct s as [|c0 s]; [done|]. injection Ht as ->. done.
  - apply (IH _ t). exact Ht.
Qed.

Lemma bfill_NaN_next (s : Series) t :
  s !! t = Some None → (S t < length s)%nat → bfill s !! t = bfill s !! S t.
Proof.
  revert t. induction s as [|c s IH]; intros t Ht Hlen; [done|]. rewrite bfill_cons.
  destruct t as [|t].
  - injection Ht as ->. cbn [length] in Hlen.
    change ((?x :: bfill s) !! 1%nat) with (bfill s !! 0%nat). rewrite <- head_lookup.
    destruct (bfill s) as [|c0 r] eqn:Hb; [|done].
    apply (f_equal length) in Hb. rewrite bfill_length in Hb. cbn in Hb. lia.
  - cbn [length] in Hlen. apply (IH t); [exact Ht|lia].
Qed.

Lemma fill_step (r : Series) t :
  r !! S t = Some None → bfill (ffill r) !! S t = bfill (ffill r) !! t.
Proof.
  intros Ht. pose proof (ffill_from_step None r t Ht) as Hstep. fold (ffill r) in Hstep.
  assert (Hlen : (S t < length (ffill r))%nat).
  { unfold ffill. rewrite ffill_from_length. by apply lookup_lt_Some in Ht. }
  destruct (ffill r !! t) as [[x|]|] eqn:Hcell.
  - by rewrite (bfill_keeps _ _ x Hstep), (bfill_keeps _ _ x Hcell).
  - symmetry. by apply bfill_NaN_next.
  - apply lookup_ge_None in Hcell. lia.
Qed.

(** The column that the fill makes of a column of statistics. *)
Lemma fill_filled_statistic (stat : nat → option Q) (r : Series) :
  (∀ t, (t < length r)%nat → r !! t = Some (stat t)) →
  filled_statistic stat (length r) (bfill (ffill r)).
Proof.
  intros Hr. split; [|split; [|split; [|split]]].
  - unfold ffill. by rewrite bfill_length, ffill_from_length.
  - intros t x Ht Hx. apply fill_keeps. by rewrite Hr, Hx.
  - intros t Ht Hnone. apply fill_step. by rewrite Hr, Hnone.
  - intros t x Ht Hx Hbefore i Hi. apply (fill_leading r t); [by rewrite Hr, Hx| |done].
    intros k Hk. rewrite Hr by lia. by rewrite Hbefore.
  - intros Hnone t Ht. apply fill_all_NaN; [|done].
    intros k Hk. rewrite Hr by done. by rewrite Hnone.
Qed.

(** ** The rolling columns of the prepared frame *)

(** The loop over the targets leaves in column [c] what
    [create_lag_features] writes there for [target], when no other target
    writes [c] and no target writes the column [target]. *)
Lemma targets_loop_sets sqrt (targets : list string) (df : DataFrame)
    (target c : string) (s v : Series) :
  (∀ d d', column d target = Some s → create_lag_features sqrt d target = inr d' →
     column d' c = Some v) →
  (∀ t suffix, t ∈ targets → suffix ≠ EmptyString → target ≠ t +:+ suffix) →
  (∀ t suffix, t ∈ targets → t ≠ target → suffix ≠ EmptyString → c ≠ t +:+ suffix) →
  column df target = Some s →
  target ∈ targets ∨ column df c = Some v →
  ∃ df',
    foldl (λ acc target,
      let! df := acc in
      if has_column df target then create_lag_features sqrt df target else inr df)
      (inr df) targets = inr df'
    ∧ grows df df' ∧ column df' c = Some v.
Proof.
  intros Hsets. revert df.
  induction targets as [|t targets IH]; intros df Htarget Hc Hs Hor; cbn [foldl bind].
  - destruct Hor as [Hin|Hv]; [by apply elem_of_nil in Hin|].
    exists df. split; [done|]. split; [apply grows_refl|done].
  - assert (Htarget' : ∀ t' suffix, t' ∈ targets → suffix ≠ EmptyString →
                         target ≠ t' +:+ suffix).
    { intros t' suffix Ht'. by apply Htarget, list_elem_of_further. }
    assert (Hc' : ∀ t' suffix, t' ∈ targets → t' ≠ target → suffix ≠ EmptyString →
                    c ≠ t' +:+ suffix).
    { intros t' suffix Ht'. by apply Hc, list_elem_of_further. }
    destruct (has_column df t) eqn:Hhas.
    + apply has_column_Some in Hhas as [st Hst].
      destruct (create_lag_features_columns sqrt df t st Hst) as (df1 & Hdf1 & Hg & _).
      destruct (create_lag_features_keeps sqrt df t st target Hst) as (d1 & Hd1 & Hkeeps).
      { intros suffix. apply Htarget, list_elem_of_here. }
      rewrite Hdf1 in Hd1. injection Hd1 as <-. rewrite Hdf1.
      assert (Hs1 : column df1 target = Some s) by (by rewrite Hkeeps).
      destruct (IH df1 Htarget' Hc' Hs1) as (df' & -> & Hg' & Hv).
      { destruct (decide (t = target)) as [->|Hne].
        - right. by apply (Hsets df df1).
        - destruct Hor as [Hin|Hv].
          + left. apply elem_of_cons in Hin as [->|Hin]; [done|exact Hin].
          + right.
            destruct (create_lag_features_keeps sqrt df t st c Hst) as (d1 & Hd1 & Hkc).
            { intros suffix. by apply Hc; [apply list_elem_of_here|]. }
            rewrite Hdf1 in Hd1. injection Hd1 as <-. by rewrite Hkc. }
      exists df'. split; [done|]. split; [by eapply grows_trans|done].
    + apply (IH df Htarget' Hc' Hs).
      destruct Hor as [Hin|Hv]; [left|by right].
      apply elem_of_cons in Hin as [->|Hin]; [|exact Hin].
      assert (has_column df t = true) as Hyes by (apply has_column_Some; by eexists).
      congruence.
Qed.

(** On well-formed input the three rolling columns of a target resource come
    out of [prepare_features] as the rolling statistics of the resource's
    series, filled forward and then backward. *)
Lemma prepared_rolling_columns sqrt self df target_col s :
  target_columns self = default_targets →
  well_formed df →
  target_col ∈ default_targets →
  column df target_col = Some s →
  ∃ df_features,
    prepare_features sqrt self df = inr df_features
    ∧ column df_features (target_col +:+ "_roll_mean_6")
      = Some (bfill (ffill (rolling_mean 6 1 s)))
    ∧ column df_features (target_col +:+ "_roll_mean_24")
      = Some (bfill (ffill (rolling_mean 24 1 s)))
    ∧ column df_features (target_col +:+ "_roll_std_6")
      = Some (bfill (ffill (rolling_std sqrt 6 1 s))).
Proof.
  intros Htargets (Hrows & [ts Hts] & Hcols & Hfull) Hin Hs.
  assert (Hcases : target_col = "admissions" ∨ target_col = "bed_occupancy"
                   ∨ target_col = "oxygen_level").
  { unfold default_targets in Hin. rewrite !elem_of_cons in Hin.
    destruct Hin as [?|[?|[?|Hnil]]]; [tauto..|by apply elem_of_nil in Hnil]. }
  unfold prepare_features, create_time_features. rewrite Hts, Htargets. cbv zeta. cbn [bind].
  match goal with |- context [foldl _ (inr ?d) default_targets] =>
    set (df1 := d);
    assert (Hg1 : grows df df1)
      by (unfold df1; repeat (eapply grows_trans; [|apply grows_set_column]);
          apply grows_refl);
    assert (Hs1 : column df1 target_col = Some s)
      by (unfold df1; rewrite !column_set_ne; [done|..];
          destruct Hcases as [->|[->| ->]]; discriminate)
  end.
  assert (Hnever : ∀ t suffix, t ∈ default_targets → suffix ≠ EmptyString →
                     target_col ≠ t +:+ suffix).
  { intros t suffix Ht Hsuffix Heq. unfold default_targets in Ht.
    rewrite !elem_of_cons in Ht.
    destruct Ht as [->|[->|[->|Hnil]]]; [..|by apply elem_of_nil in Hnil];
      destruct Hcases as [->|[->| ->]];
      first [by symmetry in Heq; apply append_ne_self in Heq | by cbn in Heq]. }
  assert (Hother : ∀ name t suffix, t ∈ default_targets → t ≠ target_col →
                     suffix ≠ EmptyString → target_col +:+ name ≠ t +:+ suffix).
  { intros name t suffix Ht Hne _ Heq. unfold default_targets in Ht.
    rewrite !elem_of_cons in Ht.
    destruct Ht as [->|[->|[->|Hnil]]]; [..|by apply elem_of_nil in Hnil];
      destruct Hcases as [->|[->| ->]]; first [done | by cbn in Heq]. }
  assert (Hloop : ∃ df2,
    foldl (λ acc target,
      let! df := acc in
      if has_column df target then create_lag_features sqrt df target else inr df)
      (inr df1) default_targets = inr df2
    ∧ grows df1 df2
    ∧ column df2 (target_col +:+ "_roll_mean_6") = Some (rolling_mean 6 1 s)
    ∧ column df2 (target_col +:+ "_roll_mean_24") = Some (rolling_mean 24 1 s)
    ∧ column df2 (target_col +:+ "_roll_std_6") = Some (rolling_std sqrt 6 1 s)).
  { destruct (targets_loop_sets sqrt default_targets df1 target_col
                (target_col +:+ "_roll_mean_6") s (rolling_mean 6 1 s))
      as (df2 & Hdf2 & Hg2 & Hm6); [|exact Hnever|apply Hother|exact Hs1|by left|].
    { intros d d' Hd Hd'.
      destruct (create_lag_features_columns sqrt d target_col s Hd) as (d2 & Hd2 & _ & H & _).
      rewrite Hd' in Hd2. by injection Hd2 as <-. }
    destruct (targets_loop_sets sqrt default_targets df1 target_col
                (target_col +:+ "_roll_mean_24") s (rolling_mean 24 1 s))
      as (d2 & Hd2 & _ & Hm24); [|exact Hnever|apply Hother|exact Hs1|by left|].
    { intros d d' Hd Hd'.
      destruct (create_lag_features_columns sqrt d target_col s Hd)
        as (d2 & Hd2 & _ & _ & _ & H).
      rewrite Hd' in Hd2. by injection Hd2 as <-. }
    rewrite Hdf2 in Hd2. injection Hd2 as <-.
    destruct (targets_loop_sets sqrt default_targets df1 target_col
                (target_col +:+ "_roll_std_6") s (rolling_std sqrt 6 1 s))
      as (d2 & Hd2 & _ & Hstd); [|exact Hnever|apply Hother|exact Hs1|by left|].
    { intros d d' Hd Hd'.
      destruct (create_lag_features_columns sqrt d target_col s Hd)
        as (d2 & Hd2 & _ & _ & H & _).
      rewrite Hd' in Hd2. by injection Hd2 as <-. }
    rewrite Hdf2 in Hd2. injection Hd2 as <-.
    by exists df2. }
  destruct Hloop as (df2 & -> & Hg2 & Hm6 & Hm24 & Hstd). cbn [bind].
  assert (Hg : grows df df2) by (by eapply grows_trans).
  rewrite !Forall_cons in Hcols. destruct Hcols as (Hadm & Hdis & Hbed & Hoxy & _).
  assert (Hread : ∀ d col, grows df d → is_Some (column df col) → ∃ s, getitem d col = inr s).
  { intros d col (_ & _ & Hd) Hcol. destruct (Hd col Hcol) as [s0 Hs0]. exists s0.
    by apply getitem_Some. }
  destruct (Hread df2 "bed_occupancy" Hg Hbed) as [bed ->]. cbn [bind].
  destruct (Hread df2 "oxygen_level" Hg Hoxy) as [oxy ->]. cbn [bind].
  match goal with |- context [getitem ?d "admissions"] =>
    destruct (Hread d "admissions") as [adm ->];
      [eapply grows_trans; [exact Hg|apply grows_set_column]|done|]
  end.
  cbn [bind].
  match goal with |- context [getitem ?d "discharges"] =>
    destruct (Hread d "discharges") as [dis ->];
      [eapply grows_trans; [exact Hg|];
       eapply grows_trans; apply grows_set_column|done|]
  end.
  cbn [bind]. eexists. split; [reflexivity|].
  assert (Hfill : ∀ name v,
    name ∈ ["_roll_mean_6"; "_roll_mean_24"; "_roll_std_6"] →
    column df2 (target_col +:+ name) = Some v →
    column
      (fillna_ffill_bfill
         (set_column
            (set_column
               (set_column df2 "occupancy_oxygen_ratio"
                  (zip_with cell_div bed (map (fmap (λ x, x + inject_Z 1)%Q) oxy)))
               "admission_rate_trend" (rolling_mean 6 1 adm))
            "discharge_rate_trend" (rolling_mean 6 1 dis)))
      (target_col +:+ name)
    = Some (bfill (ffill v))).
  { intros name v Hname Hv. unfold column at 1. cbn [columns fillna_ffill_bfill].
    rewrite (lookup_column_fmap (λ s, bfill (ffill s))).
    change (lookup_column (columns ?d) ?c) with (column d c).
    rewrite !column_set_ne; [by rewrite Hv|..];
      (rewrite !elem_of_cons, elem_of_nil in Hname;
       destruct Hname as [->|[->|[->|[]]]]; destruct Hcases as [->|[->| ->]]; discriminate). }
  split; [|split].
  - apply Hfill; [|exact Hm6]. apply (bool_decide_unpack _). vm_compute. exact I.
  - apply Hfill; [|exact Hm24]. apply (bool_decide_unpack _). vm_compute. exact I.
  - apply Hfill; [|exact Hstd]. apply (bool_decide_unpack _). vm_compute. exact I.
Qed.

Lemma create_lag_features_rolling_row sqrt df target_col (s : Series) :
  column df target_col = Some s →
  ∃ df_lag,
    create_lag_features sqrt df target_col = inr df_lag
    ∧ ∀ t, (t < length s)%nat →
        rolling_row df_lag target_col t
        = (Some (trailing_mean 6 s t), Some (trailing_mean 24 s t),
           Some (trailing_std sqrt 6 s t)).
Proof.
  intros Hs.
  destruct (create_lag_features_columns sqrt df target_col s Hs)
    as (df_lag & Hlag & _ & Hm6 & Hstd & Hm24).
  exists df_lag. split; [done|]. intros t Ht. unfold rolling_row.
  rewrite Hm6, Hm24, Hstd. cbn [mbind option_bind].
  by rewrite !rolling_mean_cell, rolling_std_cell by done.
Qed.

Lemma calm_rows_well_formed : well_formed calm_rows.
Proof.
  unfold well_formed. split; [by vm_compute|]. split; [by eexists|]. split.
  - repeat (apply List.Forall_cons; [vm_compute; by eexists|]). apply List.Forall_nil.
  - vm_compute. repeat (apply List.Forall_cons; [reflexivity|]). apply List.Forall_nil.
Qed.

Lemma surge_features_prepared :
  prepare_features isqrt one_model surge_rows = inr surge_features.
Proof. vm_compute. reflexivity. Qed.

(** C3, as stated, fails: two wards report the same admissions in the first
    hour and differ in the second. Where [create_lag_features] leaves it, the
    6-step standard deviation of the first row is NaN: one value has no
    sample standard deviation. In the features that [prepare_features]
    returns that cell is filled from the second row, and so differs between
    the two wards: it is read from a later row. *)
Lemma rolling_statistics_counterexample :
  (∃ df_lag,
     create_lag_features isqrt calm_rows "admissions" = inr df_lag
     ∧ column df_lag "admissions_roll_std_6" ≫= (.!! 0%nat) = Some None)
  ∧ prepare_features isqrt one_model calm_rows = inr calm_features
  ∧ prepare_features isqrt one_model surge_rows = inr surge_features
  ∧ column calm_rows "admissions" ≫= (.!! 0%nat)
    = column surge_rows "admissions" ≫= (.!! 0%nat)
  ∧ column calm_features "admissions_roll_std_6" ≫= (.!! 0%nat) = Some (Some (inject_Z 0))
  ∧ column surge_features "admissions_roll_std_6" ≫= (.!! 0%nat)
    = Some (Some (inject_Z 70)).
Proof.
  split.
  { eexists. split; [vm_compute; reflexivity|]. reflexivity. }
  split; [exact calm_features_prepared|]. split; [exact surge_features_prepared|].
  repeat split.
Qed.

(** C3, amended. For every series [s] of a column:
    in the frame that [create_lag_features] returns, at every row [t] the
    6-step and the 24-step mean and the 6-step standard deviation are the
    conventional statistic of the values that are not NaN among the trailing
    min(w, t+1) rows: the mean when there is one such value, the sample
    standard deviation (divisor n - 1) when there are two, NaN otherwise, so
    the standard deviation of the first row is always NaN; and they depend on
    the rows up to [t] only.
    In the features that [prepare_features] returns for well-formed input,
    the three columns of a target resource are those, filled: a row that has
    its statistic holds it, a later row that lacks it repeats the row before,
    the rows before the first row that has it hold the value of that row (a
    later row), and a column where no row has it is NaN throughout. *)
Theorem rolling_statistics sqrt self df target_col (s : Series) :
  column df target_col = Some s →
  (∃ df_lag,
     create_lag_features sqrt df target_col = inr df_lag
     ∧ (∀ t, (t < length s)%nat →
          rolling_row df_lag target_col t
          = (Some (trailing_mean 6 s t), Some (trailing_mean 24 s t),
             Some (trailing_std sqrt 6 s t)))
     ∧ trailing_std sqrt 6 s 0 = None
     ∧ (∀ (df2 : DataFrame) (s2 : Series) t,
          column df2 target_col = Some s2 →
          (t < length s)%nat →
          take (S t) s2 = take (S t) s →
          ∃ df_lag2,
            create_lag_features sqrt df2 target_col = inr df_lag2
            ∧ rolling_row df_lag2 target_col t = rolling_row df_lag target_col t))
  ∧ (target_columns self = default_targets →
     well_formed df →
     target_col ∈ default_targets →
     ∃ df_features mean_6 mean_24 std_6,
       prepare_features sqrt self df = inr df_features
       ∧ column df_features (target_col +:+ "_roll_mean_6") = Some mean_6
       ∧ column df_features (target_col +:+ "_roll_mean_24") = Some mean_24
       ∧ column df_features (target_col +:+ "_roll_std_6") = Some std_6
       ∧ filled_statistic (trailing_mean 6 s) (length s) mean_6
       ∧ filled_statistic (trailing_mean 24 s) (length s) mean_24
       ∧ filled_statistic (trailing_std sqrt 6 s) (length s) std_6).
Proof.
  intros Hs. split; [|intros Htargets Hdf Hin].
  - destruct (create_lag_features_rolling_row sqrt df target_col s Hs)
      as (df_lag & Hlag & Hrow).
    exists df_lag. split; [done|]. split; [done|]. split.
    { unfold trailing_std, observed_trailing. cbn. by destruct (s !! 0%nat) as [[x|]|]. }
    intros df2 s2 t Hs2 Ht Heq.
    assert (t < length s2)%nat as Ht2.
    { apply (f_equal length) in Heq. rewrite !length_take in Heq. lia. }
    destruct (create_lag_features_rolling_row sqrt df2 target_col s2 Hs2)
      as (df_lag2 & Hlag2 & Hrow2).
    exists df_lag2. split; [done|]. rewrite Hrow, Hrow2 by done.
    unfold trailing_mean, trailing_std. by rewrite !(observed_trailing_past _ s s2 t Heq).
  - destruct (prepared_rolling_columns sqrt self df target_col s Htargets Hdf Hin Hs)
      as (df_features & Hprepared & Hm6 & Hm24 & Hstd).
    exists df_features. do 3 eexists. split; [done|].
    split; [exact Hm6|]. split; [exact Hm24|]. split; [exact Hstd|].
    assert (Hfilled : ∀ stat (r : Series),
      length r = length s → (∀ t, (t < length s)%nat → r !! t = Some (stat t)) →
      filled_statistic stat (length s) (bfill (ffill r))).
    { intros stat r Hlen Hr. rewrite <- Hlen. apply fill_filled_statistic.
      intros t Ht. apply Hr. by rewrite <- Hlen. }
    split; [|split]; apply Hfilled.
    + apply rolling_length.
    + intros t. apply rolling_mean_cell.
    + apply rolling_length.
    + intros t. apply rolling_mean_cell.
    + apply rolling_length.
    + intros t. apply rolling_std_cell.
Qed.

Lemma rolling_statistics_witness :
  ∃ df_features std_6,
    prepare_features isqrt one_model calm_rows = inr df_features
    ∧ column df_features "admissions_roll_std_6" = Some std_6
    ∧ std_6 !! 2%nat = Some (Some (inject_Z 1))
    ∧ std_6 !! 0%nat = Some (Some (inject_Z 0)).
Proof.
  destruct (rolling_statistics isqrt one_model calm_rows "admissions"
              [Some (inject_Z 8); Some (inject_Z 9); Some (inject_Z 7)])
    as (_ & Hfeatures); [reflexivity|].
  destruct Hfeatures
    as (df_features & mean_6 & mean_24 & std_6 & Hprepared & _ & _ & Hstd
        & _ & _ & _ & Hholds & _ & Hleading & _).
  - reflexivity.
  - exact calm_rows_well_formed.
  - apply (bool_decide_unpack _). vm_compute. exact I.
  - exists df_features, std_6. split; [exact Hprepared|]. split; [exact Hstd|]. split.
    + apply (Hholds 2%nat); [cbn; lia|vm_compute; reflexivity].
    + apply (Hleading 1%nat (inject_Z 0)); [cbn; lia|vm_compute; reflexivity| |lia].
      intros [|i] Hi; [reflexivity|lia].
Defined.
